(** * Product catalog backend: slug normalisation, product mutations and
      filter queries

    A shallow embedding of the controllers
    [src/controllers/admin/product/product.js],
    [src/controllers/customer/customerproduct.js] and
    [src/controllers/admin/brand/brand.js], and of the schema and the slug
    hook of [src/models/brand/brand.js].

    - JavaScript strings are sequences of UTF-16 code units ([list N]).
    - Handlers are written in a small state-and-exception monad over a
      [World]: the committed document store, the writes pending in the
      session's transaction, the upload directory, and a schedule of
      injected store failures.
    - What the JavaScript runtime and Mongoose provide (case conversion,
      [JSON.parse], [parseFloat], ObjectId casting) is not part of the
      repository; it is an interface ([Class]) the development is
      parametric in.
    - Responses keep the status, the message constant and the data that
      the theorems speak of.  For the query handlers the data is the query
      put to the store together with the sort, the offsets and the count,
      and for the deals of the month the deals themselves; the text
      appended to [message], the console output, the documents of a page
      and the final [transformResponse] of updateProduct are left out. *)

From Stdlib Require Import ZArith NArith QArith List Ascii String DecimalString Bool Lia.
From stdpp Require Import base option list gmap.
Import ListNotations.

Set Warnings "-register-all,-clear-no-such-hyp".
Local Open Scope Z_scope.

(* ===================================================================== *)
(** ** JavaScript strings *)
(* ===================================================================== *)

(** A JavaScript string: its UTF-16 code units. *)
Definition jsstring := list N.

(** The code units of an ASCII literal. *)
Fixpoint js (s : string) : jsstring :=
  match s with
  | EmptyString => []
  | String c t => N_of_ascii c :: js t
  end.

(** [s.length > 0] *)
Definition nonempty (s : jsstring) : bool :=
  match s with [] => false | _ => true end.

(** [s.split(sep)] for a one-unit separator; [cur] collects the piece being
    read. *)
Fixpoint split_on (sep : N) (cur : jsstring) (s : jsstring) : list jsstring :=
  match s with
  | [] => [cur]
  | c :: t => if N.eqb c sep then cur :: split_on sep [] t else split_on sep (cur ++ [c]) t
  end.

(** [s.replace(/[.*+?^${}()|[\]\\]/g, '\\$&')]: a backslash goes before
    every regular-expression metacharacter. *)
Definition is_meta (c : N) : bool :=
  existsb (N.eqb c) [46; 42; 43; 63; 94; 36; 123; 125; 40; 41; 124; 91; 93; 92]%N.

Definition escape_regex (s : jsstring) : jsstring :=
  concat (map (fun c => if is_meta c then [92%N; c] else [c]) s).

Module Slug.

(** The class [[a-z0-9]] of the normalising regular expressions. *)
Definition is_alnum (c : N) : bool :=
  ((97 <=? c) && (c <=? 122) || (48 <=? c) && (c <=? 57))%N.

Definition hyphen : N := 45%N.

Definition is_hyphen (c : N) : bool := (c =? hyphen)%N.

(** [.replace(/[^a-z0-9]+/g, '-')]: every maximal run of code units outside
    [[a-z0-9]] becomes one hyphen.  [in_run] records that the previous code
    unit already belonged to the run being replaced. *)
Fixpoint replace_runs (in_run : bool) (s : jsstring) : jsstring :=
  match s with
  | [] => []
  | c :: t =>
      if is_alnum c then c :: replace_runs false t
      else if in_run then replace_runs true t
      else hyphen :: replace_runs true t
  end.

Fixpoint drop_hyphens (s : jsstring) : jsstring :=
  match s with
  | [] => []
  | c :: t => if is_hyphen c then drop_hyphens t else s
  end.

(** What is left of [s] once its trailing hyphens are gone. *)
Fixpoint drop_trailing_hyphens (s : jsstring) : jsstring :=
  match s with
  | [] => []
  | c :: t =>
      match drop_trailing_hyphens t with
      | [] => if is_hyphen c then [] else [c]
      | t' => c :: t'
      end
  end.

(** [.replace(/^-+|-+$/g, '')]: the leading run of hyphens and the trailing
    run of hyphens are removed. *)
Definition strip_hyphens (s : jsstring) : jsstring :=
  drop_trailing_hyphens (drop_hyphens s).

(** [String.prototype.toLowerCase] is the runtime's; the normaliser is
    parametric in it. *)
Class CaseConversion := { toLowerCase : jsstring -> jsstring }.

(** [name.toLowerCase().replace(/[^a-z0-9]+/g, '-').replace(/^-+|-+$/g, '')]
    (product.js, createProduct and updateProduct; brand.js, pre-save hook;
    the same expression normalises tags and collections). *)
Definition normalize `{CaseConversion} (text : jsstring) : jsstring :=
  strip_hyphens (replace_runs false (toLowerCase text)).

(** A runtime-independent lower-casing for evaluation: the ASCII letters
    A-Z are shifted, U+212A KELVIN SIGN maps to k, U+0130 to i followed by
    U+0307, every other code unit is kept. *)
Definition lower_unit (c : N) : jsstring :=
  (if (65 <=? c) && (c <=? 90) then [c + 32]
   else if c =? 8490 then [107]
   else if c =? 304 then [105; 775]
   else [c])%N.

Definition ascii_toLowerCase (s : jsstring) : jsstring :=
  concat (map lower_unit s).

Definition ascii_case : CaseConversion := {| toLowerCase := ascii_toLowerCase |}.

(** *** Regular expressions, to state the shape of a slug *)

Inductive re : Type :=
| Chars (p : N -> bool)
| Seq (r1 r2 : re)
| Star (r : re).

Definition Plus (r : re) : re := Seq r (Star r).

Inductive Matches : re -> jsstring -> Prop :=
| M_class p c : p c = true -> Matches (Chars p) [c]
| M_seq r1 r2 s1 s2 : Matches r1 s1 -> Matches r2 s2 -> Matches (Seq r1 r2) (s1 ++ s2)
| M_star_nil r : Matches (Star r) []
| M_star_app r s1 s2 : Matches r s1 -> Matches (Star r) s2 -> Matches (Star r) (s1 ++ s2).

(** [^[a-z0-9]+(-[a-z0-9]+)*$] *)
Definition slug_re : re :=
  Seq (Plus (Chars is_alnum)) (Star (Seq (Chars is_hyphen) (Plus (Chars is_alnum)))).

(** Characters that may occur in a slug. *)
Definition slug_char (c : N) : bool := is_alnum c || is_hyphen c.

(** Only slug characters, and no hyphen after a hyphen; [after_hyphen]
    tells whether the unit before the string was one. *)
Fixpoint tidy (after_hyphen : bool) (s : jsstring) : bool :=
  match s with
  | [] => true
  | c :: t =>
      if is_alnum c then tidy false t
      else is_hyphen c && negb after_hyphen && tidy true t
  end.

Definition clean_start (s : jsstring) : bool :=
  match s with c :: _ => negb (is_hyphen c) | [] => true end.

Definition clean_end (s : jsstring) : bool :=
  match last s with Some c => negb (is_hyphen c) | None => true end.

End Slug.


(* ===================================================================== *)
(** ** JavaScript values *)
(* ===================================================================== *)

(** A MongoDB ObjectId: a 12-byte value. *)
Definition ObjectId := N.

(** IEEE doubles as far as the controllers look at them: comparisons and
    truthiness.  [-0] is not told apart from [0]. *)
Inductive JsNum : Type :=
| NaN
| NegInf
| Fin (q : Q)
| PosInf.

(** [a < b] on numbers; false as soon as one side is NaN. *)
Definition num_lt (a b : JsNum) : bool :=
  match a, b with
  | NaN, _ => false
  | _, NaN => false
  | _, NegInf => false
  | NegInf, _ => true
  | PosInf, _ => false
  | Fin _, PosInf => true
  | Fin x, Fin y => negb (Qle_bool y x)
  end.

Definition num_of_Z (z : Z) : JsNum := Fin (inject_Z z).

Inductive JsVal : Type :=
| JUndefined
| JNull
| JBool (b : bool)
| JNumber (n : JsNum)
| JString (s : jsstring)
| JObjectId (o : ObjectId)
| JArray (items : list JsVal)
| JObject (fields : list (jsstring * JsVal)).

(** ToBoolean. *)
Definition truthy (v : JsVal) : bool :=
  match v with
  | JUndefined | JNull => false
  | JBool b => b
  | JNumber NaN => false
  | JNumber (Fin q) => negb (Qeq_bool q 0)
  | JNumber _ => true
  | JString [] => false
  | JString (_ :: _) => true
  | JObjectId _ | JArray _ | JObject _ => true
  end.

(** [v == null]: the operand of [??] and [?.] that short-circuits. *)
Definition nullish (v : JsVal) : bool :=
  match v with JUndefined | JNull => true | _ => false end.

(** [a ?? b] and [a || b]. *)
Definition coalesce (a b : JsVal) : JsVal := if nullish a then b else a.
Definition js_or (a b : JsVal) : JsVal := if truthy a then a else b.

(** [typeof v === 'object'] (true of [null]) and [typeof v === 'string']. *)
Definition typeof_object (v : JsVal) : bool :=
  match v with JNull | JObjectId _ | JArray _ | JObject _ => true | _ => false end.
Definition typeof_string (v : JsVal) : bool :=
  match v with JString _ => true | _ => false end.
Definition isArray (v : JsVal) : bool :=
  match v with JArray _ => true | _ => false end.

(** [v === 'lit'] and [v === b]. *)
Definition is_str (v : JsVal) (lit : string) : bool :=
  match v with JString s => bool_decide (s = js lit) | _ => false end.
Definition is_bool (v : JsVal) (b : bool) : bool :=
  match v with JBool b' => Bool.eqb b b' | _ => false end.

(** [x === 'true' || x === true] and [x === 'false' || x === false] *)
Definition says_true (x : JsVal) : bool := is_str x "true" || is_bool x true.
Definition says_false (x : JsVal) : bool := is_str x "false" || is_bool x false.

(** Own properties of an object literal, first binding first. *)
Fixpoint assoc (k : jsstring) (l : list (jsstring * JsVal)) : JsVal :=
  match l with
  | [] => JUndefined
  | (k', v) :: t => if decide (k = k') then v else assoc k t
  end.

(** [o[k] = v] on the fields of an object: the binding is replaced in
    place, or appended. *)
Fixpoint assoc_set (k : jsstring) (v : JsVal) (l : list (jsstring * JsVal))
  : list (jsstring * JsVal) :=
  match l with
  | [] => [(k, v)]
  | (k', v') :: t => if decide (k = k') then (k, v) :: t else (k', v') :: assoc_set k v t
  end.

(** [v.length] where it is defined, [undefined] elsewhere. *)
Definition js_length (v : JsVal) : JsVal :=
  match v with
  | JArray l => JNumber (num_of_Z (Z.of_nat (length l)))
  | JString s => JNumber (num_of_Z (Z.of_nat (length s)))
  | _ => JUndefined
  end.

(** [v[k]] on a value that is neither [null] nor [undefined]; an ObjectId
    answers [_id] with itself (Mongoose's convenience getter). *)
Definition prop (v : JsVal) (k : jsstring) : JsVal :=
  match v with
  | JObject fs => assoc k fs
  | JArray _ | JString _ => if bool_decide (k = js "length") then js_length v else JUndefined
  | JObjectId o => if bool_decide (k = js "_id") then JObjectId o else JUndefined
  | _ => JUndefined
  end.

(** [v.name] for a literal property name. *)
Definition field (v : JsVal) (name : string) : JsVal := prop v (js name).

(** [v?.name] *)
Definition opt_field (v : JsVal) (name : string) : JsVal :=
  if nullish v then JUndefined else field v name.

(** [v.length > 0], as in [v.images?.length > 0]. *)
Definition length_positive (v : JsVal) : bool :=
  match js_length v with
  | JNumber n => num_lt (num_of_Z 0) n
  | _ => false
  end.

(** The elements of an array ([] for anything else). *)
Definition items_of (v : JsVal) : list JsVal :=
  match v with JArray l => l | _ => [] end.

(** Decimal digits of an index, for template literals. *)
Definition js_of_nat (n : nat) : jsstring :=
  js (NilZero.string_of_uint (Nat.to_uint n)).

(** Same-value-zero on what a request payload can hold twice: primitives
    compare by value, two objects or arrays of a parsed payload are never
    the same reference. *)
Definition same_value (a b : JsVal) : bool :=
  match a, b with
  | JUndefined, JUndefined | JNull, JNull => true
  | JBool x, JBool y => Bool.eqb x y
  | JNumber (Fin x), JNumber (Fin y) => Qeq_bool x y
  | JNumber NaN, JNumber NaN | JNumber PosInf, JNumber PosInf
  | JNumber NegInf, JNumber NegInf => true
  | JString x, JString y => bool_decide (x = y)
  | JObjectId x, JObjectId y => bool_decide (x = y)
  | _, _ => false
  end.

(** [[...new Set(l)]]: first occurrences, in order. *)
Fixpoint unique_by {A} (eqb : A -> A -> bool) (seen : list A) (l : list A) : list A :=
  match l with
  | [] => []
  | x :: t =>
      if existsb (eqb x) seen then unique_by eqb seen t
      else x :: unique_by eqb (x :: seen) t
  end.

Definition set_values (l : list JsVal) : list JsVal := unique_by same_value [] l.

(* ===================================================================== *)
(** ** Documents and the document store *)
(* ===================================================================== *)

(** Modelled from the spec: the Product, Category and Color schemas
    ([models/product], [models/category], [models/color]) are not under
    src; the records hold the attributes of the spec's data model under
    the names the controllers read and write. *)
Record Image := {
  img_url : jsstring;
  img_public_id : option jsstring;
  img_alt : jsstring;
  img_isPrimary : bool }.

Record SizeEntry := { sz_size : jsstring; sz_quantity : Z }.

Record Variant := {
  v_id : ObjectId;
  v_color : option ObjectId;
  v_price : option Q;
  v_sizes : list SizeEntry;
  v_images : list Image }.

Record Product := {
  p_id : ObjectId;
  p_name : jsstring;
  p_slug : jsstring;
  p_category : ObjectId;
  p_brand : ObjectId;
  p_base_price : Q;
  p_description : JsVal;
  p_variants : list Variant;
  p_isActive : bool;
  p_tags : list jsstring;
  p_videoUrl : JsVal;
  p_isFeatured : bool;
  p_isSoldOut : bool;
  p_isVisible : bool;
  p_specifications : JsVal;
  p_collections : list jsstring;
  p_discount : Q }.

Record Category := {
  cat_name : jsstring;
  cat_slug : jsstring;
  cat_isActive : bool;
  cat_productCount : Z }.

Record Color := {
  col_name : jsstring;
  col_hex : jsstring;
  col_productCount : Z }.

(** The Brand schema of models/brand/brand.js. *)
Record Brand := { brand_name : jsstring; brand_slug : jsstring }.

Record DB := {
  products : gmap ObjectId Product;
  categories : gmap ObjectId Category;
  colors : gmap ObjectId Color;
  brands : gmap ObjectId Brand }.

(** [{ $inc: { productCount: d } }] *)
Definition cat_inc (d : Z) (c : Category) : Category :=
  {| cat_name := cat_name c; cat_slug := cat_slug c; cat_isActive := cat_isActive c;
     cat_productCount := cat_productCount c + d |}.

Definition col_inc (d : Z) (c : Color) : Color :=
  {| col_name := col_name c; col_hex := col_hex c;
     col_productCount := col_productCount c + d |}.

(** The writes the product controllers issue. *)
Inductive WriteOp : Type :=
| W_insertProduct (p : Product)                 (* product.save() *)
| W_replaceProduct (id : ObjectId) (p : Product) (* findByIdAndUpdate(id, { $set }) *)
| W_deleteProduct (id : ObjectId)               (* Product.deleteOne({ _id }) *)
| W_incCategory (id : ObjectId) (d : Z)          (* Category.findByIdAndUpdate(id, { $inc }) *)
| W_incColors (ids : list ObjectId) (d : Z).     (* Color.updateMany({ _id: { $in } }, { $inc }) *)

(** A write changes the documents its filter selects and nothing else: an
    update by an id no document has is a no-op, [updateMany] with [$in]
    touches every selected document once. *)
Definition apply_write (op : WriteOp) (d : DB) : DB :=
  match op with
  | W_insertProduct p =>
      {| products := <[p_id p := p]> (products d); categories := categories d;
         colors := colors d; brands := brands d |}
  | W_replaceProduct id p =>
      {| products := alter (fun _ => p) id (products d); categories := categories d;
         colors := colors d; brands := brands d |}
  | W_deleteProduct id =>
      {| products := delete id (products d); categories := categories d;
         colors := colors d; brands := brands d |}
  | W_incCategory id z =>
      {| products := products d; categories := alter (cat_inc z) id (categories d);
         colors := colors d; brands := brands d |}
  | W_incColors ids z =>
      {| products := products d; categories := categories d;
         colors := map_imap (fun k c => Some (if bool_decide (k ∈ ids) then col_inc z c else c))
                            (colors d);
         brands := brands d |}
  end.

Definition apply_writes (ops : list WriteOp) (d : DB) : DB :=
  foldl (fun acc op => apply_write op acc) d ops.

(* ===================================================================== *)
(** ** The world a request handler runs in *)
(* ===================================================================== *)

Inductive FileState := Removable | Locked.

Record World := {
  db : DB;                          (* committed documents *)
  txn : option (list WriteOp);      (* writes pending in the session's transaction *)
  uploads : gmap jsstring FileState; (* the Uploads directory, by base name *)
  cloud : gmap jsstring FileState;   (* Cloudinary assets, by public_id *)
  global_Image : bool;              (* whether the global scope binds [Image] *)
  next_oid : ObjectId;              (* source of [new mongoose.Types.ObjectId()] *)
  clock : nat;                      (* store calls made so far *)
  faults : nat -> bool }.           (* which store calls fail *)

Inductive Error : Type :=
| StoreError        (* a store call failed *)
| CastError         (* Mongoose could not cast a value *)
| ValidationError   (* the document does not fit its schema *)
| TypeError
| ReferenceError
| FsError           (* fs.unlinkSync failed *)
| TransactionError  (* the driver refused a transaction call *)
| FormatError (what : string)   (* [throw new Error(...)] of a parser *)
| OutOfModel.       (* behaviour the embedding does not describe *)

Inductive Result (A : Type) : Type :=
| Ret (a : A)
| Throw (e : Error).
Arguments Ret {A} a.
Arguments Throw {A} e.

(** Computations that read and change the world and may throw. *)
Definition M (A : Type) : Type := World -> Result A * World.

#[export] Instance M_ret : MRet M := fun A a w => (Ret a, w).
#[export] Instance M_bind : MBind M := fun A B f m w =>
  match m w with
  | (Ret a, w') => f a w'
  | (Throw e, w') => (Throw e, w')
  end.

Definition throw {A} (e : Error) : M A := fun w => (Throw e, w).

(** [try { m } catch (e) { h e }].  [OutOfModel] is not an exception of the
    program and passes through. *)
Definition try_catch {A} (m : M A) (h : Error -> M A) : M A := fun w =>
  match m w with
  | (Ret a, w') => (Ret a, w')
  | (Throw OutOfModel, w') => (Throw OutOfModel, w')
  | (Throw e, w') => h e w'
  end.

(** [try { m } finally { f }], for an [f] that does not throw. *)
Definition finally {A} (m : M A) (f : World -> World) : M A := fun w =>
  let '(r, w') := m w in (r, f w').

Definition gets {A} (f : World -> A) : M A := fun w => (Ret (f w), w).
Definition modify (f : World -> World) : M unit := fun w => (Ret tt, f w).

Definition set_db (d : DB) (w : World) : World :=
  {| db := d; txn := txn w; uploads := uploads w; cloud := cloud w;
     global_Image := global_Image w; next_oid := next_oid w; clock := clock w;
     faults := faults w |}.
Definition set_txn (t : option (list WriteOp)) (w : World) : World :=
  {| db := db w; txn := t; uploads := uploads w; cloud := cloud w;
     global_Image := global_Image w; next_oid := next_oid w; clock := clock w;
     faults := faults w |}.
Definition set_uploads (u : gmap jsstring FileState) (w : World) : World :=
  {| db := db w; txn := txn w; uploads := u; cloud := cloud w;
     global_Image := global_Image w; next_oid := next_oid w; clock := clock w;
     faults := faults w |}.
Definition set_cloud (c : gmap jsstring FileState) (w : World) : World :=
  {| db := db w; txn := txn w; uploads := uploads w; cloud := c;
     global_Image := global_Image w; next_oid := next_oid w; clock := clock w;
     faults := faults w |}.
Definition set_next_oid (o : ObjectId) (w : World) : World :=
  {| db := db w; txn := txn w; uploads := uploads w; cloud := cloud w;
     global_Image := global_Image w; next_oid := o; clock := clock w;
     faults := faults w |}.
Definition tick (w : World) : World :=
  {| db := db w; txn := txn w; uploads := uploads w; cloud := cloud w;
     global_Image := global_Image w; next_oid := next_oid w; clock := S (clock w);
     faults := faults w |}.

(** [v.name], which throws on [null] and [undefined]. *)
Definition get_prop (v : JsVal) (name : string) : M JsVal :=
  if nullish v then throw TypeError else mret (field v name).

(** [v[k] = x] in strict mode: an object takes the property, a primitive
    throws.  Properties added to arrays are outside the embedding. *)
Definition set_prop (v : JsVal) (k : jsstring) (x : JsVal) : M JsVal :=
  match v with
  | JObject fs => mret (JObject (assoc_set k x fs))
  | JArray _ | JObjectId _ => throw OutOfModel
  | _ => throw TypeError
  end.

(** [Object.keys(v).length > 0] *)
Definition has_keys (v : JsVal) : bool :=
  match v with
  | JObject (_ :: _) | JArray (_ :: _) | JString (_ :: _) => true
  | _ => false
  end.

(** *** The store driver *)

(** Every call to the store is counted and fails when the schedule says so. *)
Definition store_call : M unit := fun w =>
  if faults w (clock w) then (Throw StoreError, tick w) else (Ret tt, tick w).

(** What a reader inside the session sees: the committed documents with the
    pending writes applied. *)
Definition view (w : World) : DB :=
  match txn w with
  | Some ops => apply_writes ops (db w)
  | None => db w
  end.

(** A read, with or without [{ session }]. *)
Definition read (session : bool) : M DB :=
  store_call ;; gets (fun w => if session then view w else db w).

(** A write: with [{ session }] and a transaction in progress it is only
    recorded; otherwise it reaches the committed documents at once. *)
Definition write (session : bool) (op : WriteOp) : M unit :=
  store_call ;;
  modify (fun w =>
    match session, txn w with
    | true, Some ops => set_txn (Some (ops ++ [op])) w
    | _, _ => set_db (apply_write op (db w)) w
    end).

(** [mongoose.startSession()] followed by [session.startTransaction()]. *)
Definition startSession : M unit := store_call.
Definition startTransaction : M unit := modify (set_txn (Some [])).

(** [session.commitTransaction()]: the pending writes become visible
    together. *)
Definition commitTransaction : M unit :=
  store_call ;; modify (fun w => set_txn None (set_db (view w) w)).

(** [session.abortTransaction()]: the pending writes are dropped; the
    driver throws when no transaction is in progress (never started, or
    already committed). *)
Definition abortTransaction : M unit := fun w =>
  match txn w with
  | Some _ => (Ret tt, set_txn None w)
  | None => (Throw TransactionError, w)
  end.

(** [session.endSession()] drops whatever is still pending. *)
Definition endSession (w : World) : World := set_txn None w.

(** The session the mutating handlers open: start it, run the unit inside
    a transaction, on an exception abort and let [h] deal with it, and end
    the session whatever happened. *)
Definition in_session {A} (unit : M A) (h : Error -> M A) : M A :=
  startSession ;;
  startTransaction ;;
  finally (try_catch unit (fun error => abortTransaction ;; h error)) endSession.

(** [new mongoose.Types.ObjectId()] *)
Definition new_ObjectId : M ObjectId := fun w =>
  (Ret (next_oid w), set_next_oid (N.succ (next_oid w)) w).

(* ===================================================================== *)
(** ** What the platform provides *)
(* ===================================================================== *)

(** The JavaScript runtime, Node's [path] module and Mongoose's casting.
    None of it is code of the repository. *)
Class Platform := {
  platform_case :: Slug.CaseConversion;
  (** [JSON.parse]; [None] when it throws a SyntaxError. *)
  JSON_parse : jsstring -> option JsVal;
  (** [parseFloat(v)] and [parseInt(v, 10)] ([None] for NaN). *)
  parseFloat : JsVal -> JsNum;
  parseInt : JsVal -> option Z;
  (** [String(n)] on numbers. *)
  Number_toString : JsNum -> jsstring;
  (** [path.basename] *)
  path_basename : jsstring -> jsstring;
  (** [String.prototype.trim] *)
  js_trim : jsstring -> jsstring;
  (** Mongoose's ObjectId cast of a value that is not an ObjectId already;
      [None] when it throws. *)
  ObjectId_from : JsVal -> option ObjectId;
  (** [ObjectId.prototype.toString] *)
  ObjectId_toString : ObjectId -> jsstring;
  (** Schema casts of the Product model for strings, numbers, lists of
      strings and variant subdocuments. *)
  castString : JsVal -> option jsstring;
  castNumber : JsVal -> option Q;
  castStrings : JsVal -> option (list jsstring);
  castVariant : JsVal -> option Variant;
  (** MongoDB's case-insensitive [$regex] match of a pattern on a string. *)
  regex_match : jsstring -> jsstring -> bool }.

(** The fields [new Product({...})] and [{ $set: updateData }] are given. *)
Record ProductFields := {
  f_name : JsVal;
  f_slug : JsVal;
  f_category : JsVal;
  f_brand : JsVal;
  f_base_price : JsVal;
  f_description : JsVal;
  f_variants : JsVal;
  f_isActive : JsVal;
  f_tags : JsVal;
  f_videoUrl : JsVal;
  f_isFeatured : JsVal;
  f_isSoldOut : JsVal;
  f_isVisible : JsVal;
  f_specifications : JsVal;
  f_collections : JsVal;
  f_discount : JsVal }.

Section Mongoose.
Context `{Platform}.

(** The ObjectId cast that [mongoose.isValidObjectId], query filters and
    [$set] all go through: an ObjectId is kept as it is. *)
Definition castObjectId (v : JsVal) : option ObjectId :=
  match v with
  | JObjectId o => Some o
  | _ => ObjectId_from v
  end.

(** An ObjectId whose string is not empty and casts back to it. *)
Definition reads_back (o : ObjectId) : bool :=
  nonempty (ObjectId_toString o)
  && bool_decide (castObjectId (JString (ObjectId_toString o)) = Some o).

(** [mongoose.isValidObjectId(v)]: whether Mongoose can cast [v]. *)
Definition isValidObjectId (v : JsVal) : bool :=
  bool_decide (is_Some (castObjectId v)).

(** Mongoose's Boolean cast. *)
Definition castBoolean (v : JsVal) : option bool :=
  match v with
  | JBool b => Some b
  | JString s =>
      if bool_decide (s = js "true") || bool_decide (s = js "1") || bool_decide (s = js "yes")
      then Some true
      else if bool_decide (s = js "false") || bool_decide (s = js "0") || bool_decide (s = js "no")
      then Some false
      else None
  | JNumber (Fin q) =>
      if Qeq_bool q 1 then Some true else if Qeq_bool q 0 then Some false else None
  | _ => None
  end.

(** The document Mongoose makes of the fields: every field is cast by its
    schema type, and a field that cannot be cast fails the whole
    document. *)
Definition castProduct (id : ObjectId) (f : ProductFields) : option Product :=
  name ← castString (f_name f);
  slug ← castString (f_slug f);
  category ← castObjectId (f_category f);
  brand ← castObjectId (f_brand f);
  base_price ← castNumber (f_base_price f);
  variants ← mapM castVariant (items_of (f_variants f));
  isActive ← castBoolean (f_isActive f);
  tags ← castStrings (f_tags f);
  isFeatured ← castBoolean (f_isFeatured f);
  isSoldOut ← castBoolean (f_isSoldOut f);
  isVisible ← castBoolean (f_isVisible f);
  collections ← castStrings (f_collections f);
  discount ← castNumber (f_discount f);
  Some {| p_id := id; p_name := name; p_slug := slug; p_category := category;
          p_brand := brand; p_base_price := base_price;
          p_description := f_description f; p_variants := variants;
          p_isActive := isActive; p_tags := tags; p_videoUrl := f_videoUrl f;
          p_isFeatured := isFeatured; p_isSoldOut := isSoldOut;
          p_isVisible := isVisible; p_specifications := f_specifications f;
          p_collections := collections; p_discount := discount |}.

(** [String(v)] / [v.toString()] for a value that is not nullish. *)
Fixpoint js_toString (v : JsVal) : jsstring :=
  match v with
  | JUndefined => js "undefined"
  | JNull => js "null"
  | JBool true => js "true"
  | JBool false => js "false"
  | JNumber n => Number_toString n
  | JString s => s
  | JObjectId o => ObjectId_toString o
  | JArray l =>
      (fix join (l : list JsVal) : jsstring :=
         match l with
         | [] => []
         | [x] => if nullish x then [] else js_toString x
         | x :: t => (if nullish x then [] else js_toString x) ++ js "," ++ join t
         end) l
  | JObject _ => js "[object Object]"
  end.

(** Casting the operand list of an [$in] on [_id]. *)
Fixpoint cast_ids (l : list JsVal) : M (list ObjectId) :=
  match l with
  | [] => mret []
  | v :: t =>
      match castObjectId v with
      | None => throw CastError
      | Some o => os ← cast_ids t; mret (o :: os)
      end
  end.

(** [Model.findById(id)], [Model.findOne(filter)] on the products. *)
Definition Product_findById (session : bool) (id : JsVal) : M (option Product) :=
  match castObjectId id with
  | None => throw CastError
  | Some o => d ← read session; mret (products d !! o)
  end.

Definition Product_findOne (f : Product -> bool) : M (option Product) :=
  d ← read false; mret (find f (snd <$> map_to_list (products d))).

Definition Category_findById (id : JsVal) : M (option Category) :=
  match castObjectId id with
  | None => throw CastError
  | Some o => d ← read false; mret (categories d !! o)
  end.

Definition Brand_findById (id : JsVal) : M (option Brand) :=
  match castObjectId id with
  | None => throw CastError
  | Some o => d ← read false; mret (brands d !! o)
  end.

(** [Color.find({ _id: { $in: ids } })]: the colour documents selected,
    each once. *)
Definition Color_find_in (ids : list JsVal) : M (list (ObjectId * Color)) :=
  os ← cast_ids ids;
  d ← read false;
  mret (filter (fun kc => bool_decide (kc.1 ∈ os)) (map_to_list (colors d))).

(** [Category.findByIdAndUpdate(id, { $inc: { productCount: d } }, { session })] *)
Definition Category_inc (id : JsVal) (d : Z) : M unit :=
  match castObjectId id with
  | None => throw CastError
  | Some o => write true (W_incCategory o d)
  end.

(** [Color.updateMany({ _id: { $in: ids } }, { $inc: { productCount: d } }, { session })] *)
Definition Color_inc_in (ids : list JsVal) (d : Z) : M unit :=
  os ← cast_ids ids; write true (W_incColors os d).

(** [if (ids.length > 0) await Color.updateMany(...)] *)
Definition adjust_colors (ids : list JsVal) (d : Z) : M unit :=
  match ids with
  | [] => mret tt
  | _ => Color_inc_in ids d
  end.

End Mongoose.

(* ===================================================================== *)
(** ** Responses *)
(* ===================================================================== *)

(** The members of [STATUS] the controllers use. *)
Inductive Status : Type :=
| OK | CREATED | BAD_REQUEST | NOT_FOUND | CONFLICT | UNPROCESSABLE_ENTITY | SERVER_ERROR.

(** Modelled from the spec: config/constant/status/status.js is not under
    src; the members stand for the HTTP codes of their names, client errors
    being the 4xx codes and server errors the 5xx codes. *)
Definition http_code (s : Status) : Z :=
  match s with
  | OK => 200 | CREATED => 201 | BAD_REQUEST => 400 | NOT_FOUND => 404
  | CONFLICT => 409 | UNPROCESSABLE_ENTITY => 422 | SERVER_ERROR => 500
  end.

Definition is_client_error (s : Status) : bool :=
  (400 <=? http_code s) && (http_code s <? 500).

(** Response messages: literals, members of [PRODUCT_MESSAGES] by name, and
    a message followed by the text of the error caught or by a value of
    the request. *)
Inductive Message : Type :=
| Text (s : string)
| PRODUCT_MESSAGES (member : string)
| WithCause (m : Message) (e : Error)
| WithValue (m : Message) (v : JsVal).

Record Response (D : Type) := {
  statusCode : Status;
  message : Message;
  data : option D }.
Arguments statusCode {D} r.
Arguments message {D} r.
Arguments data {D} r.

Definition respond {D} (s : Status) (m : Message) : Response D :=
  {| statusCode := s; message := m; data := None |}.

Fixpoint forEach {A} (f : A -> M unit) (l : list A) : M unit :=
  match l with
  | [] => mret tt
  | x :: t => f x ;; forEach f t
  end.

(* ===================================================================== *)
(** ** deleteProduct (product.js) *)
(* ===================================================================== *)

Module Delete.
Section Delete.
Context `{Platform}.

Definition existsSync (name : jsstring) : M bool :=
  gets (fun w => bool_decide (is_Some (uploads w !! name))).

(** [fs.unlinkSync]: throws when the file is missing or cannot be
    removed. *)
Definition unlinkSync (name : jsstring) : M unit := fun w =>
  match uploads w !! name with
  | Some Removable => (Ret tt, set_uploads (delete name (uploads w)) w)
  | _ => (Throw FsError, w)
  end.

(** The [forEach] over the variants' images at the head of the [try]
    block. *)
Definition delete_images (product : Product) : M unit :=
  forEach (fun variant =>
    forEach (fun img =>
      let imagePath := path_basename (img_url img) in
      existsSync imagePath ≫= fun there : bool =>
      if there then unlinkSync imagePath else mret tt)
    (v_images variant))
  (p_variants product).

(** The expression statement [Image] before [Product.deleteOne]: reading
    an identifier the global scope does not bind throws. *)
Definition eval_Image : M unit := fun w =>
  if global_Image w then (Ret tt, w) else (Throw ReferenceError, w).

(** [product.variants.map((v) => v.color?._id?.toString()).filter(Boolean)]
    on the unpopulated document. *)
Definition color_strings (product : Product) : list JsVal :=
  omap (fun v => match v_color v with
                 | Some c => let s := ObjectId_toString c in
                             if truthy (JString s) then Some (JString s) else None
                 | None => None
                 end) (p_variants product).

(** The body of the [try] block. *)
Definition atomic_unit (id : JsVal) (product : Product) : M (Response unit) :=
  delete_images product ;;
  Category_inc (JObjectId (p_category product)) (-1) ;;
  adjust_colors (set_values (color_strings product)) (-1) ;;
  eval_Image ;;
  (match castObjectId id with
   | None => throw CastError
   | Some o => write true (W_deleteProduct o)
   end) ;;
  commitTransaction ;;
  mret (respond OK (PRODUCT_MESSAGES "PRODUCT_DELETED")).

Definition deleteProduct (id : JsVal) : M (Response unit) :=
  product ← Product_findById false id;
  match product with
  | None => mret (respond NOT_FOUND (PRODUCT_MESSAGES "PRODUCT_NOT_FOUND"))
  | Some product =>
      in_session (atomic_unit id product) (fun error => throw error)
  end.

End Delete.
End Delete.

(* ===================================================================== *)
(** ** createProduct (product.js) *)
(* ===================================================================== *)

(** An Express request: [req.params.id], [req.body], [req.files],
    [req.query]. *)
Record Request := {
  req_id : JsVal;
  req_body : JsVal;
  req_files : JsVal;
  req_query : JsVal }.

Module Create.
Section Create.
Context `{Platform}.

Inductive FieldName := F_variants | F_tags | F_specifications | F_collections | F_variantImagesMeta.

Definition is_specifications (f : FieldName) : bool :=
  match f with F_specifications => true | _ => false end.
Definition is_labels (f : FieldName) : bool :=
  match f with F_tags | F_collections => true | _ => false end.

(** [typeof item === 'string' ? item.toLowerCase().replace(...).replace(...) : item] *)
Definition normalize_item (item : JsVal) : JsVal :=
  match item with
  | JString s => JString (Slug.normalize s)
  | _ => item
  end.

Definition parseJsonField (fld : JsVal) (fieldName : FieldName) : JsVal :=
  if nullish fld then
    (if is_specifications fieldName then JObject [] else JArray [])
  else
    match fld with
    | JArray l =>
        if is_labels fieldName then JArray (map normalize_item l) else fld
    | JString s =>
        match JSON_parse s with
        | Some parsed =>
            if is_specifications fieldName then
              (if typeof_object parsed && negb (isArray parsed) then parsed else JObject [])
            else if is_labels fieldName then
              JArray (map normalize_item (if isArray parsed then items_of parsed else [parsed]))
            else
              (if isArray parsed then parsed else JArray [parsed])
        | None =>
            if is_specifications fieldName then JObject []
            else if is_labels fieldName then JArray [JString (Slug.normalize s)]
            else JArray [fld]
        end
    | _ =>
        if is_specifications fieldName && typeof_object fld then fld
        else if is_specifications fieldName then JObject []
        else JArray [fld]
    end.

(** [variants.map((v) => v.color).filter(Boolean)] *)
Definition variant_colors (variants : list JsVal) : M (list JsVal) :=
  cs ← mapM (fun v => get_prop v "color") variants;
  mret (filter (fun c => truthy c) cs).

(** The image objects made of the files uploaded for one variant. *)
Definition uploaded_images (body : JsVal) (index : nat) (variantImages : list JsVal)
  : M (list JsVal) :=
  mapM (fun '(i, file) =>
          path ← get_prop file "path";
          filename ← get_prop file "filename";
          let altKey := js "variants[" ++ js_of_nat index ++ js "][imageAlt_" ++ js_of_nat i ++ js "]" in
          let fallback := js "Variant " ++ js_of_nat index ++ js " Image " ++ js_of_nat (i + 1) in
          mret (JObject [(js "url", path); (js "public_id", filename);
                         (js "alt", js_or (prop body altKey) (JString fallback));
                         (js "isPrimary", JBool (Nat.eqb i 0))]))
       (imap (fun i file => (i, file)) variantImages).

(** [Array.isArray(x) ? x : [x]] *)
Definition as_array (x : JsVal) : list JsVal :=
  if isArray x then items_of x else [x].

(** The [variants.map] that attaches the uploaded files. *)
Definition attach_images (req : Request) (variants : list JsVal) : M (list JsVal) :=
  mapM (fun '(index, variant) =>
          let variantImageField := js "variants[" ++ js_of_nat index ++ js "][image]" in
          let uploaded := prop (req_files req) variantImageField in
          if truthy uploaded then
            images ← uploaded_images (req_body req) index (as_array uploaded);
            set_prop variant (js "images") (JArray images)
          else set_prop variant (js "images") (JArray []))
       (imap (fun i v => (i, v)) variants).

(** [variants.some((v) => v.images?.length > 0)] *)
Fixpoint some_has_images (variants : list JsVal) : M bool :=
  match variants with
  | [] => mret false
  | v :: t =>
      images ← get_prop v "images";
      if negb (nullish images) && length_positive images then mret true
      else some_has_images t
  end.

(** [variants = parseJsonField(variants, 'variants') || []] *)
Definition parsed_variants (body : JsVal) : list JsVal :=
  items_of (js_or (parseJsonField (field body "variants") F_variants) (JArray [])).

(** The body of the inner [try] block. *)
Definition atomic_unit (product : option Product) (category : JsVal)
           (variants : list JsVal) : M (Response Product) :=
  createdProduct ← match product with
                    | None => throw ValidationError
                    | Some p => write true (W_insertProduct p) ;; mret p
                    end;
  Category_inc category 1 ;;
  colorIds ← variant_colors variants;
  adjust_colors (set_values colorIds) 1 ;;
  commitTransaction ;;
  populatedProduct ← Product_findById false (JObjectId (p_id createdProduct));
  mret {| statusCode := CREATED;
          message := PRODUCT_MESSAGES "PRODUCT_CREATED";
          data := populatedProduct |}.

Definition createProduct (req : Request) : M (Response Product) :=
  let body := req_body req in
  if nullish body then throw TypeError else
  let name := field body "name" in
  let category := field body "category" in
  let brand := field body "brand" in
  let base_price := field body "base_price" in
  let variants := parsed_variants body in
  let tags := js_or (parseJsonField (field body "tags") F_tags) (JArray []) in
  let specifications :=
    js_or (parseJsonField (field body "specifications") F_specifications) (JObject []) in
  let collections := js_or (parseJsonField (field body "collections") F_collections) (JArray []) in
  if negb (truthy name) || negb (truthy category) || negb (truthy brand)
     || negb (truthy base_price) || bool_decide (variants = [])
  then
    mret (respond UNPROCESSABLE_ENTITY
            (if bool_decide (variants = []) then Text "At least one variant is required"
             else PRODUCT_MESSAGES "VALIDATION_ERROR"))
  else
  categoryDoc ← Category_findById category;
  if negb (bool_decide (is_Some categoryDoc)) then
    mret (respond BAD_REQUEST (PRODUCT_MESSAGES "INVALID_CATEGORY_ID"))
  else
  brandDoc ← Brand_findById brand;
  if negb (bool_decide (is_Some brandDoc)) then
    mret (respond BAD_REQUEST (Text "Invalid brand ID"))
  else
  colorIds ← variant_colors variants;
  validColors ← Color_find_in colorIds;
  if negb (Nat.eqb (length validColors) (length colorIds)) then
    mret (respond BAD_REQUEST (Text "One or more colors are invalid"))
  else
  slug ← match name with
         | JString s => mret (Slug.normalize s)
         | _ => throw TypeError
         end;
  existingProduct ← Product_findOne (fun p => bool_decide (p_slug p = slug));
  if bool_decide (is_Some existingProduct) then
    mret (respond CONFLICT (PRODUCT_MESSAGES "PRODUCT_EXISTS"))
  else
  variants ← (if truthy (req_files req) then attach_images req variants else mret variants);
  hasImages ← some_has_images variants;
  if negb hasImages && truthy (req_files req) && has_keys (req_files req) then
    mret (respond BAD_REQUEST (Text "Uploaded images must be assigned to a variant"))
  else
  _id ← new_ObjectId;
  let product :=
    castProduct _id
      {| f_name := name; f_slug := JString slug; f_category := category; f_brand := brand;
         f_base_price := base_price; f_description := field body "description";
         f_variants := JArray variants;
         f_isActive := coalesce (field body "isActive") (JBool true);
         f_tags := tags; f_videoUrl := field body "videoUrl";
         f_isFeatured := coalesce (field body "isFeatured") (JBool false);
         f_isSoldOut := coalesce (field body "isSoldOut") (JBool false);
         f_isVisible := coalesce (field body "isVisible") (JBool true);
         f_specifications := specifications; f_collections := collections;
         f_discount := coalesce (field body "discount") (JNumber (num_of_Z 0)) |} in
  try_catch
    (in_session (atomic_unit product category variants) (fun error => throw error))
    (fun error =>
       mret (respond SERVER_ERROR
               (WithCause (PRODUCT_MESSAGES "PRODUCT_CREATION_FAILED") error))).

End Create.
End Create.

(* ===================================================================== *)
(** ** updateProduct (product.js) *)
(* ===================================================================== *)

Module Update.
Section Update.
Context `{Platform}.

(** *** The product as [findById(...).populate(...)] hands it over *)

Definition image_toObject (i : Image) : JsVal :=
  JObject [(js "url", JString (img_url i));
           (js "public_id", match img_public_id i with
                            | Some s => JString s
                            | None => JUndefined
                            end);
           (js "alt", JString (img_alt i));
           (js "isPrimary", JBool (img_isPrimary i))].

Definition size_toObject (s : SizeEntry) : JsVal :=
  JObject [(js "size", JString (sz_size s));
           (js "quantity", JNumber (num_of_Z (sz_quantity s)))].

(** A populated reference: the referenced document, or [null] when there
    is none. *)
Definition populated_color (d : DB) (c : option ObjectId) : JsVal :=
  match c with
  | None => JUndefined
  | Some c =>
      match colors d !! c with
      | Some doc => JObject [(js "_id", JObjectId c);
                             (js "name", JString (col_name doc));
                             (js "hex", JString (col_hex doc))]
      | None => JNull
      end
  end.

Definition variant_toObject (d : DB) (v : Variant) : JsVal :=
  JObject [(js "_id", JObjectId (v_id v));
           (js "color", populated_color d (v_color v));
           (js "price", match v_price v with
                        | Some q => JNumber (Fin q)
                        | None => JUndefined
                        end);
           (js "sizes", JArray (map size_toObject (v_sizes v)));
           (js "images", JArray (map image_toObject (v_images v)))].

Record Populated := {
  doc : Product;
  pop_category : JsVal;
  pop_brand : JsVal;
  pop_variants : list JsVal }.

Definition populate (d : DB) (p : Product) : Populated :=
  {| doc := p;
     pop_category :=
       match categories d !! p_category p with
       | Some c => JObject [(js "_id", JObjectId (p_category p));
                            (js "name", JString (cat_name c))]
       | None => JNull
       end;
     pop_brand :=
       match brands d !! p_brand p with
       | Some b => JObject [(js "_id", JObjectId (p_brand p));
                            (js "name", JString (brand_name b))]
       | None => JNull
       end;
     pop_variants := map (variant_toObject d) (p_variants p) |}.

Definition js_strings (l : list jsstring) : JsVal := JArray (map JString l).

(** [a !== s] for a string [s]. *)
Definition differs_from (a : JsVal) (s : jsstring) : bool :=
  match a with
  | JString s' => negb (bool_decide (s' = s))
  | _ => true
  end.

(** *** Validation of the variants of the request (lines 430-452) *)

Fixpoint validate_variants (variants : list JsVal) : M (option (Response Product)) :=
  match variants with
  | [] => mret None
  | variant :: rest =>
      color ← get_prop variant "color";
      let _id := field variant "_id" in
      if truthy color && typeof_object color then
        mret (Some (respond BAD_REQUEST
                      (Text "Variant color must be a string ID, not an object")))
      else if negb (truthy _id) && negb (truthy color) then
        mret (Some (respond BAD_REQUEST
                      (Text "Each variant must have either an _id (for updates) or a color (for new variants)")))
      else if truthy color && negb (isValidObjectId color) then
        mret (Some (respond BAD_REQUEST
                      (WithValue (Text "Invalid color ID in variant") color)))
      else validate_variants rest
  end.

(** *** parseJsonField (lines 455-535) *)

(** [{ ...v, color: v.color?._id?.toString() || v.color }] *)
Definition normalize_color (v : JsVal) : M JsVal :=
  color ← get_prop v "color";
  let id := opt_field color "_id" in
  let c := js_or (if nullish id then JUndefined else JString (js_toString id)) color in
  match v with
  | JObject fs => mret (JObject (assoc_set (js "color") c fs))
  | JBool _ | JNumber _ => mret (JObject [(js "color", c)])
  | _ => throw OutOfModel
  end.

Fixpoint parse_variant_items (items : list JsVal) : M (list JsVal) :=
  match items with
  | [] => mret []
  | item :: rest =>
      here ← match item with
             | JString s =>
                 try_catch
                   (match JSON_parse s with
                    | None => throw (FormatError "JSON.parse")
                    | Some parsed =>
                        if isArray parsed then mapM normalize_color (items_of parsed)
                        else v ← normalize_color parsed; mret [v]
                    end)
                   (fun _ => throw (FormatError "Invalid variant format in array"))
             | _ =>
                 if typeof_object item && negb (nullish item) then
                   v ← normalize_color item; mret [v]
                 else mret []
             end;
      others ← parse_variant_items rest;
      mret (here ++ others)
  end.

Definition product_field (product : Populated) (fieldName : Create.FieldName) : JsVal :=
  match fieldName with
  | Create.F_variants => JArray (pop_variants product)
  | Create.F_tags => js_strings (p_tags (doc product))
  | Create.F_specifications => p_specifications (doc product)
  | Create.F_collections => js_strings (p_collections (doc product))
  | Create.F_variantImagesMeta => JUndefined
  end.

Definition is_variants (f : Create.FieldName) : bool :=
  match f with Create.F_variants => true | _ => false end.

Definition parseJsonField (product : Populated) (fld : JsVal) (fieldName : Create.FieldName)
  : M JsVal :=
  if nullish fld then mret (product_field product fieldName)
  else
    match fld with
    | JArray l =>
        if Create.is_labels fieldName then mret (JArray (map Create.normalize_item l))
        else if is_variants fieldName then vs ← parse_variant_items l; mret (JArray vs)
        else mret fld
    | JString s =>
        try_catch
          (match JSON_parse s with
           | None => throw (FormatError "JSON.parse")
           | Some parsed =>
               if Create.is_specifications fieldName then
                 mret (if typeof_object parsed && negb (isArray parsed) then parsed
                       else p_specifications (doc product))
               else if Create.is_labels fieldName then
                 mret (JArray (map Create.normalize_item (Create.as_array parsed)))
               else if is_variants fieldName then
                 vs ← mapM normalize_color (Create.as_array parsed); mret (JArray vs)
               else mret parsed
           end)
          (fun _ =>
             if Create.is_specifications fieldName then
               match map js_trim (split_on 58%N [] s) with
               | key :: value :: _ =>
                   mret (if truthy (JString key) && truthy (JString value)
                         then JObject [(key, JString value)]
                         else p_specifications (doc product))
               | _ => mret (p_specifications (doc product))
               end
             else if Create.is_labels fieldName then
               mret (JArray [JString (Slug.normalize s)])
             else throw (FormatError "Invalid format"))
    | _ =>
        if Create.is_specifications fieldName then
          mret (if typeof_object fld && negb (isArray fld) then fld
                else p_specifications (doc product))
        else mret fld
    end.

(** [x ? parseJsonField(x, name) : product[name]] *)
Definition parse_or_keep (product : Populated) (x : JsVal) (fieldName : Create.FieldName)
  : M JsVal :=
  if truthy x then parseJsonField product x fieldName
  else mret (product_field product fieldName).

(** *** The colours the variants name must exist (lines 554-573) *)

Definition color_of_variant (v : JsVal) : M JsVal :=
  color ← get_prop v "color";
  if typeof_object color && truthy (opt_field color "_id")
  then mret (JString (js_toString (field color "_id")))
  else mret color.

Definition named_colors (variants : list JsVal) : M (list JsVal) :=
  cs ← mapM color_of_variant variants;
  mret (filter (fun color => truthy color && isValidObjectId color) cs).

(** *** Merge of the incoming variants (lines 575-608) *)

Fixpoint findIndex (f : JsVal -> bool) (l : list JsVal) : option nat :=
  match l with
  | [] => None
  | x :: t => if f x then Some O else S <$> findIndex f t
  end.

(** [v._id.toString() === variant._id.toString()] *)
Definition same_id (_id : JsVal) (v : JsVal) : bool :=
  bool_decide (js_toString (field v "_id") = js_toString _id).

(** The object literal that replaces a matched variant. *)
Definition patch (existing variant : JsVal) : JsVal :=
  match existing with
  | JObject fs =>
      JObject
        (assoc_set (js "images") (field existing "images")
           (assoc_set (js "sizes") (coalesce (field variant "sizes") (field existing "sizes"))
              (assoc_set (js "price") (coalesce (field variant "price") (field existing "price"))
                 (assoc_set (js "color")
                    (coalesce (field variant "color") (field existing "color")) fs))))
  | _ => existing
  end.

(** The [variants.forEach] of the merge: [updated] is [updatedVariants],
    [fresh] is [newVariants]. *)
Fixpoint merge_loop (variants : list JsVal) (updated fresh : list JsVal)
  : M (list JsVal * list JsVal) :=
  match variants with
  | [] => mret (updated, fresh)
  | variant :: rest =>
      _id ← get_prop variant "_id";
      if truthy _id && isValidObjectId _id then
        match findIndex (same_id _id) updated with
        | Some existingVariantIndex =>
            merge_loop rest
              (alter (fun existing => patch existing variant) existingVariantIndex updated)
              fresh
        | None => merge_loop rest updated fresh
        end
      else if truthy (field variant "color") then
        oid ← new_ObjectId;
        merge_loop rest updated
          (fresh ++ [JObject [(js "_id", JObjectId oid);
                              (js "color", field variant "color");
                              (js "price", field variant "price");
                              (js "sizes", js_or (field variant "sizes") (JArray []));
                              (js "images", js_or (field variant "images") (JArray []))]])
      else merge_loop rest updated fresh
  end.

(** [updatedVariants] after the merge. *)
Definition merge_variants (product : Populated) (variants : JsVal) : M (list JsVal) :=
  let updatedVariants := pop_variants product in
  if truthy variants && isArray variants then
    '(updated, fresh) ← merge_loop (items_of variants) updatedVariants [];
    mret (updated ++ fresh)
  else mret updatedVariants.

(** *** Uploaded images (lines 610-653) *)

(** [cloudinary.uploader.destroy(public_id)]: an asset that is there is
    removed unless the service fails on it; a missing asset is no error. *)
Definition destroy (public_id : JsVal) : M unit := fun w =>
  let key := js_toString public_id in
  match cloud w !! key with
  | Some Locked => (Throw StoreError, w)
  | _ => (Ret tt, set_cloud (delete key (cloud w)) w)
  end.

Definition replace_images (req : Request) (product : Populated) (updatedVariants : list JsVal)
  : M (list JsVal) :=
  mapM (fun '(index, variant) =>
          let variantImageField := js "variants[" ++ js_of_nat index ++ js "][image]" in
          let uploaded := prop (req_files req) variantImageField in
          if truthy uploaded then
            _id ← get_prop variant "_id";
            let isExistingVariant :=
              truthy _id && existsb (same_id _id) (pop_variants product) in
            let images := field variant "images" in
            (if isExistingVariant && negb (nullish images) && length_positive images then
               forEach (fun img =>
                          public_id ← get_prop img "public_id";
                          if truthy public_id
                          then try_catch (destroy public_id) (fun _ => mret tt)
                          else mret tt)
                       (items_of images)
             else mret tt) ;;
            newImages ← Create.uploaded_images (req_body req) index (Create.as_array uploaded);
            set_prop variant (js "images") (JArray newImages)
          else mret variant)
       (imap (fun i v => (i, v)) updatedVariants).

(** *** The atomic unit (lines 668-790) *)

(** [product.variants.map((v) => v.color?._id?.toString()).filter(Boolean)] *)
Definition old_color_ids (product : Populated) : list JsVal :=
  set_values
    (filter (fun c => truthy c)
       (map (fun v => let id := opt_field (field v "color") "_id" in
                      if nullish id then JUndefined else JString (js_toString id))
            (pop_variants product))).

(** [updatedVariants.map((v) => v.color?.toString()).filter(Boolean)] *)
Definition new_color_ids (updatedVariants : list JsVal) : list JsVal :=
  set_values
    (filter (fun c => truthy c)
       (map (fun v => let color := field v "color" in
                      if nullish color then JUndefined else JString (js_toString color))
            updatedVariants)).

(** [a.filter((id) => !b.includes(id))] *)
Definition not_in (a b : list JsVal) : list JsVal :=
  filter (fun id => negb (existsb (same_value id) b)) a.

(** [parseFloat(x) || fallback] *)
Definition parsed_or (x : JsVal) (fallback : Q) : JsVal :=
  js_or (JNumber (parseFloat x)) (JNumber (Fin fallback)).

(** The object literal [updateData]. *)
Definition updateData (product : Populated) (body : JsVal) (tags specifications collections : JsVal)
           (updatedVariants : list JsVal) (slug : jsstring) : M ProductFields :=
  let p := doc product in
  category ← (if nullish (field body "category")
              then get_prop (pop_category product) "_id"
              else mret (field body "category"));
  brand ← (if nullish (field body "brand")
           then get_prop (pop_brand product) "_id"
           else mret (field body "brand"));
  mret {| f_name := coalesce (field body "name") (JString (p_name p));
          f_slug := JString slug;
          f_category := category;
          f_brand := brand;
          f_base_price := parsed_or (field body "base_price") (p_base_price p);
          f_description := coalesce (field body "description") (p_description p);
          f_variants := JArray updatedVariants;
          f_isActive :=
            JBool (if says_true (field body "isActive") then true else p_isActive p);
          f_tags := coalesce tags (js_strings (p_tags p));
          f_videoUrl := coalesce (field body "videoUrl") (p_videoUrl p);
          f_isFeatured :=
            JBool (if says_true (field body "isFeatured") then true else p_isFeatured p);
          f_isSoldOut :=
            JBool (if says_false (field body "isSoldOut") then false else p_isSoldOut p);
          f_isVisible :=
            JBool (if says_true (field body "isVisible") then true else p_isVisible p);
          f_specifications := coalesce specifications (p_specifications p);
          f_collections := coalesce collections (js_strings (p_collections p));
          f_discount := parsed_or (field body "discount") (p_discount p) |}.

(** [if (category && category !== product.category._id.toString())]: the
    old category loses the product, the new one gains it. *)
Definition adjust_category (product : Populated) (category : JsVal) : M unit :=
  if truthy category then
    current ← get_prop (pop_category product) "_id";
    if differs_from category (js_toString current) then
      Category_inc current (-1) ;;
      Category_inc category 1
    else mret tt
  else mret tt.

(** [Product.findByIdAndUpdate(req.params.id, { $set: updateData },
    { new: true, session })] *)
Definition persist (req : Request) (fields : ProductFields) : M (option Product) :=
  match castObjectId (req_id req) with
  | None => throw CastError
  | Some o =>
      match castProduct o fields with
      | None => throw CastError
      | Some p' =>
          write true (W_replaceProduct o p') ;;
          d ← read true;
          mret (products d !! o)
      end
  end.

(** The body of the [try] block. *)
Definition atomic_unit (req : Request) (product : Populated)
           (tags specifications collections : JsVal)
           (updatedVariants : list JsVal) (slug : jsstring) : M (Response Product) :=
  let body := req_body req in
  let oldColorIds := old_color_ids product in
  let newColorIds := new_color_ids updatedVariants in
  let colorsToIncrement := not_in newColorIds oldColorIds in
  let colorsToDecrement := not_in oldColorIds newColorIds in
  fields ← updateData product body tags specifications collections updatedVariants slug;
  adjust_category product (field body "category") ;;
  adjust_colors colorsToIncrement 1 ;;
  adjust_colors colorsToDecrement (-1) ;;
  updatedProduct ← persist req fields;
  commitTransaction ;;
  match updatedProduct with
  | None => throw TypeError
  | Some u =>
      mret {| statusCode := OK;
              message := PRODUCT_MESSAGES "PRODUCT_UPDATED";
              data := Some u |}
  end.

(** Everything from [mongoose.startSession()] on. *)
Definition transaction (req : Request) (product : Populated)
           (tags specifications collections : JsVal)
           (updatedVariants : list JsVal) (slug : jsstring) : M (Response Product) :=
  in_session
    (atomic_unit req product tags specifications collections updatedVariants slug)
    (fun error =>
       mret (respond SERVER_ERROR
               (WithCause (PRODUCT_MESSAGES "PRODUCT_UPDATE_FAILED") error))).

(** *** The handler *)

(** What the checks before the transaction leave for it. *)
Record Prepared := {
  pr_tags : JsVal;
  pr_specifications : JsVal;
  pr_collections : JsVal;
  pr_updatedVariants : list JsVal;
  pr_slug : jsstring }.

(** From the destructuring of [req.body] up to the slug check (lines
    411-666): [inl] is the response of an early [return]. *)
Definition checks (req : Request) (product : Populated) : M (Response Product + Prepared) :=
  let p := doc product in
  let body := req_body req in
  if nullish body then throw TypeError else
  let variants := field body "variants" in
  invalid ← (if truthy variants && isArray variants
             then validate_variants (items_of variants)
             else mret None);
  match invalid with
  | Some response => mret (inl response)
  | None =>
  parsed ←
    try_catch
      (variants ← parse_or_keep product variants Create.F_variants;
       tags ← parse_or_keep product (field body "tags") Create.F_tags;
       specifications ←
         parse_or_keep product (field body "specifications") Create.F_specifications;
       collections ← parse_or_keep product (field body "collections") Create.F_collections;
       mret (inr (variants, tags, specifications, collections)))
      (fun error => mret (inl error));
  match parsed with
  | inl error => mret (inl (respond BAD_REQUEST (WithCause (Text "") error)))
  | inr (variants, tags, specifications, collections) =>
  missing ← (if truthy variants && isArray variants then
               colorIds ← named_colors (items_of variants);
               validColors ← Color_find_in colorIds;
               mret (negb (Nat.eqb (length validColors) (length colorIds)))
             else mret false);
  if missing : bool then
    mret (inl (respond BAD_REQUEST (Text "One or more colors do not exist")))
  else
  updatedVariants ← merge_variants product variants;
  let uploads_present := truthy (req_files req) && has_keys (req_files req) in
  updatedVariants ← (if uploads_present
                     then replace_images req product updatedVariants
                     else mret updatedVariants);
  hasImages ← (if uploads_present then Create.some_has_images updatedVariants else mret true);
  if negb hasImages then
    mret (inl (respond BAD_REQUEST (Text "Uploaded images must be assigned to a variant")))
  else
  let name := field body "name" in
  slugOrConflict ←
    (if truthy name && differs_from name (p_name p) then
       slug ← match name with
              | JString s => mret (Slug.normalize s)
              | _ => throw TypeError
              end;
       existingProduct ← Product_findOne (fun q => bool_decide (p_slug q = slug));
       match existingProduct with
       | Some e =>
           if differs_from (req_id req) (ObjectId_toString (p_id e))
           then mret None else mret (Some slug)
       | None => mret (Some slug)
       end
     else mret (Some (p_slug p)));
  match slugOrConflict with
  | None => mret (inl (respond CONFLICT (PRODUCT_MESSAGES "PRODUCT_EXISTS")))
  | Some slug =>
      mret (inr {| pr_tags := tags; pr_specifications := specifications;
                   pr_collections := collections;
                   pr_updatedVariants := updatedVariants; pr_slug := slug |})
  end
  end
  end.

Definition updateProduct (req : Request) : M (Response Product) :=
  if negb (isValidObjectId (req_id req)) then
    mret (respond BAD_REQUEST (Text "Invalid product ID"))
  else
  found ← Product_findById false (req_id req);
  match found with
  | None => mret (respond NOT_FOUND (PRODUCT_MESSAGES "PRODUCT_NOT_FOUND"))
  | Some p =>
      d ← gets db;
      let product := populate d p in
      checked ← checks req product;
      match checked with
      | inl response => mret response
      | inr prepared =>
          transaction req product (pr_tags prepared) (pr_specifications prepared)
                      (pr_collections prepared) (pr_updatedVariants prepared)
                      (pr_slug prepared)
      end
  end.

End Update.
End Update.

(* ===================================================================== *)
(** ** Customer product queries (customerproduct.js) *)
(* ===================================================================== *)

Module Filter.

(** [{ $gte: a, $lte: b }], either bound optional. *)
Record Range := { r_gte : option JsNum; r_lte : option JsNum }.

(** The members the handlers put into [query], by their key. *)
Inductive Clause : Type :=
| Q_isVisible (b : bool)
| Q_isSoldOut (b : bool)
| Q_search (pattern : jsstring)            (* $or of three $regex *)
| Q_category (id : ObjectId)
| Q_base_price (r : Range)
| Q_tags (l : list JsVal)                  (* $in *)
| Q_variants_color (ids : list ObjectId)   (* $in *)
| Q_brand (ids : list ObjectId)            (* $in *)
| Q_collections (l : list JsVal)           (* $in *)
| Q_variants_sizes_size (l : list JsVal)   (* $in *)
| Q_variants_price (r : Range)             (* $exists: true, $ne: null and the bounds *)
| Q_variants_sizes_quantity (positive : bool). (* { $gt: 0 } or { $lte: 0 } *)

Definition Query := list Clause.

(** What the handler asks of the store and answers with. *)
Record Page := {
  pg_query : Query;
  pg_sort : jsstring * bool;   (* field, ascending *)
  pg_skip : Z;
  pg_limit : Z;
  pg_totalItems : nat }.

Section Filter.
Context `{Platform}.

(** *** What a query selects *)

Definition above (bound : option JsNum) (x : JsNum) : bool :=
  match bound with Some m => negb (num_lt x m) | None => true end.
Definition below (bound : option JsNum) (x : JsNum) : bool :=
  match bound with Some m => negb (num_lt m x) | None => true end.

Definition has_string (l : list JsVal) (s : jsstring) : bool :=
  existsb (fun v => match v with JString s' => bool_decide (s' = s) | _ => false end) l.

(** MongoDB's matching: a condition on a path that runs through arrays
    holds when some element reached by the path satisfies it. *)
Definition clause_matches (c : Clause) (p : Product) : bool :=
  match c with
  | Q_isVisible b => Bool.eqb (p_isVisible p) b
  | Q_isSoldOut b => Bool.eqb (p_isSoldOut p) b
  | Q_search pattern =>
      regex_match pattern (p_name p)
      || match p_description p with JString s => regex_match pattern s | _ => false end
      || existsb (regex_match pattern) (p_tags p)
  | Q_category id => bool_decide (p_category p = id)
  | Q_base_price r =>
      above (r_gte r) (Fin (p_base_price p)) && below (r_lte r) (Fin (p_base_price p))
  | Q_tags l => existsb (has_string l) (p_tags p)
  | Q_variants_color ids =>
      existsb (fun v => match v_color v with
                        | Some c => bool_decide (c ∈ ids)
                        | None => false
                        end) (p_variants p)
  | Q_brand ids => bool_decide (p_brand p ∈ ids)
  | Q_collections l => existsb (has_string l) (p_collections p)
  | Q_variants_sizes_size l =>
      existsb (fun v => existsb (fun s => has_string l (sz_size s)) (v_sizes v)) (p_variants p)
  | Q_variants_price r =>
      let prices := omap v_price (p_variants p) in
      negb (bool_decide (prices = []))
      && forallb (fun v => bool_decide (is_Some (v_price v))) (p_variants p)
      && existsb (fun q => above (r_gte r) (Fin q)) prices
      && existsb (fun q => below (r_lte r) (Fin q)) prices
  | Q_variants_sizes_quantity positive =>
      existsb (fun v => existsb (fun s => if positive then 0 <? sz_quantity s
                                          else sz_quantity s <=? 0) (v_sizes v))
              (p_variants p)
  end.

Definition matches (q : Query) (p : Product) : bool :=
  forallb (fun c => clause_matches c p) q.

(** [Product.countDocuments(query)] *)
Definition countDocuments (q : Query) : M nat :=
  d ← read false;
  mret (length (filter (fun p => matches q p) (snd <$> map_to_list (products d)))).

(** [Product.find(query)...skip(skip).limit(limit)]: the store refuses a
    negative skip. *)
Definition find_page (q : Query) (skip : Z) : M unit :=
  if skip <? 0 then throw StoreError else store_call.

(** *** Reading the parameters *)

(** A destructuring default. *)
Definition default_to (v d : JsVal) : JsVal :=
  match v with JUndefined => d | _ => v end.

(** [parseInt(v, 10) || d] *)
Definition int_or (v : JsVal) (d : Z) : Z :=
  match parseInt v with
  | Some z => if z =? 0 then d else z
  | None => d
  end.

(** [v?.trim()] *)
Definition opt_trim (v : JsVal) : M JsVal :=
  if nullish v then mret JUndefined
  else match v with
       | JString s => mret (JString (js_trim s))
       | _ => throw TypeError
       end.

(** [s.split(',').map((v) => v.trim()).filter((v) => v.length > 0)] *)
Definition split_list (s : jsstring) : list jsstring :=
  filter (fun v => nonempty v) (map js_trim (split_on 44%N [] s)).

(** The category filter, shared by the handlers: [inl] is the early
    response, [inr] the clauses to add. *)
Definition category_filter (category : JsVal) : M (Response Page + Query) :=
  trimmed ← opt_trim category;
  if truthy trimmed then
    match castObjectId category with
    | Some o => mret (inr [Q_category o])
    | None =>
        d ← read false;
        match category with
        | JString s =>
            match find (fun kc => bool_decide (cat_slug kc.2 = s) && cat_isActive kc.2)
                       (map_to_list (categories d)) with
            | Some kc => mret (inr [Q_category kc.1])
            | None => mret (inl (respond BAD_REQUEST (Text "Invalid category")))
            end
        | _ => mret (inl (respond BAD_REQUEST (Text "Invalid category")))
        end
    end
  else mret (inr []).

(** [ids.every(isValidObjectId)] then [$in] of the cast ids, or the
    rejection. *)
Definition id_filter (what : string) (mk : list ObjectId -> Clause) (ids : list JsVal)
  : M (Response Page + Query) :=
  if forallb isValidObjectId ids then
    os ← cast_ids ids; mret (inr [mk os])
  else mret (inl (respond BAD_REQUEST (Text what))).

(** The sort specification. *)
Definition sort_of (allowed : list string) (sortBy sortOrder : JsVal) : M (jsstring * bool) :=
  if existsb (is_str sortBy) allowed then
    match sortBy, sortOrder with
    | JString f, JString o =>
        mret (f, bool_decide (Slug.toLowerCase o = js "asc"))
    | _, _ => throw TypeError
    end
  else mret (js "createdAt", false).

(** *** getCustomerProducts *)

Definition getCustomerProducts (req : Request) : M (Response Page) :=
  let q := req_query req in
  if nullish q then throw TypeError else
  let page := default_to (field q "page") (JNumber (num_of_Z 1)) in
  let limit := default_to (field q "limit") (JNumber (num_of_Z 12)) in
  let sortBy := default_to (field q "sortBy") (JString (js "createdAt")) in
  let sortOrder := default_to (field q "sortOrder") (JString (js "desc")) in
  let pageNum := int_or page 1 in
  let limitNum := int_or limit 12 in
  let skip := (pageNum - 1) * limitNum in
  let query := [Q_isVisible true; Q_isSoldOut false] in
  trimmed ← opt_trim (field q "search");
  let query :=
    if truthy trimmed then query ++ [Q_search (escape_regex (js_toString (field q "search")))]
    else query in
  cat ← category_filter (field q "category");
  match cat with
  | inl response => mret response
  | inr clauses =>
  let query := query ++ clauses in
  let minPrice := field q "minPrice" in
  let maxPrice := field q "maxPrice" in
  let query :=
    if truthy minPrice || truthy maxPrice then
      query ++ [Q_base_price
                  {| r_gte := match parseFloat minPrice with
                              | NaN => None
                              | n => if truthy minPrice then Some n else None
                              end;
                     r_lte := match parseFloat maxPrice with
                              | NaN => None
                              | n => if truthy maxPrice then Some n else None
                              end |}]
    else query in
  tagsTrimmed ← opt_trim (field q "tags");
  let query :=
    if truthy tagsTrimmed then
      let tagArray :=
        filter (fun t => nonempty t)
               (map (fun t => Slug.toLowerCase (js_trim t))
                    (split_on 44%N [] (js_toString (field q "tags")))) in
      match tagArray with
      | [] => query
      | _ => query ++ [Q_tags (map JString tagArray)]
      end
    else query in
  colors ← (if truthy (field q "colors")
            then id_filter "Invalid color ID(s)" Q_variants_color (Create.as_array (field q "colors"))
            else mret (inr []));
  match colors with
  | inl response => mret response
  | inr clauses =>
  let query := query ++ clauses in
  brands ← (if truthy (field q "brands")
            then id_filter "Invalid brand ID(s)" Q_brand (Create.as_array (field q "brands"))
            else mret (inr []));
  match brands with
  | inl response => mret response
  | inr clauses =>
  let query := query ++ clauses in
  let collections := field q "collections" in
  collectionArray ←
    (if truthy collections then
       match collections with
       | JArray l => mret l
       | JString s => mret (map JString (split_list s))
       | _ => throw TypeError
       end
     else mret []);
  let query :=
    match collectionArray with
    | [] => query
    | _ => query ++ [Q_collections collectionArray]
    end in
  let size := field q "size" in
  let query :=
    if truthy size then
      match Create.as_array size with
      | [] => query
      | sizeArray => query ++ [Q_variants_sizes_size sizeArray]
      end
    else query in
  sort ← sort_of ["createdAt"; "base_price"; "rating"; "viewCount"]%string sortBy sortOrder;
  try_catch
    (totalProducts ← countDocuments query;
     find_page query skip ;;
     mret {| statusCode := OK;
             message := PRODUCT_MESSAGES "PRODUCTS_FETCHED";
             data := Some {| pg_query := query; pg_sort := sort; pg_skip := skip;
                             pg_limit := limitNum; pg_totalItems := totalProducts |} |})
    (fun error =>
       mret (respond SERVER_ERROR (WithCause (PRODUCT_MESSAGES "SEARCH_FAILED") error)))
  end
  end
  end.

(** *** filterCustomerProducts *)

Definition parseFilterArray (value : JsVal) : M (list jsstring) :=
  if negb (truthy value) then mret []
  else
    match value with
    | JArray l =>
        kept ← mapM (fun v =>
                       if truthy v then
                         match v with
                         | JString s => mret (if nonempty (js_trim s) then [js_trim s] else [])
                         | _ => throw TypeError
                         end
                       else mret []) l;
        mret (concat kept)
    | JString s => mret (split_list s)
    | _ => throw TypeError
    end.

(** The price block: the rejection, or the filter when there is one. *)
Definition price_filter (minPrice maxPrice : JsVal) : Response Page + option Range :=
  if truthy minPrice || truthy maxPrice then
    let min := match parseFloat minPrice with
               | NaN => None
               | n => if truthy minPrice then Some n else None
               end in
    let max := match parseFloat maxPrice with
               | NaN => None
               | n => if truthy maxPrice then Some n else None
               end in
    if match min with Some m => num_lt m (num_of_Z 0) | None => false end then
      inl (respond BAD_REQUEST (Text "Minimum price cannot be negative"))
    else if match max with Some m => num_lt m (num_of_Z 0) | None => false end then
      inl (respond BAD_REQUEST (Text "Maximum price cannot be negative"))
    else if match min, max with Some a, Some b => num_lt b a | _, _ => false end then
      inl (respond BAD_REQUEST (Text "Minimum price cannot be greater than maximum price"))
    else inr (Some {| r_gte := min; r_lte := max |})
  else inr None.

(** The availability block. *)
Definition availability_filter (available : JsVal) : Query :=
  match available with
  | JUndefined => []
  | _ => [Q_variants_sizes_quantity (says_true available)]
  end.

Definition filterCustomerProducts (req : Request) : M (Response Page) :=
  let q := req_query req in
  if nullish q then throw TypeError else
  let page := default_to (field q "page") (JNumber (num_of_Z 1)) in
  let limit := default_to (field q "limit") (JNumber (num_of_Z 12)) in
  let sortBy := default_to (field q "sortBy") (JString (js "createdAt")) in
  let sortOrder := default_to (field q "sortOrder") (JString (js "desc")) in
  let pageNum := int_or page 1 in
  let limitNum := int_or limit 12 in
  if (pageNum <? 1) || (limitNum <? 1) then
    mret (respond BAD_REQUEST (Text "Invalid page or limit value"))
  else
  let skip := (pageNum - 1) * limitNum in
  let query := [Q_isVisible true] in
  cat ← category_filter (field q "category");
  match cat with
  | inl response => mret response
  | inr categoryClauses =>
  let query := query ++ categoryClauses in
  let size := field q "size" in
  sizeArray ← (if truthy size then parseFilterArray size else mret []);
  let query :=
    match sizeArray with
    | [] => query
    | _ => query ++ [Q_variants_sizes_size (map JString sizeArray)]
    end in
  let colors := field q "colors" in
  colorClauses ←
    (if truthy colors then
       colorIds ← parseFilterArray colors;
       match colorIds with
       | [] => mret (inl (respond BAD_REQUEST (Text "Invalid color ID(s)")))
       | _ => id_filter "Invalid color ID(s)" Q_variants_color (map JString colorIds)
       end
     else mret (inr []));
  match colorClauses with
  | inl response => mret response
  | inr clauses =>
  let query := query ++ clauses in
  let brands := field q "brands" in
  brandClauses ←
    (if truthy brands then
       brandIds ← parseFilterArray brands;
       match brandIds with
       | [] => mret (inl (respond BAD_REQUEST (Text "Invalid brand ID(s)")))
       | _ => id_filter "Invalid brand ID(s)" Q_brand (map JString brandIds)
       end
     else mret (inr []));
  match brandClauses with
  | inl response => mret response
  | inr clauses =>
  let query := query ++ clauses in
  let collections := field q "collections" in
  collectionsArray ← (if truthy collections then parseFilterArray collections else mret []);
  let query :=
    match collectionsArray with
    | [] => query
    | _ => query ++ [Q_collections (map JString collectionsArray)]
    end in
  let tags := field q "tags" in
  tagsArray ← (if truthy tags then parseFilterArray tags else mret []);
  let query :=
    match tagsArray with
    | [] => query
    | _ => query ++ [Q_tags (map (fun t => JString (Slug.toLowerCase t)) tagsArray)]
    end in
  match price_filter (field q "minPrice") (field q "maxPrice") with
  | inl response => mret response
  | inr priceFilter =>
  let query :=
    match priceFilter with
    | Some r => query ++ [Q_variants_price r]
    | None => query
    end in
  let query := query ++ availability_filter (field q "available") in
  let soldOut := field q "soldOut" in
  let query :=
    match soldOut with
    | JUndefined => query
    | _ => query ++ [Q_isSoldOut (says_true soldOut)]
    end in
  sort ← sort_of ["createdAt"; "base_price"; "rating"; "viewCount"; "name"]%string
                 sortBy sortOrder;
  try_catch
    (totalProducts ← countDocuments query;
     store_call ;;                       (* the sample of five *)
     find_page query skip ;;
     (if negb (bool_decide (categoryClauses = []))
         || negb (bool_decide (collectionsArray = []))
         || negb (bool_decide (tagsArray = []))
      then store_call                    (* the related products *)
      else mret tt) ;;
     mret {| statusCode := OK;
             message := PRODUCT_MESSAGES "PRODUCTS_FETCHED";
             data := Some {| pg_query := query; pg_sort := sort; pg_skip := skip;
                             pg_limit := limitNum; pg_totalItems := totalProducts |} |})
    (fun error =>
       mret (respond SERVER_ERROR (WithCause (PRODUCT_MESSAGES "SEARCH_FAILED") error)))
  end
  end
  end
  end.

End Filter.
End Filter.

(* ===================================================================== *)
(** ** A reference platform, to run the handlers on concrete requests *)
(* ===================================================================== *)

Module Reference.

(** ObjectIds print as 24 lower-case hexadecimal digits. *)
Definition hex_digit (n : N) : N := (if n <? 10 then 48 + n else 87 + n)%N.

Fixpoint hex_units (k : nat) (n : N) (acc : jsstring) : jsstring :=
  match k with
  | O => acc
  | S k' => hex_units k' (n / 16)%N (hex_digit (n mod 16)%N :: acc)
  end.

Definition ObjectId_hex (o : ObjectId) : jsstring := hex_units 24 o [].

Definition hex_value (c : N) : option N :=
  (if (48 <=? c) && (c <=? 57) then Some (c - 48)
   else if (97 <=? c) && (c <=? 102) then Some (c - 87)
   else if (65 <=? c) && (c <=? 70) then Some (c - 55)
   else None)%N.

Fixpoint parse_hex (s : jsstring) (acc : N) : option N :=
  match s with
  | [] => Some acc
  | c :: t =>
      match hex_value c with
      | Some d => parse_hex t (16 * acc + d)%N
      | None => None
      end
  end.

(** A 24-digit hexadecimal string, or an object carrying an [_id]. *)
Definition ObjectId_of (v : JsVal) : option ObjectId :=
  match v with
  | JString s => if Nat.eqb (length s) 24 then parse_hex s 0%N else None
  | JObject fs =>
      match assoc (js "_id") fs with
      | JObjectId o => Some o
      | JString s => if Nat.eqb (length s) 24 then parse_hex s 0%N else None
      | _ => None
      end
  | _ => None
  end.

Definition is_space (c : N) : bool :=
  existsb (N.eqb c) [9; 10; 11; 12; 13; 32; 160; 5760; 8232; 8233; 8239; 8287; 12288; 65279]%N
  || ((8192 <=? c) && (c <=? 8202))%N.

Fixpoint drop_spaces (s : jsstring) : jsstring :=
  match s with
  | [] => []
  | c :: t => if is_space c then drop_spaces t else s
  end.

Definition trim (s : jsstring) : jsstring :=
  rev (drop_spaces (rev (drop_spaces s))).

(** Decimal digits at the head of a string: their value, how many there
    are, and what follows. *)
Fixpoint read_digits (s : jsstring) (acc : N) (count : nat) : N * nat * jsstring :=
  match s with
  | [] => (acc, count, [])
  | c :: t =>
      if ((48 <=? c) && (c <=? 57))%N then read_digits t (10 * acc + (c - 48))%N (S count)
      else (acc, count, s)
  end.

Definition read_sign (s : jsstring) : bool * jsstring :=
  match s with
  | 45%N :: t => (true, t)
  | 43%N :: t => (false, t)
  | _ => (false, s)
  end.

Definition parseInt_string (s : jsstring) : option Z :=
  let '(negative, rest) := read_sign (drop_spaces s) in
  let '(value, count, _) := read_digits rest 0%N O in
  match count with
  | O => None
  | _ => Some (if negative then - Z.of_N value else Z.of_N value)
  end.

Definition parseFloat_string (s : jsstring) : JsNum :=
  let '(negative, rest) := read_sign (drop_spaces s) in
  let '(whole, count, rest) := read_digits rest 0%N O in
  let '(frac, places, _) :=
    match rest with
    | 46%N :: t => read_digits t 0%N O
    | _ => (0%N, O, [])
    end in
  match count, places with
  | O, O => NaN
  | _, _ =>
      let scale := (10 ^ N.of_nat places)%N in
      let magnitude := Qmake (Z.of_N (whole * scale + frac)) (N.succ_pos (N.pred scale)) in
      Fin (if negative then Qopp magnitude else magnitude)
  end.

Definition Z_to_js (z : Z) : jsstring :=
  js (NilZero.string_of_int (Z.to_int z)).

Definition number_string (n : JsNum) : jsstring :=
  match n with
  | NaN => js "NaN"
  | PosInf => js "Infinity"
  | NegInf => js "-Infinity"
  | Fin q => Z_to_js (Qnum q / Zpos (Qden q))
  end.

Definition basename (s : jsstring) : jsstring :=
  List.last (filter (fun piece => nonempty piece) (split_on 47%N [] s)) [].

(** A reader for the JSON texts of the empty containers and the
    literals. *)
Definition parse_json (s : jsstring) : option JsVal :=
  let t := trim s in
  if bool_decide (t = js "[]") then Some (JArray [])
  else if bool_decide (t = js "{}") then Some (JObject [])
  else if bool_decide (t = js "null") then Some JNull
  else if bool_decide (t = js "true") then Some (JBool true)
  else if bool_decide (t = js "false") then Some (JBool false)
  else None.

Definition to_string (v : JsVal) : option jsstring :=
  match v with
  | JString s => Some s
  | JNumber n => Some (number_string n)
  | JBool true => Some (js "true")
  | JBool false => Some (js "false")
  | _ => None
  end.

Definition to_number (v : JsVal) : option Q :=
  match v with
  | JNumber (Fin q) => Some q
  | JString s => match parseFloat_string s with Fin q => Some q | _ => None end
  | _ => None
  end.

Definition to_strings (v : JsVal) : option (list jsstring) :=
  match v with
  | JArray l => mapM to_string l
  | _ => None
  end.

Definition to_size (v : JsVal) : option SizeEntry :=
  size ← to_string (field v "size");
  quantity ← to_number (field v "quantity");
  Some {| sz_size := size; sz_quantity := Qnum quantity / Zpos (Qden quantity) |}.

Definition to_image (v : JsVal) : option Image :=
  url ← to_string (field v "url");
  Some {| img_url := url;
          img_public_id := to_string (field v "public_id");
          img_alt := default [] (to_string (field v "alt"));
          img_isPrimary := truthy (field v "isPrimary") |}.

Definition to_variant (v : JsVal) : option Variant :=
  let id := match field v "_id" with
            | JObjectId o => Some o
            | other => ObjectId_of other
            end in
  color ← (if nullish (field v "color") then Some None
           else match field v "color" with
                | JObjectId o => Some (Some o)
                | other => Some <$> ObjectId_of other
                end);
  price ← (if nullish (field v "price") then Some None
           else Some <$> to_number (field v "price"));
  sizes ← mapM to_size (items_of (field v "sizes"));
  images ← mapM to_image (items_of (field v "images"));
  Some {| v_id := default 0%N id; v_color := color; v_price := price;
          v_sizes := sizes; v_images := images |}.

(** Literal search: the pattern without its escaping backslashes occurs in
    the string, ASCII case ignored. *)
Fixpoint unescape (s : jsstring) : jsstring :=
  match s with
  | 92%N :: c :: t => c :: unescape t
  | c :: t => c :: unescape t
  | [] => []
  end.

Fixpoint is_prefix (a b : jsstring) : bool :=
  match a, b with
  | [], _ => true
  | x :: a', y :: b' => N.eqb x y && is_prefix a' b'
  | _, [] => false
  end.

Fixpoint occurs (a b : jsstring) : bool :=
  is_prefix a b || match b with [] => false | _ :: t => occurs a t end.

Definition search (pattern s : jsstring) : bool :=
  occurs (Slug.ascii_toLowerCase (unescape pattern)) (Slug.ascii_toLowerCase s).

Definition platform : Platform := {|
  platform_case := Slug.ascii_case;
  JSON_parse := parse_json;
  parseFloat := fun v => match v with
                         | JNumber n => n
                         | JString s => parseFloat_string s
                         | _ => NaN
                         end;
  parseInt := fun v => match v with
                       | JNumber (Fin q) => Some (Qnum q / Zpos (Qden q))
                       | JString s => parseInt_string s
                       | _ => None
                       end;
  Number_toString := number_string;
  path_basename := basename;
  js_trim := trim;
  ObjectId_from := ObjectId_of;
  ObjectId_toString := ObjectId_hex;
  castString := to_string;
  castNumber := to_number;
  castStrings := to_strings;
  castVariant := to_variant;
  regex_match := search |}.

End Reference.


(* ===================================================================== *)
(** ** The brand handlers (controllers/admin/brand/brand.js) *)
(* ===================================================================== *)

Module Brands.
Section Brands.
Context `{Platform}.

(** A brand document with its [_id]. *)
Definition BrandDoc : Type := ObjectId * Brand.

(** *** The Brand model (models/brand/brand.js) *)

(** The validators of [name]: [required], which an empty string fails, and
    [maxlength: 100], counted in code units. *)
Definition valid_name (name : jsstring) : bool :=
  nonempty name && (length name <=? 100)%nat.

(** The pre-save hook (lines 46-54): a document without a slug gets the
    normalised name as its slug; a document that has a slug keeps it. *)
Definition pre_save (b : Brand) : Brand :=
  if negb (nonempty (brand_slug b)) && nonempty (brand_name b) then
    {| brand_name := brand_name b; brand_slug := Slug.normalize (brand_name b) |}
  else b.

(** What the schema makes of a value assigned to [name]: nothing of
    [null] and [undefined], and else the String cast with the [trim]
    setter; [inl] is a value the cast refuses. *)
Definition set_name (name : JsVal) : unit + option jsstring :=
  if nullish name then inr None
  else match castString name with
       | Some s => inr (Some (js_trim s))
       | None => inl tt
       end.

(** [Brand.findOne({ name })]: the filter value goes through the schema
    type of [name] as well, so the trimmed string is looked for; every
    stored brand has a name, so [null] and [undefined] select none. *)
Definition Brand_findOne_name (name : JsVal) : M (option BrandDoc) :=
  match set_name name with
  | inl _ => throw CastError
  | inr wanted =>
      d ← read false;
      mret (match wanted with
            | Some s => find (fun kb => bool_decide (brand_name kb.2 = s))
                             (map_to_list (brands d))
            | None => None
            end)
  end.

Definition set_brands (bs : gmap ObjectId Brand) (w : World) : World :=
  set_db {| products := products (db w); categories := categories (db w);
            colors := colors (db w); brands := bs |} w.

(** The unique indexes on [name] and on [slug]: another document with the
    same name or the same slug makes the store refuse the write. *)
Definition collides (o : ObjectId) (b : Brand) (bs : gmap ObjectId Brand) : bool :=
  existsb (fun kb => negb (bool_decide (kb.1 = o))
                     && (bool_decide (brand_name kb.2 = brand_name b)
                         || bool_decide (brand_slug kb.2 = brand_slug b)))
          (map_to_list bs).

(** The write of [save()]: the insert of a new document, which the store
    also refuses under an [_id] that is taken, or the update of the
    document that was loaded, which fails when it is gone. *)
Definition Brand_write (isNew : bool) (o : ObjectId) (b : Brand) : M unit :=
  store_call ;;
  bs ← gets (fun w => brands (db w));
  if collides o b bs
     || (if isNew then bool_decide (is_Some (bs !! o)) else bool_decide (bs !! o = None))
  then throw StoreError
  else modify (set_brands (<[o := b]> bs)).

(** A [save()] with nothing to write only asks whether the document is
    still there. *)
Definition Brand_exists (o : ObjectId) : M unit :=
  store_call ;;
  bs ← gets (fun w => brands (db w));
  if bool_decide (bs !! o = None) then throw StoreError else mret tt.

(** No path of the loaded document has been modified. *)
Definition unmodified (loaded : option Brand) (b : Brand) : bool :=
  match loaded with
  | Some b0 => bool_decide (brand_name b0 = brand_name b)
               && bool_decide (brand_slug b0 = brand_slug b)
  | None => false
  end.

(** [brand.save()] of a document whose name is [name]; [loaded] is the
    document as it was read, if it was: validation, then the pre-save
    hook, then the write of what has changed. *)
Definition save (loaded : option Brand) (o : ObjectId) (name : unit + option jsstring)
  : M BrandDoc :=
  match name with
  | inr (Some name) =>
      if valid_name name then
        let slug := match loaded with Some b0 => brand_slug b0 | None => [] end in
        let b := pre_save {| brand_name := name; brand_slug := slug |} in
        (if unmodified loaded b then Brand_exists o
         else Brand_write (negb (bool_decide (is_Some loaded))) o b) ;;
        mret (o, b)
      else throw ValidationError
  | _ => throw ValidationError
  end.

(** [Brand.deleteOne({ _id })] *)
Definition Brand_deleteOne (id : JsVal) : M unit :=
  match castObjectId id with
  | None => throw CastError
  | Some o => store_call ;; modify (fun w => set_brands (delete o (brands (db w))) w)
  end.

(** [Product.findOne({ brand })] *)
Definition Product_findOne_brand (id : JsVal) : M (option Product) :=
  match castObjectId id with
  | None => throw CastError
  | Some o => Product_findOne (fun p => bool_decide (p_brand p = o))
  end.

(** *** createBrand (lines 11-30) *)

Definition createBrand (req : Request) : M (Response BrandDoc) :=
  name ← get_prop (req_body req) "name";
  existingBrand ← Brand_findOne_name name;
  if bool_decide (is_Some existingBrand) then
    mret (respond CONFLICT (Text "Brand already exists"))
  else
  _id ← new_ObjectId;
  createdBrand ← save None _id (set_name name);
  mret {| statusCode := CREATED;
          message := Text "Brand created successfully";
          data := Some createdBrand |}.

(** *** getBrandById (lines 101-116) *)

Definition getBrandById (req : Request) : M (Response BrandDoc) :=
  brand ← Brand_findById (req_id req);
  match brand, castObjectId (req_id req) with
  | Some b, Some o =>
      mret {| statusCode := OK;
              message := Text "Brand fetched successfully";
              data := Some (o, b) |}
  | _, _ => mret (respond NOT_FOUND (Text "Brand not found"))
  end.

(** *** updateBrand (lines 122-151) *)

Definition updateBrand (req : Request) : M (Response BrandDoc) :=
  name ← get_prop (req_body req) "name";
  brand ← Brand_findById (req_id req);
  match brand, castObjectId (req_id req) with
  | Some b, Some o =>
      renamed ←
        (if truthy name then
           existingBrand ← Brand_findOne_name name;
           match existingBrand with
           | Some e =>
               if Update.differs_from (req_id req) (ObjectId_toString e.1)
               then mret (inl (respond CONFLICT (Text "Brand name already exists")))
               else mret (inr (set_name name))
           | None => mret (inr (set_name name))
           end
         else mret (inr (inr (Some (brand_name b)))));
      match renamed with
      | inl response => mret response
      | inr name =>
          updatedBrand ← save (Some b) o name;
          mret {| statusCode := OK;
                  message := Text "Brand updated successfully";
                  data := Some updatedBrand |}
      end
  | _, _ => mret (respond NOT_FOUND (Text "Brand not found"))
  end.

(** *** deleteBrand (lines 157-182) *)

Definition deleteBrand (req : Request) : M (Response BrandDoc) :=
  brand ← Brand_findById (req_id req);
  match brand with
  | None => mret (respond NOT_FOUND (Text "Brand not found"))
  | Some _ =>
      productWithBrand ← Product_findOne_brand (req_id req);
      if bool_decide (is_Some productWithBrand) then
        mret (respond BAD_REQUEST
                (Text "Please remove this brand from all products before deleting it."))
      else
        Brand_deleteOne (req_id req) ;;
        mret (respond OK (Text "Brand deleted successfully"))
  end.

End Brands.
End Brands.

(* ===================================================================== *)
(** ** The other customer handlers (customerproduct.js) *)
(* ===================================================================== *)

Module Customer.

(** What getNewArrivals asks of the store. *)
Record Arrivals := {
  na_query : Filter.Query;
  na_limit : Z;
  na_category : bool }.   (* whether the category is populated *)

(** A deal as it is listed: the product, of which the answer carries the
    selected fields without the variants, and the first image of its first
    variant. *)
Record Deal := {
  deal_product : Product;
  deal_images : option Image }.

Section Customer.
Context `{Platform}.
Import Filter.

(** [parseInt(v)], where the prefix of the string chooses the radix. *)
Variable parseInt_auto : JsVal -> option Z.

(** *** getCustomerProductById (lines 15-50) *)

(** [Product.findOne({ _id, isVisible: true, isSoldOut: false })] *)
Definition Product_findOne_shown (id : JsVal) : M (option Product) :=
  match castObjectId id with
  | None => throw CastError
  | Some o =>
      d ← read false;
      mret (match products d !! o with
            | Some p => if p_isVisible p && negb (p_isSoldOut p) then Some p else None
            | None => None
            end)
  end.

(** The view count the handler increments is not a field of the documents
    of the embedding; the update is a store call all the same. *)
Definition getCustomerProductById (req : Request) : M (Response Product) :=
  if negb (isValidObjectId (req_id req)) then
    mret (respond BAD_REQUEST (Text "Invalid product ID"))
  else
  product ← Product_findOne_shown (req_id req);
  match product with
  | None => mret (respond NOT_FOUND (PRODUCT_MESSAGES "PRODUCT_ID_NOT_FOUND"))
  | Some p =>
      store_call ;;
      mret {| statusCode := OK;
              message := PRODUCT_MESSAGES "PRODUCT_ID_FETCHED";
              data := Some p |}
  end.

(** *** getNewArrivals (lines 229-300) *)

(** [tag.trim().toLowerCase()] on an element of the query. *)
Definition clean_tag (tag : JsVal) : M jsstring :=
  match tag with
  | JString s => mret (Slug.toLowerCase (js_trim s))
  | _ => throw TypeError
  end.

(** [.replace(/[^a-z0-9]+/g, ' ')] *)
Fixpoint runs_to_spaces (in_run : bool) (s : jsstring) : jsstring :=
  match s with
  | [] => []
  | c :: t =>
      if Slug.is_alnum c then c :: runs_to_spaces false t
      else if in_run then runs_to_spaces true t
      else 32%N :: runs_to_spaces true t
  end.

Definition hyphenated (tag : jsstring) : jsstring :=
  Slug.strip_hyphens (Slug.replace_runs false tag).

Definition spaced (tag : jsstring) : jsstring :=
  js_trim (runs_to_spaces false tag).

(** The callback of [tagArray.reduce]. *)
Definition with_variations (acc : list jsstring) (tag : jsstring) : list jsstring :=
  filter (fun t => nonempty t) (acc ++ [tag; hyphenated tag; spaced tag]).

(** The tags that are looked for. *)
Definition tag_array (tags : JsVal) : M (list jsstring) :=
  if truthy tags then
    tagArray ← match tags with
               | JArray l => mapM clean_tag l
               | JString s =>
                   mret (filter (fun tag => nonempty tag)
                                (map (fun tag => Slug.toLowerCase (js_trim tag))
                                     (split_on 44%N [] s)))
               | _ => throw TypeError
               end;
    mret (foldl with_variations [] tagArray)
  else mret [js "new"].

Definition arrivals_query (tagArray : list jsstring) : Query :=
  [Q_isVisible true; Q_isSoldOut false; Q_tags (map JString tagArray)].

Definition getNewArrivals (req : Request) : M (Response Arrivals) :=
  let q := req_query req in
  if nullish q then throw TypeError else
  let limit := default_to (field q "limit") (JNumber (num_of_Z 8)) in
  let tags := default_to (field q "tags") (JString (js "new")) in
  let includeCategory := default_to (field q "includeCategory") (JString (js "true")) in
  let parsedLimit :=
    Z.min (match parseInt_auto limit with
           | Some z => if z =? 0 then 8 else z
           | None => 8
           end) 100 in
  if parsedLimit <? 1 then
    mret (respond BAD_REQUEST (Text "Invalid limit value"))
  else
  tagArray ← tag_array tags;
  match tagArray with
  | [] => mret (respond BAD_REQUEST (Text "No valid tags provided"))
  | _ =>
      try_catch
        (d ← read false;
         match filter (fun p => matches (arrivals_query tagArray) p)
                      (snd <$> map_to_list (products d)) with
         | [] => mret (respond NOT_FOUND (PRODUCT_MESSAGES "NO_PRODUCTS_FOUND"))
         | _ =>
             mret {| statusCode := OK;
                     message := PRODUCT_MESSAGES "PRODUCTS_FETCHED";
                     data := Some {| na_query := arrivals_query tagArray;
                                     na_limit := parsedLimit;
                                     na_category := is_str includeCategory "true" |} |}
         end)
        (fun error =>
           mret (respond SERVER_ERROR (WithCause (PRODUCT_MESSAGES "SEARCH_FAILED") error)))
  end.

(** *** searchCustomerProducts (lines 307-372) *)

Definition searchCustomerProducts (req : Request) : M (Response Page) :=
  let q := req_query req in
  if nullish q then throw TypeError else
  let search := field q "search" in
  let page := default_to (field q "page") (JNumber (num_of_Z 1)) in
  let limit := default_to (field q "limit") (JNumber (num_of_Z 12)) in
  trimmed ← opt_trim search;
  if negb (truthy trimmed) then
    mret (respond BAD_REQUEST (Text "Search term is required"))
  else
  let pageNum := int_or page 1 in
  let limitNum := int_or limit 12 in
  let skip := (pageNum - 1) * limitNum in
  let query := [Q_isVisible true; Q_isSoldOut false;
                Q_search (escape_regex (js_toString search))] in
  try_catch
    (totalProducts ← countDocuments query;
     find_page query skip ;;
     mret {| statusCode := OK;
             message := WithValue (PRODUCT_MESSAGES "PRODUCTS_FETCHED") search;
             data := Some {| pg_query := query; pg_sort := (js "createdAt", false);
                             pg_skip := skip; pg_limit := limitNum;
                             pg_totalItems := totalProducts |} |})
    (fun error =>
       mret (respond SERVER_ERROR (WithCause (PRODUCT_MESSAGES "SEARCH_FAILED") error))).

(** *** getDealsOfTheMonth (lines 649-691) *)

(** The filter of the deals: featured, in stock, visible, active, with a
    discount above zero. *)
Definition is_deal (p : Product) : bool :=
  p_isFeatured p && negb (p_isSoldOut p) && p_isVisible p && p_isActive p
  && negb (Qle_bool (p_discount p) 0).

(** [.sort({ discount: -1 })]: by falling discount.  MongoDB leaves the
    order among equal discounts open; here they stay in the order the
    store has them in. *)
Fixpoint insert_by_discount (p : Product) (l : list Product) : list Product :=
  match l with
  | [] => [p]
  | q :: t =>
      if Qle_bool (p_discount q) (p_discount p) then p :: l
      else q :: insert_by_discount p t
  end.

Definition sort_by_discount (l : list Product) : list Product :=
  foldr insert_by_discount [] l.

(** [product.variants[0]?.images?.[0] || null] *)
Definition first_image (p : Product) : option Image :=
  match p_variants p with
  | v :: _ => head (v_images v)
  | [] => None
  end.

Definition getDealsOfTheMonth : M (Response (list Deal)) :=
  try_catch
    (d ← read false;
     let products :=
       take 5 (sort_by_discount
                 (filter (fun p => is_deal p) (snd <$> map_to_list (products d)))) in
     match products with
     | [] => mret (respond NOT_FOUND (PRODUCT_MESSAGES "NO_PRODUCTS_FOUND"))
     | _ =>
         mret {| statusCode := OK;
                 message := WithValue (PRODUCT_MESSAGES "PRODUCTS_FETCHED")
                                      (JString (js " for Deals of the Month"));
                 data := Some (map (fun p => {| deal_product := p;
                                                deal_images := first_image p |})
                                   products) |}
     end)
    (fun error =>
       mret (respond SERVER_ERROR (WithCause (PRODUCT_MESSAGES "SEARCH_FAILED") error))).

End Customer.
End Customer.
(* ===================================================================== *)
(** ** Vocabulary of the specifications *)
(* ===================================================================== *)

(** A computation is [quiet] when it leaves the committed documents and the
    pending writes as they are. *)
Definition quiet {A} (m : M A) : Prop :=
  forall w res w', m w = (res, w') -> db w' = db w /\ txn w' = txn w.

(** Every value [m] returns satisfies [Q]. *)
Definition yields {A} (m : M A) (Q : A -> Prop) : Prop :=
  forall w a w', m w = (Ret a, w') -> Q a.

(** A computation that does not rebind the globals it reads. *)
Definition keeps_globals {A} (m : M A) : Prop :=
  forall w res w', m w = (res, w') -> global_Image w' = global_Image w.

(** A unit run with an empty transaction, over documents that satisfy
    [Pre], either fails with the committed documents untouched and the
    transaction still open, or returns with the transaction closed and the
    documents related by [P]. *)
Definition all_or_nothing {A} (Pre : DB -> Prop) (unit : M A) (P : A -> DB -> DB -> Prop)
  : Prop :=
  forall w res w',
    unit w = (res, w') -> txn w = Some [] -> Pre (db w) ->
    match res with
    | Ret a => txn w' = None /\ P a (db w) (db w')
    | Throw _ => db w' = db w /\ is_Some (txn w')
    end.

Section Vocabulary.
Context `{Platform}.


(** The write [adjust_colors ids d] records when it succeeds. *)
Definition color_ops (ids : list JsVal) (d : Z) : list WriteOp :=
  match ids with
  | [] => []
  | _ => match mapM castObjectId ids with
         | Some os => [W_incColors os d]
         | None => []
         end
  end.

(** The writes [Update.adjust_category] records when it succeeds; [None]
    when it throws before the store is asked anything. *)
Definition category_ops (product : Update.Populated) (category : JsVal)
  : option (list WriteOp) :=
  if truthy category then
    if nullish (Update.pop_category product) then None
    else
      let current := field (Update.pop_category product) "_id" in
      if Update.differs_from category (js_toString current) then
        a ← castObjectId current;
        b ← castObjectId category;
        Some [W_incCategory a (-1); W_incCategory b 1]
      else Some []
  else Some [].

(** A computation that answers [res] and changes nothing, in every world. *)
Definition pure_result {A} (m : M A) (res : Result A) : Prop :=
  forall w, m w = (res, w).

(** What a committed update unit has done, in terms of the request. *)
Definition update_committed (req : Request) (product : Update.Populated)
           (prepared : Update.Prepared) (o : ObjectId)
           (r : Response Product) (d d' : DB) : Prop :=
  let updatedVariants := Update.pr_updatedVariants prepared in
  exists fields p' moves,
    pure_result (Update.updateData product (req_body req) (Update.pr_tags prepared)
                   (Update.pr_specifications prepared) (Update.pr_collections prepared)
                   updatedVariants (Update.pr_slug prepared)) (Ret fields)
    /\ castProduct o fields = Some p'
    /\ statusCode r = OK
    /\ category_ops product (field (req_body req) "category") = Some moves
    /\ d' = apply_writes
              (moves
               ++ color_ops (Update.not_in (Update.new_color_ids updatedVariants)
                                           (Update.old_color_ids product)) 1
               ++ color_ops (Update.not_in (Update.old_color_ids product)
                                           (Update.new_color_ids updatedVariants)) (-1)
               ++ [W_replaceProduct o p']) d.

(** [after] is [before] unless the request says true, then it is true. *)
Definition turned_on_only (request : JsVal) (before after : bool) : Prop :=
  after = says_true request || before.

(** [after] is [before] unless the request says false, then it is false. *)
Definition turned_off_only (request : JsVal) (before after : bool) : Prop :=
  after = negb (says_false request) && before.

(** The [_id]s of a list of variants, as [findIndex] compares them. *)
Definition id_strings (l : list JsVal) : list jsstring :=
  map (fun e => js_toString (field e "_id")) l.

(** The clause on [variants.sizes.quantity]. *)
Definition is_quantity_clause (c : Filter.Clause) : bool :=
  match c with Filter.Q_variants_sizes_quantity _ => true | _ => false end.

(** A query with no clause on the quantities. *)
Definition no_quantity_clause (q : Filter.Query) : bool :=
  forallb (fun c => negb (is_quantity_clause c)) q.

(** Some size of some variant has a quantity in [P]. *)
Definition some_size (P : Z -> bool) (p : Product) : bool :=
  existsb (fun v => existsb (fun s => P (sz_quantity s)) (v_sizes v)) (p_variants p).

(** In the words of the specification: at least one variant size has
    positive quantity; no size of any variant has positive quantity. *)
Definition spec_available (p : Product) : bool := some_size (fun q => 0 <? q) p.

(** A bound that [parseFloat] reads as a number. *)
Definition bound_is (v : JsVal) (x : JsNum) : Prop :=
  truthy v = true /\ parseFloat v = x /\ x <> NaN.

(** The clauses a block of a query handler answers with, when it answers
    with clauses, and its early response, when it answers with one. *)
Definition clauses_are {R} (P : Filter.Query -> Prop) (x : R + Filter.Query) : Prop :=
  match x with inl _ => True | inr q => P q end.

Definition rejection (x : Response Filter.Page + Filter.Query) : Prop :=
  match x with inl r => exists m, r = respond BAD_REQUEST m | inr _ => True end.

(** What filterCustomerProducts answers: a request whose price bounds the
    price block refuses is answered with BAD_REQUEST, and the query of a
    page is the clauses of the other blocks around the availability block. *)
Definition filter_answer (req : Request) (r : Response Filter.Page) : Prop :=
  let q := req_query req in
  ((exists response,
       Filter.price_filter (field q "minPrice") (field q "maxPrice") = inl response) ->
   exists m, r = respond BAD_REQUEST m)
  /\ forall page, data r = Some page ->
       exists before after,
         Filter.pg_query page
         = before ++ Filter.availability_filter (field q "available") ++ after
         /\ no_quantity_clause before = true /\ no_quantity_clause after = true.

(** Two results that are the same error, or two lists that differ by one
    [x] in the first. *)
Definition differ_by (x : JsVal) (r r' : Result (list JsVal)) : Prop :=
  (exists a b, r = Ret (a ++ x :: b) /\ r' = Ret (a ++ b))
  \/ (exists e, r = Throw e /\ r' = Throw e).

(** Two bodies that differ in [variants] at most. *)
Definition same_but_variants (body body' : JsVal) : Prop :=
  forall k, k <> js "variants" -> prop body' k = prop body k.

(** An optional early response that is not a success. *)
Definition not_OK (o : option (Response Product)) : Prop :=
  forall r, o = Some r -> statusCode r <> OK.

(** The answers createProduct gives before it looks the slug up. *)
Definition rejected_before_slug (r : Response Product) : Prop :=
  r = respond UNPROCESSABLE_ENTITY (Text "At least one variant is required")
  \/ r = respond UNPROCESSABLE_ENTITY (PRODUCT_MESSAGES "VALIDATION_ERROR")
  \/ r = respond BAD_REQUEST (PRODUCT_MESSAGES "INVALID_CATEGORY_ID")
  \/ r = respond BAD_REQUEST (Text "Invalid brand ID")
  \/ r = respond BAD_REQUEST (Text "One or more colors are invalid").

End Vocabulary.

(* ===================================================================== *)
(** ** Sample data *)
(* ===================================================================== *)

Module Sample.
Import Reference.
Local Open Scope string_scope.

Definition category (name : string) (count : Z) : Category :=
  {| cat_name := js name; cat_slug := js name; cat_isActive := true;
     cat_productCount := count |}.

Definition color (name : string) (count : Z) : Color :=
  {| col_name := js name; col_hex := js "#000000"; col_productCount := count |}.

Definition image (url : string) : Image :=
  {| img_url := js url; img_public_id := Some (js "products/a");
     img_alt := js "front"; img_isPrimary := true |}.

Definition variant (id : N) (c : option N) (images : list Image) (sizes : list SizeEntry)
  : Variant :=
  {| v_id := id; v_color := c; v_price := Some (5 # 1)%Q; v_sizes := sizes;
     v_images := images |}.

(** A shirt in category 1 with three variants, two of them in colour 10. *)
Definition shirt : Product :=
  {| p_id := 100%N; p_name := js "Red Shirt"; p_slug := js "red-shirt";
     p_category := 1%N; p_brand := 20%N; p_base_price := (10 # 1)%Q;
     p_description := JString (js "A shirt");
     p_variants :=
       [variant 200 (Some 10%N) [image "https://cdn.example/upload/a.jpg"]
                [{| sz_size := js "M"; sz_quantity := 5 |};
                 {| sz_size := js "L"; sz_quantity := 0 |}];
        variant 201 (Some 10%N) [] [];
        variant 202 (Some 11%N) [] []];
     p_isActive := true; p_tags := []; p_videoUrl := JUndefined;
     p_isFeatured := false; p_isSoldOut := true; p_isVisible := true;
     p_specifications := JObject []; p_collections := []; p_discount := 0%Q |}.


Definition documents : DB :=
  {| products := {[ 100%N := shirt ]};
     categories := {[ 1%N := category "shirts" 3; 2%N := category "pants" 7 ]};
     colors := {[ 10%N := color "red" 4; 11%N := color "blue" 1; 12%N := color "green" 0 ]};
     brands := {[ 20%N := {| brand_name := js "acme"; brand_slug := js "acme" |} ]} |}.

Definition no_faults : nat -> bool := fun _ => false.

(** A world over [documents]: whether [Image] is bound, the files of the
    upload directory, and the store calls that fail. *)
Definition world (image : bool) (files : gmap jsstring FileState) (failing : nat -> bool)
  : World :=
  {| db := documents; txn := None; uploads := files; cloud := ∅;
     global_Image := image; next_oid := 1000%N; clock := O; faults := failing |}.

Definition id_string (n : N) : JsVal := JString (ObjectId_hex n).

Definition object (fields : list (string * JsVal)) : JsVal :=
  JObject (map (fun kv => (js kv.1, kv.2)) fields).

Definition request (id : JsVal) (body : JsVal) : Request :=
  {| req_id := id; req_body := body; req_files := JUndefined; req_query := JUndefined |}.

(** A body for createProduct: every required field is there and refers to
    documents that exist. *)
Definition new_product (name : string) (variants : JsVal) : JsVal :=
  object [("name", JString (js name)); ("category", id_string 2); ("brand", id_string 20);
          ("base_price", JString (js "19.90")); ("variants", variants)].

(** An update body that sends every variant of the shirt again, each with
    its own colour, so that the colour check passes. *)
Definition resent (id c : N) : JsVal :=
  object [("_id", id_string id); ("color", id_string c)].

Definition shirt_update_with (variants : list JsVal) (fields : list (string * JsVal))
  : Request :=
  request (id_string 100) (object (fields ++ [("variants", JArray variants)])).

Definition shirt_update : list (string * JsVal) -> Request :=
  shirt_update_with [resent 200 10; resent 201 12; resent 202 11].

(** An incoming variant whose [_id] is well formed and belongs to no
    variant of the shirt. *)
Definition stranger : JsVal :=
  object [("_id", id_string 999); ("price", JNumber (Fin (7 # 1)%Q))].

(** What a run answered, or a server error when it threw. *)
Definition answer {A} (res : Result (Response A)) : Response A :=
  match res with
  | Ret r => r
  | Throw _ => respond SERVER_ERROR (Text "uncaught")
  end.

Definition query (params : list (string * JsVal)) : Request :=
  {| req_id := JUndefined; req_body := JUndefined; req_files := JUndefined;
     req_query := object params |}.

End Sample.

(* ===================================================================== *)
(** ** More vocabulary *)
(* ===================================================================== *)

(** A computation that leaves the component [f] of the world as it is. *)
Definition keeps {A X} (f : World -> X) (m : M A) : Prop :=
  forall w res w', m w = (res, w') -> f w' = f w.

(** The upload directory without the files [names]. *)
Definition unlinked (names : list jsstring) (u : gmap jsstring FileState)
  : gmap jsstring FileState :=
  foldl (fun u f => delete f u) u names.

Section MoreVocabulary.
Context `{Platform}.

(** The base names of the image files of a product, as deleteProduct looks
    for them in the upload directory. *)
Definition image_files (product : Product) : list jsstring :=
  map (fun img => path_basename (img_url img)) (concat (map v_images (p_variants product))).

End MoreVocabulary.

Section CreateVocabulary.
Context `{Platform}.

(** [variants.map((v) => v.color).filter(Boolean)] where no variant is
    [null] or [undefined]. *)
Definition colours_named (variants : list JsVal) : list JsVal :=
  filter (fun c => truthy c) (map (fun v => field v "color") variants).

(** What a committed createProduct has done to the documents. *)
Definition create_committed (p : Product) (c : ObjectId) (variants : list JsVal) (d d' : DB)
  : Prop :=
  d' = apply_writes ([W_insertProduct p; W_incCategory c 1]
                     ++ color_ops (set_values (colours_named variants)) 1) d.

End CreateVocabulary.

(** A computation that never throws [e]. *)
Definition avoids {A} (e : Error) (m : M A) : Prop :=
  forall w w', m w <> (Throw e, w').

(** What a run returned, or [fallback] when it threw. *)
Definition result_or {A} (fallback : A) (res : Result A) : A :=
  match res with
  | Ret a => a
  | Throw _ => fallback
  end.

(** Started on documents [d], [m] leaves them as they are, and every value
    it returns satisfies [Q]. *)
Definition sees {A} (d : DB) (m : M A) (Q : A -> Prop) : Prop :=
  forall w res w', db w = d -> m w = (res, w') ->
    db w' = d /\ forall a, res = Ret a -> Q a.

Section PageVocabulary.
Context `{Platform}.

(** The products of [d] a query selects. *)
Definition selected (q : Filter.Query) (d : DB) : list Product :=
  filter (fun p => Filter.matches q p) (snd <$> map_to_list (products d)).

End PageVocabulary.

(** The letters and digits of a string, in order. *)
Definition alnums (s : jsstring) : jsstring := List.filter Slug.is_alnum s.

(** What a pattern without operators denotes: a backslash makes the next
    metacharacter a literal, every other code unit stands for itself, and
    a bare metacharacter or a backslash before anything else is an
    operator. *)
Fixpoint literal_of (pattern : jsstring) : option jsstring :=
  match pattern with
  | [] => Some []
  | c :: t =>
      if N.eqb c 92 then
        match t with
        | c' :: t' => if is_meta c' then cons c' <$> literal_of t' else None
        | [] => None
        end
      else if is_meta c then None
      else cons c <$> literal_of t
  end.

(** No two products share a slug. *)
Definition unique_slugs (m : gmap ObjectId Product) : Prop :=
  forall o1 o2 p1 p2,
    m !! o1 = Some p1 -> m !! o2 = Some p2 -> p_slug p1 = p_slug p2 -> o1 = o2.

(** The category and the brand of every product exist. *)
Definition references_resolve (d : DB) : Prop :=
  forall o p, products d !! o = Some p ->
    is_Some (categories d !! p_category p) /\ is_Some (brands d !! p_brand p).

Section SlugVocabulary.
Context `{Platform}.

(** What the slug check of updateProduct lets through, on documents [d]:
    the slug of the product when the request does not rename it, and else
    the normalised new name, which is the slug of no product or of the
    product the request names. *)
Definition slug_checked (req : Request) (p : Product) (d : DB) (slug : jsstring) : Prop :=
  let name := field (req_body req) "name" in
  if truthy name && Update.differs_from name (p_name p) then
    exists s, name = JString s /\ slug = Slug.normalize s
      /\ match find (fun q => bool_decide (p_slug q = slug))
                    (snd <$> map_to_list (products d)) with
         | Some e => req_id req = JString (ObjectId_toString (p_id e))
         | None => True
         end
  else slug = p_slug p.

(** Every product is stored under its own [_id], which reads back from its
    string. *)
Definition keyed_by_id (m : gmap ObjectId Product) : Prop :=
  forall k q, m !! k = Some q -> p_id q = k /\ reads_back k = true.

End SlugVocabulary.

(** A shop with a second brand, which no product refers to. *)
Module BrandSample.

Definition spare : Brand :=
  {| brand_name := js "Zeta Works"; brand_slug := js "zeta-works" |}.

Definition world : World :=
  let w := Sample.world false ∅ Sample.no_faults in
  Brands.set_brands (<[21%N := spare]> (brands (db w))) w.

Definition named (name : string) : JsVal :=
  Sample.object [("name"%string, JString (js name))].

End BrandSample.

(** A list of products by falling discount. *)
Fixpoint falling (l : list Product) : Prop :=
  match l with
  | [] => True
  | p :: t => Forall (fun q => (p_discount q <= p_discount p)%Q) t /\ falling t
  end.

(** A shop with more on offer: hidden 112 and plain 117 are not deals. *)
Module Shop.

Definition item (id : N) (name : string) (tags : list string) (featured visible : bool)
           (discount : Q) : Product :=
  {| p_id := id; p_name := js name; p_slug := js name;
     p_category := 1%N; p_brand := 20%N; p_base_price := (10 # 1)%Q;
     p_description := JString (js name);
     p_variants := [Sample.variant (id + 1000) (Some 10%N)
                      [Sample.image "https://cdn.example/upload/a.jpg"] []];
     p_isActive := true; p_tags := map js tags; p_videoUrl := JUndefined;
     p_isFeatured := featured; p_isSoldOut := false; p_isVisible := visible;
     p_specifications := JObject []; p_collections := []; p_discount := discount |}.

Definition stock : list Product :=
  [item 110 "dress" ["new-arrival"%string] true true (30 # 1);
   item 111 "coat" ["new"%string] true true (50 # 1);
   item 112 "hat" [] true false (70 # 1);
   item 113 "belt" [] true true (10 # 1);
   item 114 "sock" [] true true (20 # 1);
   item 115 "vest" [] true true (40 # 1);
   item 116 "cape" [] true true (60 # 1);
   item 117 "tie" [] false true (80 # 1)].

Definition world : World :=
  let w := Sample.world false ∅ Sample.no_faults in
  set_db {| products := list_to_map (map (fun p => (p_id p, p)) (Sample.shirt :: stock));
            categories := categories (db w); colors := colors (db w);
            brands := brands (db w) |} w.

End Shop.

Section ListingVocabulary.
Context `{Platform}.

(** The clauses the category block adds for a category given as the
    string [s]: the category of that id, or else an active category whose
    slug is [s]. *)
Definition category_chosen (s : jsstring) (d : DB) (clauses : Filter.Query) : Prop :=
  exists k, clauses = [Filter.Q_category k]
    /\ match castObjectId (JString s) with
       | Some o => k = o
       | None => exists c, categories d !! k = Some c
                   /\ cat_slug c = s /\ cat_isActive c = true
       end.

End ListingVocabulary.

(** A sort by one of the fields [allowed], or by newest first. *)
Definition sort_allowed (allowed : list string) (sort : jsstring * bool) : Prop :=
  sort = (js "createdAt", false) \/ exists f, In f allowed /\ sort.1 = js f.
(* ===================================================================== *)
(** * Properties *)
(* ===================================================================== *)

(** ** Slug normalisation *)

Section SlugFacts.
Import Slug.

Lemma hyphen_not_alnum c : is_hyphen c = true -> is_alnum c = false.
Proof.
  unfold is_hyphen, hyphen, is_alnum. intros Hc%N.eqb_eq. subst c. reflexivity.
Qed.

Lemma tidy_weaken b s : tidy b s = true -> tidy false s = true.
Proof.
  destruct s as [|c t]; simpl; [done|].
  destruct (is_alnum c); [done|].
  intros H. apply andb_true_iff in H as [H Ht].
  apply andb_true_iff in H as [Hc _]. by rewrite Hc, Ht.
Qed.

Lemma tidy_slug_chars b s : tidy b s = true -> forallb slug_char s = true.
Proof.
  revert b. induction s as [|c t IH]; intros b; simpl; [done|].
  unfold slug_char at 1. destruct (is_alnum c) eqn:Ha; simpl.
  - apply IH.
  - intros H. apply andb_true_iff in H as [H Ht].
    apply andb_true_iff in H as [Hc _]. rewrite Hc. simpl. eapply IH, Ht.
Qed.

Lemma replace_runs_tidy b s : tidy b (replace_runs b s) = true.
Proof.
  revert b. induction s as [|c t IH]; intros b; simpl; [done|].
  destruct (is_alnum c) eqn:Ha.
  - simpl. rewrite Ha. apply IH.
  - destruct b; [apply IH|]. simpl. rewrite (IH true). reflexivity.
Qed.

Lemma replace_runs_fixes b s : tidy b s = true -> replace_runs b s = s.
Proof.
  revert b. induction s as [|c t IH]; intros b; simpl; [done|].
  destruct (is_alnum c) eqn:Ha.
  - intros Ht. by rewrite (IH false Ht).
  - intros H. apply andb_true_iff in H as [H Ht].
    apply andb_true_iff in H as [Hc Hb].
    apply negb_true_iff in Hb. subst b.
    apply N.eqb_eq in Hc. subst c. by rewrite (IH true Ht).
Qed.

Lemma drop_hyphens_tidy b s : tidy b s = true -> tidy false (drop_hyphens s) = true.
Proof.
  revert b. induction s as [|c t IH]; intros b; simpl; [done|].
  destruct (is_hyphen c) eqn:Hc.
  - rewrite (hyphen_not_alnum _ Hc). simpl. intros H.
    apply andb_true_iff in H as [_ Ht]. eapply IH, Ht.
  - simpl. destruct (is_alnum c); [done|]. by rewrite Hc.
Qed.

Lemma drop_hyphens_clean_start s : clean_start (drop_hyphens s) = true.
Proof.
  induction s as [|c t IH]; simpl; [done|].
  destruct (is_hyphen c) eqn:Hc; [done|]. simpl. by rewrite Hc.
Qed.

Lemma drop_hyphens_fixes s : clean_start s = true -> drop_hyphens s = s.
Proof.
  destruct s as [|c t]; simpl; [done|]. intros H%negb_true_iff. by rewrite H.
Qed.

Lemma drop_trailing_tidy b s :
  tidy b s = true -> tidy b (drop_trailing_hyphens s) = true.
Proof.
  revert b. induction s as [|c t IH]; intros b; [done|].
  cbn [drop_trailing_hyphens tidy].
  destruct (drop_trailing_hyphens t) as [|c' t'] eqn:Ht.
  - destruct (is_hyphen c) eqn:Hc; [done|].
    destruct (is_alnum c) eqn:Ha; simpl; rewrite Ha; [done|].
    rewrite Hc. done.
  - cbn [tidy]. destruct (is_alnum c) eqn:Ha.
    + apply (IH false).
    + intros H. apply andb_true_iff in H as [H Htt]. rewrite H. simpl.
      apply (IH true Htt).
Qed.

Lemma drop_trailing_clean_start s :
  clean_start s = true -> clean_start (drop_trailing_hyphens s) = true.
Proof.
  destruct s as [|c t]; simpl; [done|].
  intros Hc. destruct (drop_trailing_hyphens t); [|done].
  apply negb_true_iff in Hc. rewrite Hc. simpl. by rewrite Hc.
Qed.

Lemma drop_trailing_clean_end s : clean_end (drop_trailing_hyphens s) = true.
Proof.
  induction s as [|c t IH]; [done|].
  cbn [drop_trailing_hyphens].
  destruct (drop_trailing_hyphens t) as [|c' t'] eqn:Ht.
  - destruct (is_hyphen c) eqn:Hc; [done|]. unfold clean_end. simpl. by rewrite Hc.
  - unfold clean_end in *. by rewrite last_cons_cons.
Qed.

Lemma drop_trailing_cons c t :
  drop_trailing_hyphens (c :: t) =
  match drop_trailing_hyphens t with
  | [] => if is_hyphen c then [] else [c]
  | t' => c :: t'
  end.
Proof. reflexivity. Qed.

Lemma drop_trailing_fixes s : clean_end s = true -> drop_trailing_hyphens s = s.
Proof.
  induction s as [|c t IH]; [done|].
  destruct t as [|c' t'].
  - unfold clean_end. simpl. intros H%negb_true_iff. by rewrite H.
  - unfold clean_end in *. rewrite last_cons_cons. intros H.
    rewrite drop_trailing_cons, (IH H). reflexivity.
Qed.

(** The three properties every normalised string has. *)
Lemma normalize_tidy `{CaseConversion} s :
  tidy false (normalize s) = true
  /\ clean_start (normalize s) = true
  /\ clean_end (normalize s) = true.
Proof.
  unfold normalize, strip_hyphens. split; [|split].
  - apply drop_trailing_tidy. eapply drop_hyphens_tidy, replace_runs_tidy.
  - apply drop_trailing_clean_start, drop_hyphens_clean_start.
  - apply drop_trailing_clean_end.
Qed.

Lemma alnum_word w :
  w <> [] -> forallb is_alnum w = true -> Matches (Plus (Chars is_alnum)) w.
Proof.
  destruct w as [|c t]; [done|]. intros _. simpl.
  intros H. apply andb_true_iff in H as [Hc Ht].
  change (c :: t) with ([c] ++ t). apply M_seq; [by constructor|].
  clear c Hc. induction t as [|c t IH]; [constructor|].
  simpl in Ht. apply andb_true_iff in Ht as [Hc Ht].
  change (c :: t) with ([c] ++ t). apply M_star_app; [by constructor|by apply IH].
Qed.

Lemma star_group_head p r0 s :
  Matches (Star (Seq (Chars p) r0)) s ->
  match s with c :: _ => p c = true | [] => True end.
Proof.
  intros HM. remember (Star (Seq (Chars p) r0)) as R eqn:HR.
  induction HM as [| | |r s1 s2 H1 _ H2 _]; inversion HR; subst; [done|].
  inversion H1 as [|? ? s3 s4 H3 H4| |]; subst.
  inversion H3; subst. done.
Qed.

(** A tidy string that does not end in a hyphen is a run of alphanumerics
    followed by groups of one hyphen and a word. *)
Lemma tidy_groups s :
  tidy false s = true -> clean_end s = true ->
  exists w r, s = w ++ r /\ forallb is_alnum w = true
              /\ Matches (Star (Seq (Chars is_hyphen) (Plus (Chars is_alnum)))) r
              /\ clean_start w = true.
Proof.
  induction s as [|c t IH]; intros Ht He.
  - exists [], []. split; [done|]. split; [done|]. split; [constructor|done].
  - assert (Het : clean_end t = true).
    { destruct t as [|c' t']; [done|]. unfold clean_end in *.
      by rewrite last_cons_cons in He. }
    simpl in Ht. destruct (is_alnum c) eqn:Ha.
    + destruct (IH Ht Het) as (w & r & -> & Hw & Hr & _).
      exists (c :: w), r. split; [done|]. split; [by simpl; rewrite Ha, Hw|].
      split; [done|]. simpl.
      destruct (is_hyphen c) eqn:Hc; [|done].
      by rewrite (hyphen_not_alnum _ Hc) in Ha.
    + apply andb_true_iff in Ht as [Hc Ht]. rewrite andb_true_r in Hc.
      destruct (IH (tidy_weaken _ _ Ht) Het) as (w & r & -> & Hw & Hr & Hs).
      exists [], (c :: w ++ r). split; [done|]. split; [done|]. split; [|done].
      change (c :: w ++ r) with (([c] ++ w) ++ r).
      apply M_star_app; [|done]. apply M_seq; [by constructor|].
      apply alnum_word; [|done].
      intros ->. simpl in *.
      destruct r as [|c' r']; [by unfold clean_end in He; simpl in He; rewrite Hc in He|].
      simpl in Ht. pose proof (star_group_head _ _ _ Hr) as Hh. simpl in Hh.
      by rewrite (hyphen_not_alnum _ Hh), Hh in Ht.
Qed.

Lemma tidy_matches s :
  tidy false s = true -> clean_start s = true -> clean_end s = true ->
  s = [] \/ Matches slug_re s.
Proof.
  intros Ht Hs He. destruct s as [|c t]; [by left|]. right.
  destruct (tidy_groups _ Ht He) as (w & r & Heq & Hw & Hr & _).
  rewrite Heq. apply M_seq; [|done]. apply alnum_word; [|done].
  intros ->. simpl in Heq. subst r.
  pose proof (star_group_head _ _ _ Hr) as Hh. simpl in Hh, Hs.
  by rewrite Hh in Hs.
Qed.

Lemma ascii_lower_fixes_slugs u :
  forallb slug_char u = true -> ascii_toLowerCase u = u.
Proof.
  unfold ascii_toLowerCase.
  induction u as [|c t IH]; simpl; [done|].
  intros H. apply andb_true_iff in H as [Hc Ht]. rewrite (IH Ht).
  replace (lower_unit c) with [c]; [done|].
  unfold slug_char, is_alnum, is_hyphen, hyphen in Hc. unfold lower_unit.
  repeat match goal with
         | |- context [(?a <=? ?b)%N] => destruct (N.leb_spec a b)
         | |- context [(?a =? ?b)%N] => destruct (N.eqb_spec a b)
         end; simpl; try done; exfalso;
  repeat match goal with
         | H : context [(?a <=? ?b)%N] |- _ => destruct (N.leb_spec a b)
         | H : context [(?a =? ?b)%N] |- _ => destruct (N.eqb_spec a b)
         end; simpl in *; try done; lia.
Qed.

(** C8. For every input string the normalised slug is empty or matches
    [^[a-z0-9]+(-[a-z0-9]+)*$], and normalising it again returns it
    unchanged; the only fact used of the runtime is that lower-casing
    leaves lower-case letters, digits and hyphens alone. *)
Theorem normalize_shape_and_idempotent `{CaseConversion} :
  (forall u, forallb slug_char u = true -> toLowerCase u = u) ->
  forall text,
    (normalize text = [] \/ Matches slug_re (normalize text))
    /\ normalize (normalize text) = normalize text.
Proof.
  intros Hlower text.
  destruct (normalize_tidy text) as (Ht & Hs & He). split.
  - by apply tidy_matches.
  - unfold normalize at 1.
    rewrite (Hlower _ (tidy_slug_chars _ _ Ht)).
    rewrite (replace_runs_fixes _ _ Ht).
    unfold strip_hyphens.
    by rewrite (drop_hyphens_fixes _ Hs), (drop_trailing_fixes _ He).
Qed.

(** On a name with blanks, capitals, an underscore and punctuation, under
    the ASCII lower-casing. *)
Lemma normalize_shape_and_idempotent_witness :
  let text := js "  Creme Brulee -- SIZE_42!  " in
  (@normalize ascii_case text = [] \/ Matches slug_re (@normalize ascii_case text))
  /\ @normalize ascii_case (@normalize ascii_case text) = @normalize ascii_case text.
Proof.
  intros text.
  exact (@normalize_shape_and_idempotent ascii_case ascii_lower_fixes_slugs text).
Defined.

End SlugFacts.
(** ** Running computations *)

Section MonadFacts.

Lemma bind_eq {A B} (m : M A) (f : A -> M B) w :
  (m ≫= f) w = match m w with (Ret a, w1) => f a w1 | (Throw e, w1) => (Throw e, w1) end.
Proof. reflexivity. Qed.

Lemma quiet_ret {A} (a : A) : quiet (mret a).
Proof. intros w res w' [= <- <-]. done. Qed.

Lemma quiet_throw {A} e : quiet (@throw A e).
Proof. intros w res w' [= <- <-]. done. Qed.

Lemma quiet_bind {A B} (m : M A) (f : A -> M B) :
  quiet m -> (forall a, quiet (f a)) -> quiet (m ≫= f).
Proof.
  intros Hm Hf w res w'. rewrite bind_eq.
  destruct (m w) as [[a|e] w1] eqn:E; destruct (Hm _ _ _ E) as [Hd Ht].
  - intros E2. destruct (Hf _ _ _ _ E2) as [Hd2 Ht2]. split; congruence.
  - intros [= <- <-]. done.
Qed.

Lemma quiet_gets {A} (f : World -> A) : quiet (gets f).
Proof. intros w res w' [= <- <-]. done. Qed.

Lemma quiet_store_call : quiet store_call.
Proof.
  intros w res w'. unfold store_call. destruct (faults w (clock w)); intros [= <- <-]; done.
Qed.

Lemma quiet_read s : quiet (read s).
Proof. apply quiet_bind; [apply quiet_store_call|intros; apply quiet_gets]. Qed.

Lemma quiet_try_catch {A} (m : M A) h :
  quiet m -> (forall e, quiet (h e)) -> quiet (try_catch m h).
Proof.
  intros Hm Hh w res w'. unfold try_catch.
  destruct (m w) as [[a|e] w1] eqn:E; destruct (Hm _ _ _ E) as [Hd Ht].
  - intros [= <- <-]. done.
  - destruct e; try (intros E2; destruct (Hh _ _ _ _ E2) as [Hd2 Ht2]; split; congruence).
    intros [= <- <-]. done.
Qed.

Lemma quiet_mapM {A B} (f : A -> M B) l : (forall x, quiet (f x)) -> quiet (mapM f l).
Proof.
  intros Hf. induction l as [|x l IH]; simpl.
  - apply quiet_ret.
  - apply quiet_bind; [apply Hf|]. intros y.
    apply quiet_bind; [apply IH|]. intros ys. apply quiet_ret.
Qed.

Lemma quiet_forEach {A} (f : A -> M unit) l : (forall x, quiet (f x)) -> quiet (forEach f l).
Proof.
  intros Hf. induction l as [|x l IH]; simpl.
  - apply quiet_ret.
  - apply quiet_bind; [apply Hf|]. intros _. apply IH.
Qed.

Lemma quiet_get_prop v k : quiet (get_prop v k).
Proof. unfold get_prop. destruct (nullish v); [apply quiet_throw|apply quiet_ret]. Qed.

Lemma quiet_set_prop v k x : quiet (set_prop v k x).
Proof. destruct v; simpl; first [apply quiet_throw|apply quiet_ret]. Qed.

Lemma quiet_new_ObjectId : quiet new_ObjectId.
Proof. intros w res w' [= <- <-]. done. Qed.

Lemma quiet_cast_ids `{Platform} l : quiet (cast_ids l).
Proof.
  induction l as [|v l IH]; simpl; [apply quiet_ret|].
  destruct (castObjectId v); [|apply quiet_throw].
  apply quiet_bind; [apply IH|]. intros. apply quiet_ret.
Qed.

End MonadFacts.

Create HintDb quiet.
#[local] Hint Resolve quiet_ret quiet_throw quiet_gets quiet_store_call quiet_read
  quiet_get_prop quiet_set_prop quiet_new_ObjectId quiet_cast_ids : quiet.

(** Proves [quiet] goals by following the structure of the program. *)
Ltac quiet_step :=
  match goal with
  | |- quiet (_ ≫= _) => apply quiet_bind; [|intros]
  | |- quiet (try_catch _ _) => apply quiet_try_catch; [|intros]
  | |- quiet (mapM _ _) => apply quiet_mapM; intros
  | |- quiet (forEach _ _) => apply quiet_forEach; intros
  | |- quiet (if ?b then _ else _) => destruct b
  | |- quiet (match ?x with _ => _ end) => destruct x
  | |- quiet (let '(_, _) := ?x in _) => destruct x
  | |- quiet _ => solve [auto with quiet]
  end.
Ltac quiet_tac := repeat quiet_step.

Section StoreFacts.
Context `{Platform}.

Lemma quiet_Product_findById s id : quiet (Product_findById s id).
Proof. unfold Product_findById. quiet_tac. Qed.
Lemma quiet_Product_findOne f : quiet (Product_findOne f).
Proof. unfold Product_findOne. quiet_tac. Qed.
Lemma quiet_Category_findById id : quiet (Category_findById id).
Proof. unfold Category_findById. quiet_tac. Qed.
Lemma quiet_Brand_findById id : quiet (Brand_findById id).
Proof. unfold Brand_findById. quiet_tac. Qed.
Lemma quiet_Color_find_in ids : quiet (Color_find_in ids).
Proof. unfold Color_find_in. quiet_tac. Qed.

End StoreFacts.

(** ** Writes inside the session *)

Section SessionFacts.
Context `{Platform}.

Lemma write_session op w res w' l :
  write true op w = (res, w') -> txn w = Some l ->
  db w' = db w
  /\ ((res = Ret tt /\ txn w' = Some (l ++ [op]))
      \/ (res = Throw StoreError /\ txn w' = Some l)).
Proof.
  unfold write. rewrite bind_eq. unfold store_call, modify.
  destruct (faults w (clock w)); intros [= <- <-] Hl; simpl; rewrite Hl; simpl; auto.
Qed.

Lemma cast_ids_eq l w :
  cast_ids l w =
  (match mapM castObjectId l with Some os => Ret os | None => Throw CastError end, w).
Proof.
  induction l as [|v l IH]; [done|].
  cbn [cast_ids]. change (mapM castObjectId (v :: l))
    with (y ← castObjectId v; k ← mapM castObjectId l; mret (y :: k)).
  destruct (castObjectId v) as [o|]; [|done].
  rewrite bind_eq, IH. simpl. by destruct (mapM castObjectId l).
Qed.

Lemma Category_inc_session v d w res w' l :
  Category_inc v d w = (res, w') -> txn w = Some l ->
  db w' = db w
  /\ ((exists o, castObjectId v = Some o /\ res = Ret tt
                 /\ txn w' = Some (l ++ [W_incCategory o d]))
      \/ (exists e, res = Throw e /\ txn w' = Some l)).
Proof.
  unfold Category_inc. destruct (castObjectId v) as [o|].
  - intros Hw Hl. destruct (write_session _ _ _ _ _ Hw Hl) as [Hd [[-> Ht]|[-> Ht]]]; eauto 8.
  - intros [= <- <-] Hl. eauto.
Qed.

Lemma Color_inc_in_session ids d w res w' l :
  Color_inc_in ids d w = (res, w') -> txn w = Some l ->
  db w' = db w
  /\ ((exists os, mapM castObjectId ids = Some os /\ res = Ret tt
                  /\ txn w' = Some (l ++ [W_incColors os d]))
      \/ (exists e, res = Throw e /\ txn w' = Some l)).
Proof.
  unfold Color_inc_in. rewrite bind_eq, cast_ids_eq.
  destruct (mapM castObjectId ids) as [os|].
  - intros Hw Hl. destruct (write_session _ _ _ _ _ Hw Hl) as [Hd [[-> Ht]|[-> Ht]]]; eauto 8.
  - intros [= <- <-] Hl. eauto.
Qed.

Lemma adjust_colors_session ids d w res w' l :
  adjust_colors ids d w = (res, w') -> txn w = Some l ->
  db w' = db w
  /\ ((res = Ret tt /\ txn w' = Some (l ++ color_ops ids d))
      \/ (exists e, res = Throw e /\ txn w' = Some l)).
Proof.
  unfold adjust_colors, color_ops. destruct ids as [|v vs].
  - intros [= <- <-] Hl. rewrite app_nil_r. auto.
  - intros Hrun Hl.
    destruct (Color_inc_in_session _ _ _ _ _ _ Hrun Hl)
      as [Hd [(os & Hos & -> & Ht)|(e & -> & Ht)]]; [|eauto].
    rewrite Hos. auto.
Qed.

Lemma apply_writes_app l1 l2 d :
  apply_writes (l1 ++ l2) d = apply_writes l2 (apply_writes l1 d).
Proof. apply foldl_app. Qed.

Lemma commit_session w res w' l :
  commitTransaction w = (res, w') -> txn w = Some l ->
  (res = Ret tt /\ db w' = apply_writes l (db w) /\ txn w' = None)
  \/ (res = Throw StoreError /\ db w' = db w /\ txn w' = Some l).
Proof.
  unfold commitTransaction. rewrite bind_eq. unfold store_call, modify.
  destruct (faults w (clock w)); intros [= <- <-] Hl; simpl; [by right|].
  left. unfold view. simpl. by rewrite Hl.
Qed.

Lemma in_session_all_or_nothing {A} Pre (unit : M A) P h :
  all_or_nothing Pre unit P -> (forall e, quiet (h e)) ->
  forall w res w',
    in_session unit h w = (res, w') -> Pre (db w) ->
    (exists a w2, res = Ret a
                  /\ unit (set_txn (Some []) (tick w)) = (Ret a, w2)
                  /\ P a (db w) (db w'))
    \/ (db w' = db w
        /\ forall a, res = Ret a -> exists e w1 w2, h e w1 = (Ret a, w2)).
Proof.
  intros Hunit Hh w res w' Hrun Hpre. revert Hrun.
  unfold in_session, startSession, startTransaction.
  rewrite bind_eq. unfold store_call at 1.
  destruct (faults w (clock w)).
  { intros [= <- <-]. right. split; [done|]. intros a [=]. }
  rewrite bind_eq. unfold modify at 1. unfold finally, try_catch.
  destruct (unit (set_txn (Some []) (tick w))) as [[a|e] w2] eqn:E2;
    pose proof (Hunit _ _ _ E2 eq_refl Hpre) as Hu; simpl in Hu.
  - intros [= <- <-]. left. exists a, w2. destruct Hu as [_ HP]. done.
  - destruct Hu as [Hd2 [l Hl]].
    assert (forall r w3, (abortTransaction ;; h e) w2 = (r, w3) ->
              db w3 = db w /\ forall a, r = Ret a -> exists e w1 w2, h e w1 = (Ret a, w2)) as Hab.
    { intros r w3. rewrite bind_eq. unfold abortTransaction. rewrite Hl.
      intros Hr. destruct (Hh _ _ _ _ Hr) as [Hd3 _]. simpl in Hd3.
      split; [congruence|]. intros a ->. eauto. }
    destruct ((abortTransaction ;; h e) w2) as [r w3] eqn:E3.
    destruct (Hab _ _ eq_refl) as [Hd3 Hr3].
    destruct e; intros [= <- <-]; right; simpl; (split; [congruence|done]).
Qed.

(** *** Globals *)

Lemma keeps_ret {A} (a : A) : keeps_globals (mret a).
Proof. by intros w res w' [= <- <-]. Qed.

Lemma keeps_throw {A} e : keeps_globals (@throw A e).
Proof. by intros w res w' [= <- <-]. Qed.

Lemma keeps_bind {A B} (m : M A) (f : A -> M B) :
  keeps_globals m -> (forall a, keeps_globals (f a)) -> keeps_globals (m ≫= f).
Proof.
  intros Hm Hf w res w'. rewrite bind_eq.
  destruct (m w) as [[a|e] w1] eqn:E; pose proof (Hm _ _ _ E) as Hg.
  - intros E2. pose proof (Hf _ _ _ _ E2). congruence.
  - by intros [= <- <-].
Qed.

Lemma keeps_forEach {A} (f : A -> M unit) l :
  (forall x, keeps_globals (f x)) -> keeps_globals (forEach f l).
Proof.
  intros Hf. induction l as [|x l IH]; simpl; [apply keeps_ret|].
  apply keeps_bind; [apply Hf|]. intros _. apply IH.
Qed.

Lemma keeps_write s op : keeps_globals (write s op).
Proof.
  intros w res w'. unfold write. rewrite bind_eq. unfold store_call, modify.
  destruct (faults w (clock w)); intros [= <- <-]; [done|].
  simpl. by destruct s, (txn w).
Qed.

Lemma keeps_Category_inc v d : keeps_globals (Category_inc v d).
Proof.
  unfold Category_inc. destruct (castObjectId v); [apply keeps_write|apply keeps_throw].
Qed.

Lemma keeps_adjust_colors ids d : keeps_globals (adjust_colors ids d).
Proof.
  unfold adjust_colors. destruct ids; [apply keeps_ret|].
  unfold Color_inc_in. intros w res w'. rewrite bind_eq, cast_ids_eq.
  destruct (mapM castObjectId _); [apply keeps_write|by intros [= <- <-]].
Qed.

End SessionFacts.

Section DeleteFacts.
Context `{Platform}.
Import Delete.

Lemma quiet_delete_images p : quiet (delete_images p).
Proof.
  unfold delete_images. apply quiet_forEach. intros v. apply quiet_forEach. intros img.
  apply quiet_bind; [apply quiet_gets|]. intros [|]; [|apply quiet_ret].
  intros w res w'. unfold unlinkSync.
  destruct (uploads w !! _) as [[|]|]; intros [= <- <-]; done.
Qed.

Lemma keeps_delete_images p : keeps_globals (delete_images p).
Proof.
  unfold delete_images. apply keeps_forEach. intros v. apply keeps_forEach. intros img.
  apply keeps_bind; [by intros w res w' [= <- <-]|]. intros [|]; [|apply keeps_ret].
  intros w res w'. unfold unlinkSync.
  destruct (uploads w !! _) as [[|]|]; by intros [= <- <-].
Qed.

(** The unit returns only where the global scope binds [Image]. *)
Lemma delete_unit_reads_Image id product w a w' :
  atomic_unit id product w = (Ret a, w') -> global_Image w = true.
Proof.
  unfold atomic_unit. rewrite bind_eq.
  destruct (delete_images product w) as [[[]|e] w1] eqn:E1; [|done].
  rewrite <- (keeps_delete_images _ _ _ _ E1).
  rewrite bind_eq.
  destruct (Category_inc _ _ w1) as [[[]|e] w2] eqn:E2; [|done].
  rewrite <- (keeps_Category_inc _ _ _ _ _ E2).
  rewrite bind_eq.
  destruct (adjust_colors _ _ w2) as [[[]|e] w3] eqn:E3; [|done].
  rewrite <- (keeps_adjust_colors _ _ _ _ _ E3).
  rewrite bind_eq. unfold eval_Image at 1. by destruct (global_Image w3).
Qed.

Lemma delete_unit id product :
  all_or_nothing (fun _ => True) (atomic_unit id product)
    (fun r d d' =>
       r = respond OK (PRODUCT_MESSAGES "PRODUCT_DELETED")
       /\ exists o, castObjectId id = Some o
          /\ d' = apply_writes ([W_incCategory (p_category product) (-1)]
                                ++ color_ops (set_values (color_strings product)) (-1)
                                ++ [W_deleteProduct o]) d).
Proof.
  intros w res w' Hrun Htxn _. unfold atomic_unit in Hrun.
  rewrite bind_eq in Hrun.
  destruct (delete_images product w) as [[[]|e] w1] eqn:E1;
    destruct (quiet_delete_images _ _ _ _ E1) as [Hd1 Ht1]; rewrite Htxn in Ht1;
    [|injection Hrun as <- <-; by rewrite Ht1].
  rewrite bind_eq in Hrun.
  destruct (Category_inc _ _ w1) as [r2 w2] eqn:E2.
  destruct (Category_inc_session _ _ _ _ _ _ E2 Ht1)
    as [Hd2 [(o2 & Ho2 & -> & Ht2)|(e & -> & Ht2)]];
    [|injection Hrun as <- <-; rewrite Ht2; split; [congruence|done]].
  simpl in Ho2. injection Ho2 as <-.
  rewrite bind_eq in Hrun.
  destruct (adjust_colors _ _ w2) as [r3 w3] eqn:E3.
  destruct (adjust_colors_session _ _ _ _ _ _ E3 Ht2) as [Hd3 [[-> Ht3]|(e & -> & Ht3)]];
    [|injection Hrun as <- <-; rewrite Ht3; split; [congruence|done]].
  rewrite bind_eq in Hrun. unfold eval_Image in Hrun at 1.
  destruct (global_Image w3);
    [|injection Hrun as <- <-; rewrite Ht3; split; [congruence|done]].
  rewrite bind_eq in Hrun.
  destruct (castObjectId id) as [o|];
    [|injection Hrun as <- <-; rewrite Ht3; split; [congruence|done]].
  destruct (write true (W_deleteProduct o) w3) as [r4 w4] eqn:E4.
  destruct (write_session _ _ _ _ _ E4 Ht3) as [Hd4 [[-> Ht4]|[-> Ht4]]];
    [|injection Hrun as <- <-; rewrite Ht4; split; [congruence|done]].
  rewrite bind_eq in Hrun.
  destruct (commitTransaction w4) as [r5 w5] eqn:E5.
  destruct (commit_session _ _ _ _ E5 Ht4) as [(-> & Hd5 & Ht5)|(-> & Hd5 & Ht5)].
  - injection Hrun as <- <-. split; [done|]. split; [done|]. exists o. split; [done|].
    rewrite Hd5, Hd4, Hd3, Hd2, Hd1. by rewrite <- app_assoc.
  - injection Hrun as <- <-. rewrite Ht5. split; [congruence|done].
Qed.

End DeleteFacts.

Section DeleteTheorems.
Context `{Platform}.
Import Delete.












(** Where the global scope does not bind [Image] (as in Node.js), the
    handler never reports a deletion: it answers NOT_FOUND or throws, and
    the documents stay as they were. *)
Lemma deleteProduct_needs_Image id w res w' :
  global_Image w = false ->
  deleteProduct id w = (res, w') ->
  db w' = db w /\ forall r, res = Ret r -> statusCode r = NOT_FOUND.
Proof.
  intros Himage Hrun. unfold deleteProduct in Hrun.
  rewrite bind_eq in Hrun. unfold Product_findById in Hrun.
  destruct (castObjectId id) as [o|]; [|by injection Hrun as <- <-].
  rewrite bind_eq in Hrun. unfold read in Hrun at 1. rewrite bind_eq in Hrun.
  unfold store_call in Hrun at 1.
  destruct (faults w (clock w)); [by injection Hrun as <- <-|].
  simpl in Hrun.
  destruct (products (db w) !! o) as [product|].
  - destruct (in_session_all_or_nothing _ _ _ _ (delete_unit id product)
                (fun e => quiet_throw e) _ _ _ Hrun I)
      as [(a & w2 & _ & Hunit & _)|[Hd Hno]].
    + apply delete_unit_reads_Image in Hunit. simpl in Hunit. congruence.
    + split; [done|]. intros r ->. destruct (Hno _ eq_refl) as (e & w2 & w3 & [=]).
  - injection Hrun as <- <-. split; [done|]. by intros r [= <-].
Qed.

End DeleteTheorems.


(** C6, at a failing input.  The shirt has one image stored as [a.jpg].
    While the file can be removed, the deletion goes through; once
    [fs.unlinkSync] fails on it, the handler throws from inside the [try]
    block, the transaction is aborted, and the product and every counter
    are as before. *)
Example deleteProduct_blocked_by_failed_unlink :
  let removable := Sample.world true {[ js "a.jpg" := Removable ]} Sample.no_faults in
  let locked := Sample.world true {[ js "a.jpg" := Locked ]} Sample.no_faults in
  let delete := @Delete.deleteProduct Reference.platform (Sample.id_string 100) in
  (delete removable).1 = Ret (respond OK (PRODUCT_MESSAGES "PRODUCT_DELETED"))
  /\ products (db (delete removable).2) !! 100%N = None
  /\ (delete locked).1 = Throw FsError
  /\ db (delete locked).2 = db locked
  /\ products (db (delete locked).2) !! 100%N = Some Sample.shirt.
Proof. vm_compute. repeat split; reflexivity. Qed.

(** ** createProduct *)

Section CreateFacts.
Context `{Platform}.
Import Create.

(** C7. A create request whose parsed variant list is empty is answered
    with the client error 422 whatever its other fields hold, and the world
    is left exactly as it was: no store call is made, let alone a write. *)
Theorem createProduct_without_variants req w :
  nullish (req_body req) = false ->
  parsed_variants (req_body req) = [] ->
  createProduct req w =
    (Ret (respond UNPROCESSABLE_ENTITY (Text "At least one variant is required")), w)
  /\ is_client_error UNPROCESSABLE_ENTITY = true.
Proof.
  intros Hbody Hvariants. split; [|reflexivity].
  unfold createProduct. rewrite Hbody, Hvariants.
  rewrite (bool_decide_true ([] = [])) by done.
  by rewrite !orb_true_r.
Qed.



Lemma quiet_variant_colors l : quiet (variant_colors l).
Proof. unfold variant_colors. quiet_tac. Qed.


End CreateFacts.

(** A valid new product whose variants are the string [[]]. *)
Lemma createProduct_without_variants_witness :
  let req := Sample.request JUndefined (Sample.new_product "Blue Jeans" (JString (js "[]"))) in
  let w := Sample.world false ∅ Sample.no_faults in
  @Create.createProduct Reference.platform req w =
    (Ret (respond UNPROCESSABLE_ENTITY (Text "At least one variant is required")), w)
  /\ is_client_error UNPROCESSABLE_ENTITY = true.
Proof.
  intros req w.
  apply (@createProduct_without_variants Reference.platform req w); vm_compute; reflexivity.
Defined.


(* ===================================================================== *)
(** ** updateProduct *)
(* ===================================================================== *)

(** ** updateProduct *)

Section UpdateFacts.
Context `{Platform}.
Import Update.

#[local] Hint Resolve quiet_Product_findById quiet_Product_findOne quiet_Color_find_in : quiet.

Lemma quiet_validate_variants l : quiet (validate_variants l).
Proof. induction l as [|v l IH]; simpl; quiet_tac. Qed.

Lemma quiet_normalize_color v : quiet (normalize_color v).
Proof. unfold normalize_color. quiet_tac. Qed.

Lemma quiet_parse_variant_items l : quiet (parse_variant_items l).
Proof.
  induction l as [|v l IH]; simpl; [apply quiet_ret|].
  apply quiet_bind; [|intros; apply quiet_bind; [apply IH|intros; apply quiet_ret]].
  pose proof quiet_normalize_color. quiet_tac.
Qed.

Lemma quiet_parseJsonField product fld name : quiet (parseJsonField product fld name).
Proof.
  pose proof quiet_normalize_color. pose proof quiet_parse_variant_items.
  unfold parseJsonField. quiet_tac.
Qed.

Lemma quiet_parse_or_keep product x name : quiet (parse_or_keep product x name).
Proof. pose proof quiet_parseJsonField. unfold parse_or_keep. quiet_tac. Qed.

Lemma quiet_named_colors l : quiet (named_colors l).
Proof. unfold named_colors, color_of_variant. quiet_tac. Qed.

Lemma quiet_merge_loop l updated fresh : quiet (merge_loop l updated fresh).
Proof.
  revert updated fresh. induction l as [|v l IH]; intros updated fresh; simpl; quiet_tac.
Qed.

Lemma quiet_merge_variants product variants : quiet (merge_variants product variants).
Proof. pose proof quiet_merge_loop. unfold merge_variants. quiet_tac. Qed.

Lemma quiet_destroy v : quiet (destroy v).
Proof.
  intros w res w'. unfold destroy. destruct (cloud w !! _) as [[|]|]; intros [= <- <-]; done.
Qed.

Lemma quiet_uploaded_images body index files : quiet (Create.uploaded_images body index files).
Proof. unfold Create.uploaded_images. quiet_tac. Qed.

Lemma quiet_some_has_images l : quiet (Create.some_has_images l).
Proof. induction l as [|v l IH]; simpl; quiet_tac. Qed.

Lemma quiet_replace_images req product l : quiet (replace_images req product l).
Proof.
  pose proof quiet_destroy. pose proof quiet_uploaded_images.
  unfold replace_images. quiet_tac.
Qed.

Lemma quiet_checks req product : quiet (checks req product).
Proof.
  pose proof quiet_validate_variants. pose proof quiet_parse_or_keep.
  pose proof quiet_named_colors. pose proof quiet_merge_variants.
  pose proof quiet_replace_images. pose proof quiet_some_has_images.
  unfold checks. quiet_tac.
Qed.

(** *** The atomic unit *)

Lemma ret_eq {A} (a : A) w : (mret a : M A) w = (Ret a, w).
Proof. reflexivity. Qed.

Lemma updateData_pure product body tags specifications collections updatedVariants slug :
  exists res,
    pure_result
      (updateData product body tags specifications collections updatedVariants slug) res.
Proof.
  unfold updateData, pure_result, get_prop.
  destruct (nullish (field body "category")), (nullish (field body "brand")),
    (nullish (pop_category product)), (nullish (pop_brand product));
    eexists; intros w; reflexivity.
Qed.

Lemma adjust_category_session product category w res w' l :
  adjust_category product category w = (res, w') -> txn w = Some l ->
  db w' = db w
  /\ ((exists moves, category_ops product category = Some moves
                     /\ res = Ret tt /\ txn w' = Some (l ++ moves))
      \/ (exists e, res = Throw e /\ is_Some (txn w'))).
Proof.
  unfold adjust_category, category_ops, get_prop. intros Hrun Hl.
  destruct (truthy category);
    [|injection Hrun as <- <-; split; [done|]; left; exists []; by rewrite app_nil_r].
  rewrite bind_eq in Hrun.
  destruct (nullish (pop_category product));
    [injection Hrun as <- <-; split; [done|]; right; rewrite Hl; eauto|].
  rewrite ret_eq in Hrun.
  destruct (differs_from _ _);
    [|injection Hrun as <- <-; split; [done|]; left; exists []; by rewrite app_nil_r].
  rewrite bind_eq in Hrun.
  destruct (Category_inc _ _ w) as [r1 w1] eqn:E1.
  destruct (Category_inc_session _ _ _ _ _ _ E1 Hl)
    as [Hd1 [(a & Ha & -> & Ht1)|(e & -> & Ht1)]];
    [|injection Hrun as <- <-; split; [done|]; right; rewrite Ht1; eauto].
  destruct (Category_inc_session _ _ _ _ _ _ Hrun Ht1)
    as [Hd2 [(b & Hb & -> & Ht2)|(e & -> & Ht2)]].
  - rewrite Ha, Hb. split; [congruence|]. left. eexists. split; [done|]. split; [done|].
    by rewrite Ht2, <- app_assoc.
  - split; [congruence|]. right. rewrite Ht2. eauto.
Qed.

Lemma persist_session req fields w res w' l o :
  persist req fields w = (res, w') -> txn w = Some l ->
  castObjectId (req_id req) = Some o ->
  db w' = db w
  /\ ((exists p', castProduct o fields = Some p'
                  /\ res = Ret (products (apply_writes (l ++ [W_replaceProduct o p']) (db w)) !! o)
                  /\ txn w' = Some (l ++ [W_replaceProduct o p']))
      \/ (exists e, res = Throw e /\ is_Some (txn w'))).
Proof.
  unfold persist. intros Hrun Hl Ho. rewrite Ho in Hrun.
  destruct (castProduct o fields) as [p'|];
    [|injection Hrun as <- <-; split; [done|]; right; rewrite Hl; eauto].
  rewrite bind_eq in Hrun.
  destruct (write true _ w) as [r1 w1] eqn:E1.
  destruct (write_session _ _ _ _ _ E1 Hl) as [Hd1 [[-> Ht1]|[-> Ht1]]];
    [|injection Hrun as <- <-; split; [done|]; right; rewrite Ht1; eauto].
  rewrite bind_eq in Hrun. unfold read in Hrun. rewrite bind_eq in Hrun.
  unfold store_call in Hrun.
  destruct (faults w1 (clock w1));
    [injection Hrun as <- <-; split; [done|]; right; simpl; rewrite Ht1; eauto|].
  simpl in Hrun. injection Hrun as <- <-. simpl. split; [done|]. left.
  exists p'. split; [done|]. split; [|done].
  unfold view. simpl. by rewrite Ht1, Hd1.
Qed.

Lemma color_ops_frame ids z d :
  products (apply_writes (color_ops ids z) d) = products d
  /\ categories (apply_writes (color_ops ids z) d) = categories d.
Proof. unfold color_ops. destruct ids; [done|]. by destruct (mapM _ _). Qed.

Lemma category_ops_products product category moves d :
  category_ops product category = Some moves ->
  products (apply_writes moves d) = products d.
Proof.
  unfold category_ops. intros Hm.
  repeat match type of Hm with
         | (if ?b then _ else _) = _ => destruct b
         | (_ ≫= _) = _ => apply bind_Some in Hm as (? & ? & Hm)
         | Some _ = Some _ => injection Hm as <-
         | None = Some _ => discriminate Hm
         end; done.
Qed.

Lemma update_unit req product prepared o :
  castObjectId (req_id req) = Some o ->
  all_or_nothing (fun d => is_Some (products d !! o))
    (atomic_unit req product (pr_tags prepared) (pr_specifications prepared)
                 (pr_collections prepared) (pr_updatedVariants prepared) (pr_slug prepared))
    (update_committed req product prepared o).
Proof.
  intros Ho w res w' Hrun Htxn [p0 Hp0]. unfold atomic_unit in Hrun.
  destruct (updateData_pure product (req_body req) (pr_tags prepared)
              (pr_specifications prepared) (pr_collections prepared)
              (pr_updatedVariants prepared) (pr_slug prepared)) as [res0 Hpure].
  rewrite bind_eq, (Hpure w) in Hrun.
  destruct res0 as [fields|e]; [|injection Hrun as <- <-; by rewrite Htxn].
  rewrite bind_eq in Hrun.
  destruct (adjust_category _ _ w) as [r1 w1] eqn:E1.
  destruct (adjust_category_session _ _ _ _ _ _ E1 Htxn)
    as [Hd1 [(moves & Hmoves & -> & Ht1)|(e & -> & Ht1)]]; [|by injection Hrun as <- <-].
  rewrite app_nil_l in Ht1.
  rewrite bind_eq in Hrun.
  destruct (adjust_colors _ 1 w1) as [r2 w2] eqn:E2.
  destruct (adjust_colors_session _ _ _ _ _ _ E2 Ht1)
    as [Hd2 [[-> Ht2]|(e & -> & Ht2)]];
    [|injection Hrun as <- <-; rewrite Ht2; split; [congruence|done]].
  rewrite bind_eq in Hrun.
  destruct (adjust_colors _ (-1) w2) as [r3 w3] eqn:E3.
  destruct (adjust_colors_session _ _ _ _ _ _ E3 Ht2)
    as [Hd3 [[-> Ht3]|(e & -> & Ht3)]];
    [|injection Hrun as <- <-; rewrite Ht3; split; [congruence|done]].
  rewrite bind_eq in Hrun.
  destruct (persist req fields w3) as [r4 w4] eqn:E4.
  destruct (persist_session _ _ _ _ _ _ _ E4 Ht3 Ho)
    as [Hd4 [(p' & Hcast & -> & Ht4)|(e & -> & Ht4)]];
    [|injection Hrun as <- <-; split; [congruence|done]].
  rewrite bind_eq in Hrun.
  destruct (commitTransaction w4) as [r5 w5] eqn:E5.
  destruct (commit_session _ _ _ _ E5 Ht4) as [(-> & Hd5 & Ht5)|(-> & Hd5 & Ht5)];
    [|injection Hrun as <- <-; rewrite Ht5; split; [congruence|done]].
  assert (db w3 = db w) as Hd by congruence.
  rewrite Hd in Hrun.
  match type of Hrun with
  | context [apply_writes (?ops ++ [W_replaceProduct o p']) (db w)] =>
      assert (products (apply_writes ops (db w)) !! o = Some p0) as Hthere
  end.
  { rewrite !apply_writes_app.
    rewrite (proj1 (color_ops_frame _ _ _)), (proj1 (color_ops_frame _ _ _)).
    by rewrite (category_ops_products _ _ _ _ Hmoves). }
  rewrite apply_writes_app in Hrun. cbn [apply_writes foldl apply_write products] in Hrun.
  rewrite lookup_alter_eq in Hrun.
  rewrite Hthere in Hrun.
  simpl in Hrun. injection Hrun as <- <-. split; [done|].
  exists fields, p', moves. split; [done|]. split; [done|]. split; [done|]. split; [done|].
  rewrite Hd5, Hd4, Hd. f_equal. by rewrite <- !app_assoc.
Qed.

(** *** The answers of the checks *)

Lemma yields_ret {A} (a : A) (Q : A -> Prop) : Q a -> yields (mret a) Q.
Proof. by intros HQ w a' w' [= <- _]. Qed.

Lemma yields_throw {A} e (Q : A -> Prop) : yields (throw e) Q.
Proof. by intros w a w' [=]. Qed.

Lemma yields_bind {A B} (m : M A) (f : A -> M B) (Q1 : A -> Prop) (Q : B -> Prop) :
  yields m Q1 -> (forall a, Q1 a -> yields (f a) Q) -> yields (m ≫= f) Q.
Proof.
  intros Hm Hf w b w'. rewrite bind_eq.
  destruct (m w) as [[a|e] w1] eqn:E; [|done].
  intros Hb. eapply Hf; [|done]. by eapply Hm.
Qed.

Lemma yields_bind_any {A B} (m : M A) (f : A -> M B) (Q : B -> Prop) :
  (forall a, yields (f a) Q) -> yields (m ≫= f) Q.
Proof.
  intros Hf. apply (yields_bind _ _ (fun _ => True)); [by intros ? ? ? ?|auto].
Qed.

Lemma validate_variants_rejects l : yields (validate_variants l) not_OK.
Proof.
  induction l as [|v l IH]; simpl.
  - apply yields_ret. by intros r [=].
  - apply yields_bind_any. intros color.
    repeat match goal with
           | |- yields (if ?b then _ else _) _ => destruct b
           | |- yields (mret _) _ => apply yields_ret; by intros r [= <-]
           end.
    apply IH.
Qed.

(** An early response of the checks is never a success. *)
Lemma checks_reject req product :
  yields (checks req product)
         (fun x => match x with inl r => statusCode r <> OK | inr _ => True end).
Proof.
  unfold checks. destruct (nullish (req_body req)); [apply yields_throw|].
  eapply yields_bind.
  { instantiate (1 := not_OK).
    destruct (_ && _); [apply validate_variants_rejects|].
    apply yields_ret. by intros r [=]. }
  intros [response|] Hr; [apply yields_ret; by apply Hr|].
  repeat first
    [ apply yields_bind_any; intros
    | apply yields_throw
    | apply yields_ret; done
    | match goal with
      | |- yields (if ?b then _ else _) _ => destruct b
      | |- yields (match ?x with _ => _ end) _ => destruct x
      end ].
Qed.

(** The handler, taken apart: either no write was committed, or the unit
    committed for the product the request names. *)
Lemma updateProduct_inv req w res w' :
  updateProduct req w = (res, w') ->
  (db w' = db w /\ forall r, res = Ret r -> statusCode r <> OK)
  \/ (exists o p prepared r,
        castObjectId (req_id req) = Some o
        /\ products (db w) !! o = Some p
        /\ res = Ret r
        /\ update_committed req (populate (db w) p) prepared o r (db w) (db w')).
Proof.
  unfold updateProduct. intros Hrun.
  destruct (negb (isValidObjectId (req_id req)));
    [injection Hrun as <- <-; left; split; [done|]; by intros r [= <-]|].
  rewrite bind_eq in Hrun. unfold Product_findById in Hrun.
  destruct (castObjectId (req_id req)) as [o|] eqn:Ho;
    [|injection Hrun as <- <-; left; split; [done|]; by intros r [=]].
  rewrite bind_eq in Hrun. unfold read in Hrun at 1. rewrite bind_eq in Hrun.
  unfold store_call in Hrun at 1.
  destruct (faults w (clock w));
    [injection Hrun as <- <-; left; split; [done|]; by intros r [=]|].
  cbn [gets mret M_ret] in Hrun. change (db (tick w)) with (db w) in Hrun.
  destruct (products (db w) !! o) as [p|] eqn:Hp;
    [|injection Hrun as <- <-; left; split; [done|]; by intros r [= <-]].
  rewrite bind_eq in Hrun. cbn [gets] in Hrun. change (db (tick w)) with (db w) in Hrun.
  rewrite bind_eq in Hrun.
  destruct (checks req (populate (db w) p) (tick w)) as [[checked|e] w1] eqn:E1;
    destruct (quiet_checks _ _ _ _ _ E1) as [Hd1 Ht1]; simpl in Hd1;
    [|injection Hrun as <- <-; left; split; [done|]; by intros r [=]].
  destruct checked as [response|prepared].
  { rewrite ret_eq in Hrun. injection Hrun as <- <-. left. split; [done|]. intros r [= <-].
    by apply (checks_reject _ _ _ _ _ E1). }
  unfold transaction in Hrun.
  destruct (in_session_all_or_nothing _ _ _ _
              (update_unit req (populate (db w) p) prepared o Ho)
              (fun e => quiet_ret _) _ _ _ Hrun)
    as [(a & w2 & -> & _ & Hcommitted)|[Hd Hno]].
  - rewrite Hd1. eauto.
  - right. exists o, p, prepared, a. rewrite Hd1 in Hcommitted. done.
  - left. split; [congruence|]. intros r ->.
    destruct (Hno _ eq_refl) as (e & w2 & w3 & [= <-]). done.
Qed.

(** *** Category counters (C1) *)

Lemma committed_categories req product prepared o r d d' moves :
  update_committed req product prepared o r d d' ->
  category_ops product (field (req_body req) "category") = Some moves ->
  categories d' = categories (apply_writes moves d).
Proof.
  intros (fields & p' & moves' & _ & _ & _ & Hmoves & ->) Hm.
  rewrite Hm in Hmoves. injection Hmoves as <-.
  rewrite !apply_writes_app. cbn [apply_writes foldl apply_write categories].
  change (foldl (fun acc op => apply_write op acc) ?d ?l) with (apply_writes l d).
  by rewrite (proj2 (color_ops_frame _ _ _)), (proj2 (color_ops_frame _ _ _)).
Qed.

Lemma committed_product req product prepared o r d d' :
  update_committed req product prepared o r d d' ->
  is_Some (products d !! o) ->
  exists fields p',
    pure_result (updateData product (req_body req) (pr_tags prepared)
                   (pr_specifications prepared) (pr_collections prepared)
                   (pr_updatedVariants prepared) (pr_slug prepared)) (Ret fields)
    /\ castProduct o fields = Some p'
    /\ products d' !! o = Some p'.
Proof.
  intros (fields & p' & moves & Hpure & Hcast & _ & Hmoves & ->) [p0 Hp0].
  exists fields, p'. split; [done|]. split; [done|].
  rewrite !app_assoc, apply_writes_app. cbn [apply_writes foldl apply_write products].
  rewrite lookup_alter_eq.
  change (foldl (fun acc op => apply_write op acc) ?d ?l) with (apply_writes l d).
  rewrite !apply_writes_app.
  rewrite (proj1 (color_ops_frame _ _ _)), (proj1 (color_ops_frame _ _ _)).
  by rewrite (category_ops_products _ _ _ _ Hmoves), Hp0.
Qed.

(** C1. When an update commits for a request that supplies a category [B]
    other than the product's current category [A], the count of [A] has
    gone down by exactly one, the count of [B] up by exactly one, and no
    other category has changed; and an update that does not end in the OK
    response, so every failure inside the atomic unit, leaves the
    committed documents, counters and product alike, as they were. *)
Theorem updateProduct_category_counters req w res w' :
  updateProduct req w = (res, w') ->
  (forall r o p B,
      res = Ret r -> statusCode r = OK ->
      castObjectId (req_id req) = Some o ->
      products (db w) !! o = Some p ->
      truthy (field (req_body req) "category") = true ->
      castObjectId (field (req_body req) "category") = Some B ->
      B <> p_category p ->
      reads_back (p_category p) = true ->
      forall k, categories (db w') !! k =
                if bool_decide (k = p_category p)
                then cat_inc (-1) <$> categories (db w) !! k
                else if bool_decide (k = B)
                     then cat_inc 1 <$> categories (db w) !! k
                     else categories (db w) !! k)
  /\ ((forall r, res = Ret r -> statusCode r <> OK) -> db w' = db w).
Proof.
  intros Hrun. destruct (updateProduct_inv _ _ _ _ Hrun)
    as [[Hd Hnot]|(o & p & prepared & r & Ho & Hp & -> & Hcommitted)].
  - split; [|done]. intros r o p B -> Hok. by destruct (Hnot _ eq_refl).
  - split.
    2:{ intros Hnot. destruct Hcommitted as (? & ? & ? & _ & _ & Hok & _).
        by destruct (Hnot _ eq_refl). }
    intros r' o' p' B [= <-] _ Ho' Hp' Htruthy HB Hne Hback k.
    rewrite Ho in Ho'. injection Ho' as <-. rewrite Hp in Hp'. injection Hp' as <-.
    pose proof Hcommitted as (? & ? & moves & _ & _ & _ & Hmoves & _).
    rewrite (committed_categories _ _ _ _ _ _ _ _ Hcommitted Hmoves).
    unfold category_ops in Hmoves. rewrite Htruthy in Hmoves.
    unfold populate in Hmoves. cbn [pop_category] in Hmoves.
    destruct (categories (db w) !! p_category p) as [c|] eqn:Hc; [|done].
    cbn in Hmoves.
    assert (differs_from (field (req_body req) "category")
                         (ObjectId_toString (p_category p)) = true) as Hdiff.
    { apply andb_true_iff in Hback as [_ Hback]. apply bool_decide_eq_true in Hback.
      destruct (field (req_body req) "category") eqn:Hcat; try done.
      simpl. apply negb_true_iff, bool_decide_eq_false. intros ->. congruence. }
    rewrite decide_True in Hmoves by done. cbn in Hmoves.
    rewrite Hdiff, HB in Hmoves. cbn in Hmoves. injection Hmoves as <-.
    cbn. rewrite !lookup_alter.
    destruct (decide (B = k)) as [<-|HBk].
    + rewrite (bool_decide_false (B = p_category p)) by done.
      rewrite (bool_decide_true (B = B)) by done.
      rewrite decide_False by congruence. done.
    + destruct (decide (p_category p = k)) as [<-|HAk].
      * by rewrite bool_decide_true.
      * rewrite !bool_decide_false by congruence. done.
Qed.

(** *** Flags (C9) *)

Lemma castProduct_flags o fields p' :
  castProduct o fields = Some p' ->
  castBoolean (f_isActive fields) = Some (p_isActive p')
  /\ castBoolean (f_isFeatured fields) = Some (p_isFeatured p')
  /\ castBoolean (f_isSoldOut fields) = Some (p_isSoldOut p')
  /\ castBoolean (f_isVisible fields) = Some (p_isVisible p').
Proof.
  unfold castProduct. intros Hc.
  repeat (apply bind_Some in Hc as (? & ? & Hc)).
  injection Hc as <-. done.
Qed.

Lemma updateData_flags product body tags specifications collections updatedVariants slug fields :
  pure_result (updateData product body tags specifications collections updatedVariants slug)
              (Ret fields) ->
  let p := doc product in
  f_isActive fields = JBool (if says_true (field body "isActive") then true else p_isActive p)
  /\ f_isFeatured fields =
       JBool (if says_true (field body "isFeatured") then true else p_isFeatured p)
  /\ f_isSoldOut fields =
       JBool (if says_false (field body "isSoldOut") then false else p_isSoldOut p)
  /\ f_isVisible fields =
       JBool (if says_true (field body "isVisible") then true else p_isVisible p).
Proof.
  intros Hpure p.
  specialize (Hpure {| db := {| products := ∅; categories := ∅; colors := ∅; brands := ∅ |};
                       txn := None; uploads := ∅; cloud := ∅; global_Image := false;
                       next_oid := 0%N; clock := O; faults := fun _ => false |}).
  unfold updateData, get_prop in Hpure.
  rewrite !bind_eq in Hpure.
  destruct (nullish (field body "category")), (nullish (field body "brand")),
    (nullish (pop_category product)), (nullish (pop_brand product));
    try done; by injection Hpure as <-.
Qed.

(** C9. In an update that commits, each of the stored flags isActive,
    isFeatured and isVisible is what it was unless the request says true
    (['true'] or [true]), and then it is true; isSoldOut is what it was
    unless the request says false, and then it is false.  So the first three
    can only be turned on and the last only off. *)
Theorem updateProduct_flags_one_way req w r w' o p :
  updateProduct req w = (Ret r, w') ->
  statusCode r = OK ->
  castObjectId (req_id req) = Some o ->
  products (db w) !! o = Some p ->
  exists p',
    products (db w') !! o = Some p'
    /\ turned_on_only (field (req_body req) "isActive") (p_isActive p) (p_isActive p')
    /\ turned_on_only (field (req_body req) "isFeatured") (p_isFeatured p) (p_isFeatured p')
    /\ turned_on_only (field (req_body req) "isVisible") (p_isVisible p) (p_isVisible p')
    /\ turned_off_only (field (req_body req) "isSoldOut") (p_isSoldOut p) (p_isSoldOut p').
Proof.
  intros Hrun Hok Ho Hp.
  destruct (updateProduct_inv _ _ _ _ Hrun)
    as [[_ Hnot]|(o' & p0 & prepared & r' & Ho' & Hp' & [= <-] & Hcommitted)];
    [by destruct (Hnot _ eq_refl)|].
  rewrite Ho in Ho'. injection Ho' as <-. rewrite Hp in Hp'. injection Hp' as <-.
  destruct (committed_product _ _ _ _ _ _ _ Hcommitted) as (fields & p' & Hpure & Hcast & Hp');
    [by rewrite Hp|].
  exists p'. split; [done|].
  destruct (castProduct_flags _ _ _ Hcast) as (Ha & Hf & Hs & Hv).
  destruct (updateData_flags _ _ _ _ _ _ _ _ Hpure) as (Ha' & Hf' & Hs' & Hv').
  cbn [populate doc] in *.
  rewrite Ha' in Ha. rewrite Hf' in Hf. rewrite Hs' in Hs. rewrite Hv' in Hv.
  injection Ha as <-. injection Hf as <-. injection Hs as <-. injection Hv as <-.
  unfold turned_on_only, turned_off_only.
  repeat split.
  all: match goal with |- context [if ?b then _ else _] => destruct b eqn:Hb end.
  all: done.
Qed.

End UpdateFacts.

(** The shirt moves from category 1 to category 2; and the same request
    when the store fails on the increment of category 2, after the
    decrement of category 1 has been issued in the transaction. *)
Lemma updateProduct_category_counters_witness :
  let req := Sample.shirt_update [("category"%string, Sample.id_string 2)] in
  let w := Sample.world true ∅ Sample.no_faults in
  let failing := Sample.world true ∅ (fun n => Nat.eqb n 4) in
  let run := @Update.updateProduct Reference.platform req w in
  let failed := @Update.updateProduct Reference.platform req failing in
  (forall k, categories (db run.2) !! k =
             if bool_decide (k = 1%N) then cat_inc (-1) <$> categories (db w) !! k
             else if bool_decide (k = 2%N) then cat_inc 1 <$> categories (db w) !! k
                  else categories (db w) !! k)
  /\ db failed.2 = db failing.
Proof.
  intros req w failing run failed. split.
  - apply (proj1 (@updateProduct_category_counters Reference.platform req w run.1 run.2
                    (surjective_pairing run))
             (Sample.answer run.1) 100%N Sample.shirt 2%N);
      vm_compute; first [reflexivity | discriminate].
  - apply (proj2 (@updateProduct_category_counters Reference.platform req failing
                    failed.1 failed.2 (surjective_pairing failed))).
    vm_compute. intros r [= <-]. discriminate.
Defined.

(** The shirt is active, visible, sold out and not featured.  A request
    that says isActive false, isFeatured true, isVisible false and
    isSoldOut true turns isFeatured on and changes no other flag. *)
Lemma updateProduct_flags_one_way_witness :
  let req := Sample.shirt_update
               [("isActive"%string, JString (js "false"));
                ("isFeatured"%string, JString (js "true"));
                ("isVisible"%string, JBool false);
                ("isSoldOut"%string, JString (js "true"))] in
  let w := Sample.world true ∅ Sample.no_faults in
  let run := @Update.updateProduct Reference.platform req w in
  exists p',
    products (db run.2) !! 100%N = Some p'
    /\ turned_on_only (JString (js "false")) true (p_isActive p')
    /\ turned_on_only (JString (js "true")) false (p_isFeatured p')
    /\ turned_on_only (JBool false) true (p_isVisible p')
    /\ turned_off_only (JString (js "true")) true (p_isSoldOut p').
Proof.
  intros req w run.
  apply (@updateProduct_flags_one_way Reference.platform req w (Sample.answer run.1) run.2
           100%N Sample.shirt); vm_compute; reflexivity.
Defined.
(* ===================================================================== *)
(** ** The variant merge of updateProduct *)
(* ===================================================================== *)

Section MergeFacts.
Context `{Platform}.
Import Update.

Lemma assoc_set_other k k' x fs : k' <> k -> assoc k' (assoc_set k x fs) = assoc k' fs.
Proof.
  intros Hne. induction fs as [|[k0 v0] fs IH]; simpl.
  - by rewrite decide_False.
  - destruct (decide (k = k0)) as [->|Hk]; simpl.
    + by rewrite !decide_False.
    + destruct (decide (k' = k0)); [done|apply IH].
Qed.

Lemma patch_keeps_id existing variant :
  field (patch existing variant) "_id" = field existing "_id".
Proof.
  destruct existing; try done. unfold patch, field, prop.
  by rewrite !assoc_set_other.
Qed.

Lemma id_strings_alter variant i l :
  id_strings (alter (fun existing => patch existing variant) i l) = id_strings l.
Proof.
  revert i. induction l as [|e l IH]; intros [|i]; simpl; try done.
  - by rewrite patch_keeps_id.
  - f_equal. apply IH.
Qed.

Lemma findIndex_id_strings _id l l' :
  id_strings l = id_strings l' ->
  findIndex (same_id _id) l = None -> findIndex (same_id _id) l' = None.
Proof.
  revert l'. induction l as [|e l IH]; intros [|e' l']; simpl; try done.
  intros [= He Hl]. unfold same_id at 1 3. rewrite He.
  destruct (bool_decide _); [done|].
  destruct (findIndex (same_id _id) l) eqn:Hf; [done|].
  intros _. by rewrite (IH _ Hl).
Qed.

Lemma merge_loop_skips v l2 original l1 :
  truthy (field v "_id") && isValidObjectId (field v "_id") = true ->
  findIndex (same_id (field v "_id")) original = None ->
  forall updated fresh w,
    id_strings updated = id_strings original ->
    merge_loop (l1 ++ v :: l2) updated fresh w = merge_loop (l1 ++ l2) updated fresh w.
Proof.
  intros Hid Hnone. induction l1 as [|a l1 IH]; intros updated fresh w Hids.
  - cbn [app merge_loop]. unfold get_prop.
    destruct (nullish v) eqn:Hv; [by destruct v|].
    rewrite bind_eq, ret_eq, Hid.
    by rewrite (findIndex_id_strings _ _ _ (eq_sym Hids) Hnone).
  - cbn [app merge_loop]. unfold get_prop.
    destruct (nullish a); [done|]. rewrite !bind_eq, !ret_eq.
    destruct (truthy (field a "_id") && isValidObjectId (field a "_id")).
    + destruct (findIndex (same_id (field a "_id")) updated).
      * apply IH. by rewrite id_strings_alter.
      * by apply IH.
    + destruct (truthy (field a "color")); [|by apply IH].
      unfold mbind, M_bind. destruct (new_ObjectId w) as [[oid|e] w1]; [|done].
      by apply IH.
Qed.


End MergeFacts.

(** *** A stranger without a colour, through the whole handler *)

Section Stranger.
Context `{Platform}.
Import Update.

(** The fields of the incoming variant: it names no colour, and its [_id]
    is a valid ObjectId. *)
Variable fields : list (jsstring * JsVal).
Local Abbreviation v := (JObject fields).
Hypothesis no_color : truthy (field v "color") = false.
Hypothesis valid_id : truthy (field v "_id") && isValidObjectId (field v "_id") = true.

(** What parseJsonField makes of it. *)
Local Abbreviation parsed := (JObject (assoc_set (js "color") (field v "color") fields)).

Lemma bind_ext {A B} (m : M A) (f g : A -> M B) w :
  (forall a w', f a w' = g a w') -> (m ≫= f) w = (m ≫= g) w.
Proof. intros Hfg. rewrite !bind_eq. destruct (m w) as [[a|e] w1]; [apply Hfg|done]. Qed.

Lemma try_catch_ext {A} (m m' : M A) h w :
  m w = m' w -> try_catch m h w = try_catch m' h w.
Proof. intros Hm. unfold try_catch. by rewrite Hm. Qed.

Lemma assoc_set_same k x fs : assoc k (assoc_set k x fs) = x.
Proof.
  induction fs as [|[k0 v0] fs IH]; simpl.
  - by rewrite decide_True.
  - destruct (decide (k = k0)) as [->|Hk]; simpl; [by rewrite decide_True|].
    by rewrite decide_False.
Qed.

Lemma falsy_has_no_id c : truthy c = false -> opt_field c "_id" = JUndefined.
Proof.
  by destruct c.
Qed.

Lemma normalize_color_stranger w : normalize_color v w = (Ret parsed, w).
Proof.
  unfold normalize_color, get_prop. cbn [nullish]. rewrite bind_eq, ret_eq.
  rewrite (falsy_has_no_id _ no_color). cbn [nullish]. unfold js_or. cbn [truthy].
  done.
Qed.

Lemma parsed_id : field parsed "_id" = field v "_id".
Proof. unfold field, prop. by rewrite assoc_set_other. Qed.

Lemma parsed_color : field parsed "color" = field v "color".
Proof. unfold field at 1, prop. by rewrite assoc_set_same. Qed.

Lemma validate_variants_skips l1 l2 w :
  validate_variants (l1 ++ v :: l2) w = validate_variants (l1 ++ l2) w.
Proof.
  revert w. induction l1 as [|a l1 IH]; intros w; cbn [app validate_variants].
  - unfold get_prop. cbn [nullish]. rewrite bind_eq, ret_eq, no_color.
    apply andb_true_iff in valid_id as [-> _]. done.
  - apply bind_ext. intros color w'.
    repeat match goal with |- (if ?b then _ else _) _ = _ => destruct b; [done|] end.
    apply IH.
Qed.

Lemma parse_variant_items_skips l1 l2 w :
  exists r r' w',
    parse_variant_items (l1 ++ v :: l2) w = (r, w')
    /\ parse_variant_items (l1 ++ l2) w = (r', w')
    /\ differ_by parsed r r'.
Proof.
  revert w. induction l1 as [|a l1 IH]; intros w.
  - cbn [app parse_variant_items]. cbn [typeof_object nullish negb andb].
    rewrite !bind_eq, normalize_color_stranger, ret_eq.
    rewrite !bind_eq.
    destruct (parse_variant_items l2 w) as [[b|e] w1].
    + exists (Ret (parsed :: b)), (Ret b), w1. split; [done|]. split; [done|].
      left. by exists [], b.
    + exists (Throw e), (Throw e), w1. split; [done|]. split; [done|]. right. eauto.
  - cbn [app parse_variant_items]. rewrite !bind_eq.
    match goal with |- context [match ?m w with _ => _ end] => destruct (m w) as [[here|e] w0] end.
    2:{ exists (Throw e), (Throw e), w0. split; [done|]. split; [done|]. right. eauto. }
    rewrite !bind_eq.
    destruct (IH w0) as (r & r' & w' & -> & -> & [(a0 & b & -> & ->)|(e & -> & ->)]).
    + exists (Ret (here ++ a0 ++ parsed :: b)), (Ret (here ++ a0 ++ b)), w'.
      split; [done|]. split; [done|]. left. exists (here ++ a0), b.
      by rewrite <- !app_assoc.
    + exists (Throw e), (Throw e), w'. split; [done|]. split; [done|]. right. eauto.
Qed.

Lemma named_colors_skips a b w :
  named_colors (a ++ parsed :: b) w = named_colors (a ++ b) w.
Proof.
  unfold named_colors. revert w. induction a as [|x a IH]; intros w.
  - cbn [app mapM]. rewrite !bind_eq.
    unfold color_of_variant at 1, get_prop. cbn [nullish].
    rewrite bind_eq, ret_eq, parsed_color.
    assert ((typeof_object (field v "color")
             && truthy (opt_field (field v "color") "_id")) = false) as ->.
    { by rewrite (falsy_has_no_id _ no_color), andb_false_r. }
    rewrite ret_eq, !bind_eq.
    destruct (mapM color_of_variant b w) as [[cs|e] w1]; [|done].
    rewrite !ret_eq. rewrite filter_cons_False; [done|]. rewrite no_color. by intros [].
  - cbn [app mapM]. rewrite !bind_eq.
    destruct (color_of_variant x w) as [[c|e] w0]; [|done].
    specialize (IH w0). rewrite !bind_eq in IH. rewrite !bind_eq.
    destruct (mapM color_of_variant (a ++ parsed :: b) w0) as [[cs|e] w1];
      destruct (mapM color_of_variant (a ++ b) w0) as [[cs'|e'] w1'];
      rewrite ?ret_eq in *; try done.
    injection IH as Hcs <-. by rewrite !filter_cons, Hcs.
Qed.

Lemma merge_variants_skips product a b w :
  findIndex (same_id (field v "_id")) (pop_variants product) = None ->
  merge_variants product (JArray (a ++ parsed :: b)) w
  = merge_variants product (JArray (a ++ b)) w.
Proof.
  intros Hnone. unfold merge_variants. cbn [truthy isArray andb items_of].
  unfold mbind, M_bind.
  rewrite (merge_loop_skips parsed b (pop_variants product) a); rewrite ?parsed_id; done.
Qed.

Lemma mapM_ext {A B} (f g : A -> M B) l w :
  (forall x w', f x w' = g x w') -> mapM f l w = mapM g l w.
Proof.
  intros Hfg. revert w. induction l as [|x l IH]; intros w; [done|].
  cbn [mapM]. rewrite !bind_eq, Hfg.
  destruct (g x w) as [[y|e] w1]; [|done].
  by rewrite !bind_eq, IH.
Qed.

Lemma uploaded_images_ext body body' index files w :
  same_but_variants body body' ->
  Create.uploaded_images body' index files w = Create.uploaded_images body index files w.
Proof.
  intros Hsame. unfold Create.uploaded_images. apply mapM_ext.
  intros [i file] w'. apply bind_ext. intros path w1. apply bind_ext. intros filename w2.
  rewrite Hsame; [reflexivity|]. simpl. intros [=].
Qed.

Lemma replace_images_ext req req' product l w :
  req_files req' = req_files req ->
  same_but_variants (req_body req) (req_body req') ->
  replace_images req' product l w = replace_images req product l w.
Proof.
  intros Hfiles Hsame. unfold replace_images. rewrite Hfiles. apply mapM_ext.
  intros [index variant] w'.
  match goal with |- (if ?b then _ else _) _ = _ => destruct b; [|reflexivity] end.
  apply bind_ext. intros _id w1. apply bind_ext. intros [] w2.
  rewrite !bind_eq. by rewrite (uploaded_images_ext _ _ _ _ _ Hsame).
Qed.

Lemma same_field body body' name :
  same_but_variants body body' -> js name <> js "variants" ->
  field body' name = field body name.
Proof. intros Hsame Hne. by apply Hsame. Qed.

Lemma checks_skips req req' product l1 l2 w :
  req_id req' = req_id req ->
  req_files req' = req_files req ->
  same_but_variants (req_body req) (req_body req') ->
  field (req_body req) "variants" = JArray (l1 ++ v :: l2) ->
  field (req_body req') "variants" = JArray (l1 ++ l2) ->
  findIndex (same_id (field v "_id")) (pop_variants product) = None ->
  checks req product w = checks req' product w.
Proof.
  intros Hid Hfiles Hsame Hv Hv' Hnone. unfold checks.
  assert (nullish (req_body req) = false) as -> by (by destruct (req_body req)).
  assert (nullish (req_body req') = false) as -> by (by destruct (req_body req')).
  rewrite Hv, Hv', Hid, Hfiles.
  rewrite !(same_field _ _ _ Hsame) by (simpl; by intros [=]).
  cbn [truthy isArray andb items_of].
  rewrite !bind_eq, validate_variants_skips.
  destruct (validate_variants (l1 ++ l2) w) as [[[response|]|e] w1]; try reflexivity.
  rewrite !bind_eq. unfold try_catch.
  change (parse_or_keep product (JArray ?l) Create.F_variants)
    with (parse_variant_items l ≫= fun vs => mret (JArray vs)).
  rewrite !bind_eq.
  destruct (parse_variant_items_skips l1 l2 w1)
    as (r & r' & w2 & -> & -> & [(a & b & -> & ->)|(e & -> & ->)]).
  2:{ by destruct e. }
  rewrite !ret_eq, !bind_eq.
  destruct (parse_or_keep product (field (req_body req) "tags") Create.F_tags w2)
    as [[tags|e] w3]; [|by destruct e].
  rewrite !bind_eq.
  destruct (parse_or_keep product (field (req_body req) "specifications")
              Create.F_specifications w3) as [[specifications|e] w4]; [|by destruct e].
  rewrite !bind_eq.
  destruct (parse_or_keep product (field (req_body req) "collections")
              Create.F_collections w4) as [[collections|e] w5]; [|by destruct e].
  rewrite !ret_eq. cbn [truthy isArray andb items_of].
  rewrite !bind_eq, named_colors_skips.
  destruct (named_colors (a ++ b) w5) as [[colorIds|e] w6]; [|reflexivity].
  rewrite !bind_eq.
  destruct (Color_find_in colorIds w6) as [[validColors|e] w7]; [|reflexivity].
  rewrite !ret_eq.
  destruct (negb _); [reflexivity|].
  rewrite !bind_eq, (merge_variants_skips _ _ _ _ Hnone).
  destruct (merge_variants product (JArray (a ++ b)) w7) as [[updatedVariants|e] w8];
    [|reflexivity].
  rewrite !bind_eq.
  destruct (truthy (req_files req) && has_keys (req_files req)).
  - rewrite (replace_images_ext _ _ _ _ _ Hfiles Hsame). reflexivity.
  - reflexivity.
Qed.

Lemma atomic_unit_ext req req' product tags specifications collections updatedVariants slug w :
  req_id req' = req_id req ->
  same_but_variants (req_body req) (req_body req') ->
  atomic_unit req' product tags specifications collections updatedVariants slug w
  = atomic_unit req product tags specifications collections updatedVariants slug w.
Proof.
  intros Hid Hsame. unfold atomic_unit, updateData, persist.
  rewrite Hid. by rewrite !(same_field _ _ _ Hsame) by (simpl; by intros [=]).
Qed.

Lemma in_session_ext {A} (unit unit' : M A) h w :
  (forall w', unit' w' = unit w') -> in_session unit' h w = in_session unit h w.
Proof.
  intros Hunit. unfold in_session. apply bind_ext. intros [] w1.
  apply bind_ext. intros [] w2. unfold finally, try_catch. by rewrite Hunit.
Qed.

(** Through the whole handler.  A request whose variants hold, at any
    place, a variant that names no colour and has a valid [_id] that none
    of the product's variants has, is answered as the request without that
    variant is, and leaves the same state. *)
Lemma updateProduct_ignores_unmatched_variant req req' l1 l2 w o p :
  req_id req' = req_id req ->
  req_files req' = req_files req ->
  same_but_variants (req_body req) (req_body req') ->
  field (req_body req) "variants" = JArray (l1 ++ v :: l2) ->
  field (req_body req') "variants" = JArray (l1 ++ l2) ->
  castObjectId (req_id req) = Some o ->
  products (db w) !! o = Some p ->
  findIndex (same_id (field v "_id")) (pop_variants (populate (db w) p)) = None ->
  updateProduct req w = updateProduct req' w.
Proof.
  intros Hid Hfiles Hsame Hv Hv' Ho Hp Hnone. unfold updateProduct. rewrite Hid.
  destruct (negb _); [done|].
  rewrite !bind_eq. unfold Product_findById. rewrite Ho.
  rewrite !bind_eq. unfold read at 1 2. rewrite !bind_eq. unfold store_call at 1 2.
  destruct (faults w (clock w)); [done|].
  cbn [gets mret M_ret]. change (db (tick w)) with (db w). rewrite Hp.
  rewrite !bind_eq. cbn [gets]. change (db (tick w)) with (db w).
  rewrite !bind_eq.
  rewrite (checks_skips req req' _ l1 l2 _ Hid Hfiles Hsame Hv Hv' Hnone).
  destruct (checks req' (populate (db w) p) (tick w)) as [[[response|prepared]|e] w1];
    try reflexivity.
  unfold transaction. apply in_session_ext. intros w'.
  symmetry. by apply atomic_unit_ext.
Qed.

End Stranger.


(** The handler on such a request: the shirt is sent its three variants
    and, among them, the stranger.  The update is answered with OK and
    stores what it stores for the three variants alone. *)
Example updateProduct_with_unmatched_variant :
  let w := Sample.world true ∅ Sample.no_faults in
  let update variants :=
    @Update.updateProduct Reference.platform (Sample.shirt_update_with variants []) w in
  let three := [Sample.resent 200 10; Sample.resent 201 12; Sample.resent 202 11] in
  let four := [Sample.resent 200 10; Sample.stranger; Sample.resent 201 12;
               Sample.resent 202 11] in
  statusCode (Sample.answer (update four).1) = OK
  /\ update four = update three
  /\ (length ∘ p_variants <$> products (db (update four).2) !! 100%N) = Some 3%nat.
Proof. vm_compute. repeat split; reflexivity. Qed.
(* ===================================================================== *)
(** ** The customer queries *)
(* ===================================================================== *)

Section FilterFacts.
Context `{Platform}.
Import Filter.

Lemma yields_try_catch {A} (m : M A) h (Q : A -> Prop) :
  yields m Q -> (forall e, yields (h e) Q) -> yields (try_catch m h) Q.
Proof.
  intros Hm Hh w a w'. unfold try_catch.
  destruct (m w) as [[a1|e] w1] eqn:E.
  - intros [= <- <-]. by eapply Hm.
  - destruct e; try done; by apply Hh.
Qed.

Lemma yields_weaken {A} (m : M A) (Q Q' : A -> Prop) :
  yields m Q -> (forall a, Q a -> Q' a) -> yields m Q'.
Proof. intros Hm HQ w a w' Hrun. apply HQ. by eapply Hm. Qed.

Lemma category_filter_clauses category :
  yields (category_filter category)
         (fun x => rejection x /\ clauses_are (fun q => no_quantity_clause q = true) x).
Proof.
  unfold category_filter.
  repeat first
    [ apply yields_throw
    | apply yields_ret; split; [simpl; eauto|done]
    | apply yields_bind_any; intros
    | match goal with
      | |- yields (match ?x with _ => _ end) _ => destruct x
      end ].
Qed.

Lemma id_filter_clauses what mk ids :
  (forall os, is_quantity_clause (mk os) = false) ->
  yields (id_filter what mk ids)
         (fun x => rejection x /\ clauses_are (fun q => no_quantity_clause q = true) x).
Proof.
  intros Hmk. unfold id_filter.
  destruct (forallb _ _); [|apply yields_ret; split; [simpl; eauto|done]].
  apply yields_bind_any. intros os. apply yields_ret. split; [done|].
  unfold clauses_are, no_quantity_clause. simpl. by rewrite Hmk.
Qed.


Lemma no_quantity_clause_app q1 q2 :
  no_quantity_clause (q1 ++ q2) = no_quantity_clause q1 && no_quantity_clause q2.
Proof. apply forallb_app. Qed.

Lemma filter_answer_rejection req m : filter_answer req (respond BAD_REQUEST m).
Proof. split; [eauto|done]. Qed.

Lemma filterCustomerProducts_answer req :
  yields (filterCustomerProducts req) (filter_answer req).
Proof.
  unfold filterCustomerProducts.
  destruct (nullish _); [apply yields_throw|].
  destruct (_ || _); [apply yields_ret, filter_answer_rejection|].
  eapply yields_bind; [apply category_filter_clauses|].
  intros [response|categoryClauses] [Hrej Hcat];
    [destruct Hrej as [m ->]; apply yields_ret, filter_answer_rejection|].
  apply yields_bind_any. intros sizeArray.
  eapply yields_bind.
  { instantiate (1 := fun x => rejection x
                             /\ clauses_are (fun q => no_quantity_clause q = true) x).
    destruct (truthy _); [|by apply yields_ret].
    apply yields_bind_any. intros [|c l]; [apply yields_ret; split; [simpl; eauto|done]|].
    by apply id_filter_clauses. }
  intros [response|colorClauses] [Hrej1 Hcol];
    [destruct Hrej1 as [m ->]; apply yields_ret, filter_answer_rejection|].
  eapply yields_bind.
  { instantiate (1 := fun x => rejection x
                             /\ clauses_are (fun q => no_quantity_clause q = true) x).
    destruct (truthy _); [|by apply yields_ret].
    apply yields_bind_any. intros [|c l]; [apply yields_ret; split; [simpl; eauto|done]|].
    by apply id_filter_clauses. }
  intros [response|brandClauses] [Hrej2 Hbrand];
    [destruct Hrej2 as [m ->]; apply yields_ret, filter_answer_rejection|].
  apply yields_bind_any. intros collectionsArray.
  apply yields_bind_any. intros tagsArray.
  destruct (price_filter _ _) as [response|priceFilter] eqn:Hprice.
  { unfold price_filter in Hprice.
    repeat match type of Hprice with
           | (if ?b then _ else _) = _ => destruct b
           end; try done; injection Hprice as <-;
      apply yields_ret, filter_answer_rejection. }
  apply yields_bind_any. intros sort.
  apply yields_try_catch.
  2:{ intros e. apply yields_ret. split; [|done].
      intros [response Hr]. rewrite Hprice in Hr. done. }
  apply yields_bind_any. intros totalProducts.
  apply yields_bind_any. intros [].
  apply yields_bind_any. intros [].
  apply yields_bind_any. intros [].
  apply yields_ret. split; [intros [response Hr]; rewrite Hprice in Hr; done|].
  intros page [= <-]. cbn [pg_query].
  simpl in Hcat, Hcol, Hbrand.
  assert (forall before after : Query,
             no_quantity_clause before = true -> no_quantity_clause after = true ->
             exists b a,
               before ++ availability_filter (field (req_query req) "available") ++ after
               = b ++ availability_filter (field (req_query req) "available") ++ a
               /\ no_quantity_clause b = true /\ no_quantity_clause a = true)
    as Hshape by (intros b a ? ?; by exists b, a).
  destruct (field (req_query req) "soldOut");
    match goal with
    | |- exists b a, (?X ++ availability_filter _) ++ ?s = _ /\ _ =>
        rewrite <- app_assoc; apply Hshape; [|done]
    | |- exists b a, ?X ++ availability_filter _ = _ /\ _ =>
        rewrite <- (app_nil_r (X ++ availability_filter _)), <- app_assoc;
        apply Hshape; [|done]
    end.
  all: unfold no_quantity_clause in *.
  all: destruct sizeArray, collectionsArray, tagsArray, priceFilter;
    rewrite ?forallb_app; cbn [forallb is_quantity_clause negb andb];
    rewrite ?forallb_app, ?Hcat, ?Hcol, ?Hbrand; done.
Qed.



Lemma price_filter_rejects minPrice maxPrice :
  (exists x, bound_is minPrice x /\ num_lt x (num_of_Z 0) = true)
  \/ (exists y, bound_is maxPrice y /\ num_lt y (num_of_Z 0) = true)
  \/ (exists x y, bound_is minPrice x /\ bound_is maxPrice y /\ num_lt y x = true) ->
  exists m, price_filter minPrice maxPrice = inl (respond BAD_REQUEST m).
Proof.
  unfold price_filter, bound_is.
  intros [(x & (Ht & Hx & Hn) & Hlt)|[(y & (Ht & Hy & Hn) & Hlt)
                                     |(x & y & (Htx & Hx & Hnx) & (Hty & Hy & Hny) & Hlt)]].
  - rewrite Ht, Hx. cbn [orb]. destruct x; try done; rewrite Hlt; eauto.
  - rewrite Ht, Hy, orb_true_r. destruct y; try done; rewrite Hlt;
      repeat match goal with |- context [if ?b then _ else _] => destruct b end; eauto.
  - rewrite Htx, Hty, Hx, Hy. cbn [orb].
    destruct x; try done; destruct y; try done; rewrite ?Hlt;
      repeat match goal with |- context [if ?b then _ else _] => destruct b end; eauto.
Qed.

(** filterCustomerProducts refuses price bounds that are negative or
    inverted: whatever it answers then is BAD_REQUEST, and no page. *)
Lemma filterCustomerProducts_rejects_price_bounds req w r w' :
  let q := req_query req in
  filterCustomerProducts req w = (Ret r, w') ->
  (exists x, bound_is (field q "minPrice") x /\ num_lt x (num_of_Z 0) = true)
  \/ (exists y, bound_is (field q "maxPrice") y /\ num_lt y (num_of_Z 0) = true)
  \/ (exists x y, bound_is (field q "minPrice") x /\ bound_is (field q "maxPrice") y
                  /\ num_lt y x = true) ->
  statusCode r = BAD_REQUEST /\ data r = None.
Proof.
  intros q Hrun Hbad.
  destruct (filterCustomerProducts_answer req _ _ _ Hrun) as [Hprice _].
  destruct (price_filter_rejects _ _ Hbad) as [m Hm].
  destruct Hprice as [m' ->]; eauto.
Qed.

End FilterFacts.



(** C4, at [minPrice=50, maxPrice=10] and at [minPrice=-5].
    filterCustomerProducts answers both with BAD_REQUEST;
    getCustomerProducts answers both with OK, having asked the store for
    the products with a base price of at least 50 and at most 10, and of
    at least -5. *)
Example getCustomerProducts_runs_refused_price_bounds :
  let inverted := Sample.query [("minPrice"%string, JString (js "50"));
                                ("maxPrice"%string, JString (js "10"))] in
  let negative := Sample.query [("minPrice"%string, JString (js "-5"))] in
  let w := Sample.world true ∅ Sample.no_faults in
  let filter req := Sample.answer (@Filter.filterCustomerProducts Reference.platform req w).1 in
  let get req := Sample.answer (@Filter.getCustomerProducts Reference.platform req w).1 in
  filter inverted
  = respond BAD_REQUEST (Text "Minimum price cannot be greater than maximum price")
  /\ filter negative = respond BAD_REQUEST (Text "Minimum price cannot be negative")
  /\ statusCode (get inverted) = OK
  /\ Filter.pg_query <$> data (get inverted)
     = Some [Filter.Q_isVisible true; Filter.Q_isSoldOut false;
             Filter.Q_base_price {| Filter.r_gte := Some (Fin (50 # 1)%Q);
                                    Filter.r_lte := Some (Fin (10 # 1)%Q) |}]
  /\ statusCode (get negative) = OK
  /\ Filter.pg_query <$> data (get negative)
     = Some [Filter.Q_isVisible true; Filter.Q_isSoldOut false;
             Filter.Q_base_price {| Filter.r_gte := Some (Fin (-5 # 1)%Q);
                                    Filter.r_lte := None |}].
Proof. vm_compute. repeat split; reflexivity. Qed.
(* ===================================================================== *)
(** ** What a handler leaves alone *)
(* ===================================================================== *)

Section Frame.
Context `{Platform} {X : Type} (f : World -> X).

Lemma frame_ret {A} (a : A) : keeps f (mret a).
Proof. by intros w res w' [= <- <-]. Qed.

Lemma frame_throw {A} e : keeps f (@throw A e).
Proof. by intros w res w' [= <- <-]. Qed.

Lemma frame_gets {A} (g : World -> A) : keeps f (gets g).
Proof. by intros w res w' [= <- <-]. Qed.

Lemma frame_bind {A B} (m : M A) (k : A -> M B) :
  keeps f m -> (forall a, keeps f (k a)) -> keeps f (m ≫= k).
Proof.
  intros Hm Hk w res w'. rewrite bind_eq.
  destruct (m w) as [[a|e] w1] eqn:E.
  - intros E2. rewrite (Hk _ _ _ _ E2). by eapply Hm.
  - intros [= <- <-]. by eapply Hm.
Qed.

Lemma frame_try_catch {A} (m : M A) h :
  keeps f m -> (forall e, keeps f (h e)) -> keeps f (try_catch m h).
Proof.
  intros Hm Hh w res w'. unfold try_catch.
  destruct (m w) as [[a|e] w1] eqn:E.
  - intros [= <- <-]. by eapply Hm.
  - destruct e; try (intros E2; rewrite (Hh _ _ _ _ E2); by eapply Hm).
    intros [= <- <-]. by eapply Hm.
Qed.

Lemma frame_mapM {A B} (g : A -> M B) l : (forall x, keeps f (g x)) -> keeps f (mapM g l).
Proof.
  intros Hg. induction l as [|x l IH]; simpl; [apply frame_ret|].
  apply frame_bind; [apply Hg|]. intros y.
  apply frame_bind; [apply IH|]. intros ys. apply frame_ret.
Qed.

Lemma frame_forEach {A} (g : A -> M unit) l : (forall x, keeps f (g x)) -> keeps f (forEach g l).
Proof.
  intros Hg. induction l as [|x l IH]; simpl; [apply frame_ret|].
  apply frame_bind; [apply Hg|]. intros []. apply IH.
Qed.

(** A component of the world the store driver does not touch. *)
Hypothesis f_tick : forall w, f (tick w) = f w.
Hypothesis f_db : forall d w, f (set_db d w) = f w.
Hypothesis f_txn : forall t w, f (set_txn t w) = f w.

Lemma frame_store_call : keeps f store_call.
Proof. intros w res w'. unfold store_call. by destruct (faults w (clock w)); intros [= <- <-]. Qed.

Lemma frame_read s : keeps f (read s).
Proof. apply frame_bind; [apply frame_store_call|]. intros []. apply frame_gets. Qed.

Lemma frame_write s op : keeps f (write s op).
Proof.
  apply frame_bind; [apply frame_store_call|]. intros [] w res w' [= <- <-].
  destruct s, (txn w); by rewrite ?f_txn, ?f_db.
Qed.

Lemma frame_cast_ids l : keeps f (cast_ids l).
Proof.
  induction l as [|v l IH]; simpl; [apply frame_ret|].
  destruct (castObjectId v); [|apply frame_throw].
  apply frame_bind; [apply IH|]. intros os. apply frame_ret.
Qed.

Lemma frame_Category_inc v d : keeps f (Category_inc v d).
Proof. unfold Category_inc. destruct (castObjectId v); [apply frame_write|apply frame_throw]. Qed.

Lemma frame_adjust_colors ids d : keeps f (adjust_colors ids d).
Proof.
  unfold adjust_colors, Color_inc_in. destruct ids; [apply frame_ret|].
  apply frame_bind; [apply frame_cast_ids|]. intros os. apply frame_write.
Qed.

Lemma frame_commitTransaction : keeps f commitTransaction.
Proof.
  apply frame_bind; [apply frame_store_call|]. intros [] w res w' [= <- <-].
  by rewrite f_txn, f_db.
Qed.

Lemma frame_abortTransaction : keeps f abortTransaction.
Proof.
  intros w res w'. unfold abortTransaction.
  destruct (txn w); intros [= <- <-]; by rewrite ?f_txn.
Qed.

Lemma frame_in_session {A} (unit : M A) h :
  keeps f unit -> (forall e, keeps f (h e)) -> keeps f (in_session unit h).
Proof.
  intros Hunit Hh. unfold in_session.
  apply frame_bind; [apply frame_store_call|]. intros [].
  apply frame_bind; [by intros w res w' [= <- <-]; rewrite f_txn|]. intros [].
  intros w res w'. unfold finally.
  destruct (try_catch unit _ w) as [r w1] eqn:E. intros [= <- <-].
  unfold endSession. rewrite f_txn.
  revert E. apply frame_try_catch; [done|]. intros e.
  apply frame_bind; [apply frame_abortTransaction|]. intros []. apply Hh.
Qed.

End Frame.

Section DeleteFiles.
Context `{Platform}.
Import Delete.

Lemma set_uploads_same w : set_uploads (uploads w) w = w.
Proof. by destruct w. Qed.

Lemma unlink_free name w :
  uploads w !! name <> Some Locked ->
  (existsSync name ≫= fun there : bool => if there then unlinkSync name else mret tt) w
  = (Ret tt, set_uploads (delete name (uploads w)) w).
Proof.
  intros Hfree. rewrite bind_eq. unfold existsSync, gets.
  destruct (uploads w !! name) as [[|]|] eqn:Hf; [|done|].
  - rewrite bool_decide_true by eauto. unfold unlinkSync. by rewrite Hf.
  - rewrite bool_decide_false by (by intros [? ?]).
    by rewrite delete_id, set_uploads_same.
Qed.

Lemma unlinked_cons (n : jsstring) (names : list jsstring) (u : gmap jsstring FileState) :
  unlinked (n :: names) u = unlinked names (delete n u).
Proof. done. Qed.

Lemma unlinked_free (names : list jsstring) (u : gmap jsstring FileState) (f : jsstring) :
  u !! f <> Some Locked -> unlinked names u !! f <> Some Locked.
Proof.
  revert u. induction names as [|n names IH]; intros u Hu; [done|].
  rewrite unlinked_cons. apply IH. destruct (decide (n = f)) as [->|Hne].
  - by rewrite lookup_delete_eq.
  - by rewrite lookup_delete_ne.
Qed.

Lemma unlinked_gone (names : list jsstring) (u : gmap jsstring FileState) (f : jsstring) :
  f ∈ names -> unlinked names u !! f = None.
Proof.
  revert u. induction names as [|n names IH]; intros u; [by intros ?%elem_of_nil|].
  intros [->|Hin]%elem_of_cons; rewrite unlinked_cons; [|by apply IH].
  clear IH. assert (delete n u !! n = None) as Hn by apply lookup_delete_eq.
  revert Hn. generalize (delete n u). induction names as [|m names IH]; intros u' Hu'; [done|].
  rewrite unlinked_cons. apply IH. destruct (decide (m = n)) as [->|Hne].
  - apply lookup_delete_eq.
  - by rewrite lookup_delete_ne.
Qed.

Lemma unlinked_other (names : list jsstring) (u : gmap jsstring FileState) (f : jsstring) :
  f ∉ names -> unlinked names u !! f = u !! f.
Proof.
  revert u. induction names as [|n names IH]; intros u Hf; [done|].
  rewrite unlinked_cons, IH by (intros ?; apply Hf; by right).
  apply lookup_delete_ne. intros ->. apply Hf. by left.
Qed.

Lemma unlinked_app (l1 l2 : list jsstring) (u : gmap jsstring FileState) :
  unlinked (l1 ++ l2) u = unlinked l2 (unlinked l1 u).
Proof. apply foldl_app. Qed.

Lemma unlink_images imgs w :
  (forall img, img ∈ imgs -> uploads w !! path_basename (img_url img) <> Some Locked) ->
  forEach (fun img =>
             let imagePath := path_basename (img_url img) in
             existsSync imagePath ≫= fun there : bool =>
             if there then unlinkSync imagePath else mret tt) imgs w
  = (Ret tt, set_uploads (unlinked (map (fun img => path_basename (img_url img)) imgs)
                                   (uploads w)) w).
Proof.
  revert w. induction imgs as [|img imgs IH]; intros w Hfree.
  - cbn. by rewrite set_uploads_same.
  - cbn [forEach]. rewrite bind_eq. cbn zeta.
    rewrite unlink_free by (apply Hfree; left).
    rewrite IH; [done|].
    intros i Hi. cbn [uploads set_uploads].
    destruct (decide (path_basename (img_url img) = path_basename (img_url i))) as [<-|Hne].
    + by rewrite lookup_delete_eq.
    + rewrite lookup_delete_ne by done. apply Hfree. by right.
Qed.

Lemma delete_images_free product w :
  (forall f, f ∈ image_files product -> uploads w !! f <> Some Locked) ->
  delete_images product w
  = (Ret tt, set_uploads (unlinked (image_files product) (uploads w)) w).
Proof.
  unfold delete_images, image_files. generalize (p_variants product). clear product.
  intros variants. revert w. induction variants as [|v variants IH]; intros w Hfree.
  - cbn. by rewrite set_uploads_same.
  - cbn [forEach map concat]. rewrite bind_eq, unlink_images.
    2:{ intros img Hi. apply Hfree. cbn [map concat]. rewrite map_app.
        apply elem_of_app. left.
        apply list_elem_of_In. apply (in_map (fun i => path_basename (img_url i))).
        by apply list_elem_of_In. }
    rewrite IH.
    2:{ intros f Hf. cbn [uploads set_uploads]. apply unlinked_free, Hfree.
        cbn [map concat]. rewrite map_app. apply elem_of_app. by right. }
    cbn [uploads set_uploads]. by rewrite map_app, unlinked_app.
Qed.

Lemma store_call_ok w : faults w (clock w) = false -> store_call w = (Ret tt, tick w).
Proof. unfold store_call. by intros ->. Qed.

(** The unit after the images: it keeps the upload directory as it is. *)
Lemma frame_uploads_rest id product :
  keeps uploads
    (Category_inc (JObjectId (p_category product)) (-1) ;;
     adjust_colors (set_values (color_strings product)) (-1) ;;
     eval_Image ;;
     (match castObjectId id with
      | None => throw CastError
      | Some o => write true (W_deleteProduct o)
      end) ;;
     commitTransaction ;;
     mret (respond OK (PRODUCT_MESSAGES "PRODUCT_DELETED") : Response unit)).
Proof.
  apply frame_bind; [by apply frame_Category_inc|]. intros [].
  apply frame_bind; [by apply frame_adjust_colors|]. intros [].
  apply frame_bind.
  { intros w res w'. unfold eval_Image. by destruct (global_Image w); intros [= <- <-]. }
  intros []. apply frame_bind.
  { destruct (castObjectId id); [by apply frame_write|apply frame_throw]. }
  intros []. apply frame_bind; [by apply frame_commitTransaction|]. intros [].
  apply frame_ret.
Qed.

(** X1. deleteProduct where [Image] is not bound, as in Node.js: for a
    product that is there, with a store that answers every call and image
    files that can be removed, the handler removes the files, throws, and
    leaves the product and every counter as they were. *)
Theorem deleteProduct_unlinks_and_fails id w res w' o product :
  (forall n, faults w n = false) ->
  global_Image w = false ->
  castObjectId id = Some o ->
  products (db w) !! o = Some product ->
  (forall f, f ∈ image_files product -> uploads w !! f <> Some Locked) ->
  deleteProduct id w = (res, w') ->
  (exists e, res = Throw e)
  /\ db w' = db w
  /\ products (db w') !! o = Some product
  /\ forall f, uploads w' !! f = if bool_decide (f ∈ image_files product) then None
                                else uploads w !! f.
Proof.
  intros Hfaults Himage Ho Hp Hfree Hrun.
  destruct (deleteProduct_needs_Image _ _ _ _ Himage Hrun) as [Hdb _].
  revert Hrun. unfold deleteProduct. rewrite bind_eq. unfold Product_findById. rewrite Ho.
  rewrite bind_eq. unfold read. rewrite bind_eq, store_call_ok by apply Hfaults.
  cbn [gets mret M_ret]. change (db (tick w)) with (db w). rewrite Hp.
  unfold in_session, startSession, startTransaction.
  rewrite bind_eq, store_call_ok by apply Hfaults.
  rewrite bind_eq. unfold modify at 1. unfold finally, try_catch.
  set (w3 := set_txn (Some []) (tick (tick w))).
  destruct (atomic_unit id product w3) as [[a|e] w5] eqn:E.
  { apply delete_unit_reads_Image in E. simpl in E. congruence. }
  assert (forall f, uploads w5 !! f = if bool_decide (f ∈ image_files product) then None
                                      else uploads w !! f) as Hup.
  { unfold atomic_unit in E. rewrite bind_eq, delete_images_free in E by done.
    rewrite (frame_uploads_rest id product _ _ _ E). cbn [uploads set_uploads w3 set_txn tick].
    intros f. destruct (bool_decide (f ∈ image_files product)) eqn:Hin.
    - apply bool_decide_eq_true in Hin. by apply unlinked_gone.
    - apply bool_decide_eq_false in Hin. by apply unlinked_other. }
  assert (forall r w6, (abortTransaction ;; (throw e : M (Response unit))) w5 = (r, w6) ->
                       (exists e', r = Throw e') /\ uploads w6 = uploads w5) as Habort.
  { intros r w6. rewrite bind_eq. unfold abortTransaction.
    destruct (txn w5); intros [= <- <-]; eauto. }
  assert (forall T : Result (Response unit) * World,
             (exists e', T.1 = Throw e') /\ uploads T.2 = uploads w5 ->
             (let '(r, w6) := T in (r, endSession w6)) = (res, w') ->
             (exists e', res = Throw e') /\ uploads w' = uploads w5) as Hfin.
  { by intros [r w6] [Hr Hu] [= <- <-]. }
  intros Hrun. apply Hfin in Hrun as [Hres Hu].
  2:{ destruct e; try (apply Habort; by destruct (_ ;; _)). simpl. eauto. }
  split; [done|]. split; [done|]. split; [by rewrite Hdb|].
  intros f. by rewrite Hu.
Qed.

(** X2. deleteProduct cannot delete where [Image] is not bound, as in
    Node.js.  Whatever the store and the file system do, the documents
    stay as they were; the only answer it ever gives is NOT_FOUND; and for
    a product that is stored it gives no answer at all: it throws. *)
Theorem deleteProduct_without_Image id w res w' :
  global_Image w = false ->
  deleteProduct id w = (res, w') ->
  db w' = db w
  /\ (forall r, res = Ret r -> statusCode r = NOT_FOUND)
  /\ (forall o, castObjectId id = Some o -> is_Some (products (db w) !! o) ->
        exists e, res = Throw e).
Proof.
  intros Himage Hrun.
  destruct (deleteProduct_needs_Image _ _ _ _ Himage Hrun) as [Hdb Hret].
  split; [done|]. split; [done|]. intros o Ho [product Hp].
  revert Hrun. unfold deleteProduct. rewrite bind_eq. unfold Product_findById. rewrite Ho.
  rewrite bind_eq. unfold read. rewrite bind_eq. unfold store_call at 1.
  destruct (faults w (clock w)); [intros [= <- <-]; eauto|].
  cbn [gets mret M_ret]. change (db (tick w)) with (db w). rewrite Hp.
  unfold in_session, startSession, startTransaction.
  rewrite bind_eq. unfold store_call at 1.
  destruct (faults (tick w) (clock (tick w))); [intros [= <- <-]; eauto|].
  rewrite bind_eq. unfold modify at 1. unfold finally, try_catch.
  set (w3 := set_txn (Some []) (tick (tick w))).
  destruct (atomic_unit id product w3) as [[a|e] w5] eqn:E.
  { apply delete_unit_reads_Image in E. simpl in E. congruence. }
  assert (forall T : Result (Response unit) * World,
             (exists e', T.1 = Throw e') ->
             (let '(r, w6) := T in (r, endSession w6)) = (res, w') ->
             exists e', res = Throw e') as Hfin.
  { by intros [r w6] Hr [= <- <-]. }
  apply Hfin. destruct e; simpl; eauto.
  all: rewrite bind_eq; unfold abortTransaction; destruct (txn w5); simpl; eauto.
Qed.

End DeleteFiles.

(** The shirt in Node.js's scope, with a store that fails on the third
    call. *)
Lemma deleteProduct_without_Image_witness :
  let w := Sample.world false ∅ (fun n => Nat.eqb n 2) in
  let run := @Delete.deleteProduct Reference.platform (Sample.id_string 100) w in
  db run.2 = db w
  /\ (forall r, run.1 = Ret r -> statusCode r = NOT_FOUND)
  /\ (forall o, @castObjectId Reference.platform (Sample.id_string 100) = Some o ->
        is_Some (products (db w) !! o) -> exists e, run.1 = Throw e).
Proof.
  intros w run.
  apply (@deleteProduct_without_Image Reference.platform (Sample.id_string 100) w run.1 run.2);
    [reflexivity|apply surjective_pairing].
Defined.

(** The shirt's image file is in the upload directory; the deletion fails
    on [Image], the shirt stays, the file is gone. *)
Lemma deleteProduct_unlinks_and_fails_witness :
  let w := Sample.world false {[ js "a.jpg" := Removable ]} Sample.no_faults in
  let run := @Delete.deleteProduct Reference.platform (Sample.id_string 100) w in
  (exists e, run.1 = Throw e)
  /\ db run.2 = db w
  /\ products (db run.2) !! 100%N = Some Sample.shirt
  /\ forall f, uploads run.2 !! f
               = if bool_decide (f ∈ @image_files Reference.platform Sample.shirt) then None
                 else uploads w !! f.
Proof.
  intros w run.
  apply (@deleteProduct_unlinks_and_fails Reference.platform (Sample.id_string 100) w
           run.1 run.2 100%N Sample.shirt);
    [done|reflexivity|reflexivity|reflexivity| |apply surjective_pairing].
  intros f Hf. vm_compute in Hf. apply list_elem_of_In in Hf as [<-|[]].
  vm_compute. discriminate.
Defined.
#[local] Hint Resolve quiet_Category_findById quiet_Brand_findById : quiet.

(* ===================================================================== *)
(** ** createProduct: what it commits and when *)
(* ===================================================================== *)

Section CreateMore.
Context `{Platform}.
Import Create.

Lemma variant_colors_pure variants w res w' :
  variant_colors variants w = (res, w') ->
  w' = w /\ forall cs, res = Ret cs -> cs = colours_named variants.
Proof.
  unfold variant_colors, colours_named. rewrite bind_eq.
  assert (forall w, exists r, mapM (fun v => get_prop v "color") variants w = (r, w)
                    /\ forall cs, r = Ret cs -> cs = map (fun v => field v "color") variants)
    as Hmap.
  { clear. induction variants as [|v variants IH]; intros w.
    - exists (Ret []). split; [done|]. by intros cs [= <-].
    - cbn [mapM map]. rewrite bind_eq. unfold get_prop at 1.
      destruct (nullish v); [exists (Throw TypeError); by split|].
      rewrite ret_eq, bind_eq. destruct (IH w) as (r & -> & Hr).
      destruct r as [cs|e]; [|exists (Throw e); by split].
      exists (Ret (field v "color" :: cs)). split; [done|].
      intros ? [= <-]. by rewrite (Hr _ eq_refl). }
  destruct (Hmap w) as (r & -> & Hr). destruct r as [cs|e].
  - intros [= <- <-]. split; [done|]. intros ? [= <-]. by rewrite (Hr _ eq_refl).
  - intros [= <- <-]. by split.
Qed.

Lemma adjust_colors_casts ids d w w' :
  adjust_colors ids d w = (Ret tt, w') -> is_Some (mapM castObjectId ids).
Proof.
  unfold adjust_colors, Color_inc_in. destruct ids as [|v vs]; [by eexists|].
  rewrite bind_eq, cast_ids_eq. by destruct (mapM castObjectId (v :: vs)); eauto.
Qed.

Lemma color_ops_lookup ids os z d c :
  mapM castObjectId ids = Some os ->
  colors (apply_writes (color_ops ids z) d) !! c
  = if bool_decide (c ∈ os) then col_inc z <$> colors d !! c else colors d !! c.
Proof.
  intros Hos. unfold color_ops. destruct ids as [|v vs].
  - injection Hos as <-. rewrite bool_decide_false; [done|]. by intros ?%elem_of_nil.
  - rewrite Hos. cbn. rewrite map_lookup_imap.
    destruct (colors d !! c) as [col|]; simpl; by destruct (bool_decide _).
Qed.

(** The body of the inner [try]: it fails with nothing committed, or it
    commits the product with the two kinds of counters and then answers,
    unless the read that follows the commit fails. *)
Lemma create_unit product category variants w res w' :
  atomic_unit product category variants w = (res, w') -> txn w = Some [] ->
  (exists e, res = Throw e /\ db w' = db w /\ is_Some (txn w'))
  \/ (exists p c,
        product = Some p /\ castObjectId category = Some c
        /\ is_Some (mapM castObjectId (set_values (colours_named variants)))
        /\ create_committed p c variants (db w) (db w')
        /\ txn w' = None
        /\ (res = Throw StoreError
            \/ res = Ret {| statusCode := CREATED;
                            message := PRODUCT_MESSAGES "PRODUCT_CREATED";
                            data := products (db w') !! p_id p |})).
Proof.
  intros Hrun Htxn. unfold atomic_unit in Hrun. rewrite bind_eq in Hrun.
  destruct product as [p|]; [|injection Hrun as <- <-; left; eauto].
  rewrite bind_eq in Hrun.
  destruct (write true (W_insertProduct p) w) as [r1 w1] eqn:E1.
  destruct (write_session _ _ _ _ _ E1 Htxn) as [Hd1 [[-> Ht1]|[-> Ht1]]];
    [|injection Hrun as <- <-; left; eauto].
  rewrite ret_eq, bind_eq in Hrun.
  destruct (Category_inc category 1 w1) as [r2 w2] eqn:E2.
  destruct (Category_inc_session _ _ _ _ _ _ E2 Ht1)
    as [Hd2 [(c & Hc & -> & Ht2)|(e & -> & Ht2)]];
    [|injection Hrun as <- <-; left; exists e; split; [done|]; split; [congruence|eauto]].
  rewrite bind_eq in Hrun.
  destruct (variant_colors variants w2) as [r3 w3] eqn:E3.
  destruct (variant_colors_pure _ _ _ _ E3) as [-> Hcs].
  destruct r3 as [cs|e];
    [|injection Hrun as <- <-; left; exists e; split; [done|]; split; [congruence|eauto]].
  rewrite (Hcs _ eq_refl) in Hrun. rewrite bind_eq in Hrun.
  destruct (adjust_colors _ 1 w2) as [r4 w4] eqn:E4.
  destruct (adjust_colors_session _ _ _ _ _ _ E4 Ht2) as [Hd4 [[-> Ht4]|(e & -> & Ht4)]];
    [|injection Hrun as <- <-; left; exists e; split; [done|]; split; [congruence|eauto]].
  pose proof (adjust_colors_casts _ _ _ _ E4) as Hcast.
  rewrite bind_eq in Hrun.
  destruct (commitTransaction w4) as [r5 w5] eqn:E5.
  destruct (commit_session _ _ _ _ E5 Ht4) as [(-> & Hd5 & Ht5)|(-> & Hd5 & Ht5)];
    [|injection Hrun as <- <-; left; exists StoreError; split; [done|];
      split; [congruence|eauto]].
  assert (create_committed p c variants (db w) (db w5)) as Hcommitted.
  { unfold create_committed. rewrite Hd5, Hd4, Hd2, Hd1. done. }
  rewrite bind_eq in Hrun. unfold Product_findById in Hrun. cbn [castObjectId] in Hrun.
  rewrite bind_eq in Hrun. unfold read in Hrun. rewrite bind_eq in Hrun.
  unfold store_call in Hrun.
  right. exists p, c. split; [done|]. split; [done|]. split; [done|].
  destruct (faults w5 (clock w5)).
  - injection Hrun as <- <-. simpl. split; [done|]. split; [done|]. by left.
  - cbn [gets mret M_ret] in Hrun. injection Hrun as <- <-. simpl.
    split; [done|]. split; [done|]. by right.
Qed.

Lemma quiet_attach_images req variants : quiet (attach_images req variants).
Proof.
  unfold attach_images. apply quiet_mapM. intros [index variant].
  destruct (truthy _); [|apply quiet_set_prop].
  apply quiet_bind; [apply quiet_uploaded_images|]. intros images. apply quiet_set_prop.
Qed.

(** Attaching the uploaded files leaves the colours the variants name. *)
Lemma attach_images_colours req variants w variants' w' :
  attach_images req variants w = (Ret variants', w') ->
  colours_named variants' = colours_named variants.
Proof.
  unfold attach_images, colours_named. intros Hrun. f_equal.
  change (imap (fun i v => (i, v)) variants)
    with (imap (fun i v => (id i, v)) variants) in Hrun.
  revert w variants' Hrun. generalize (@id nat).
  assert (forall v k x w r w', set_prop v k x w = (Ret r, w') -> k = js "images" ->
                               field r "color" = field v "color") as Hset.
  { intros v k x w0 r w0' Hs ->. destruct v; try done. injection Hs as <- <-.
    unfold field, prop. by rewrite assoc_set_other. }
  induction variants as [|v variants IH]; intros h w variants' Hrun.
  - by injection Hrun as <- <-.
  - cbn [imap mapM] in Hrun. rewrite bind_eq in Hrun.
    match type of Hrun with
    | match ?m w with _ => _ end = _ => destruct (m w) as [[v'|e] w1] eqn:E1; [|done]
    end.
    rewrite bind_eq in Hrun.
    match type of Hrun with
    | match ?m w1 with _ => _ end = _ => destruct (m w1) as [[vs'|e] w2] eqn:E2; [|done]
    end.
    injection Hrun as <- <-. cbn [map]. f_equal.
    + destruct (truthy _).
      * rewrite bind_eq in E1.
        destruct (uploaded_images _ _ _ w) as [[images|e] w0]; [|done].
        by eapply Hset.
      * by eapply Hset.
    + by eapply (IH (h ∘ S)).
Qed.

Lemma avoids_ret {A} e (a : A) : avoids e (mret a).
Proof. by intros w w'. Qed.

Lemma avoids_throw {A} e e' : e' <> e -> avoids e (@throw A e').
Proof. intros Hne w w' [= ? _]. done. Qed.

Lemma avoids_bind {A B} e (m : M A) (k : A -> M B) :
  avoids e m -> (forall a, avoids e (k a)) -> avoids e (m ≫= k).
Proof.
  intros Hm Hk w w'. rewrite bind_eq. destruct (m w) as [[a|e'] w1] eqn:E.
  - apply Hk.
  - intros [= -> <-]. by eapply Hm.
Qed.

Lemma avoids_store_call e : e <> StoreError -> avoids e store_call.
Proof.
  intros Hne w w'. unfold store_call. destruct (faults w (clock w)); [|done].
  intros [= ? _]. done.
Qed.

Lemma avoids_write e s op : e <> StoreError -> avoids e (write s op).
Proof. intros Hne. apply avoids_bind; [by apply avoids_store_call|]. by intros [] w w'. Qed.

Lemma avoids_read e s : e <> StoreError -> avoids e (read s).
Proof. intros Hne. apply avoids_bind; [by apply avoids_store_call|]. by intros [] w w'. Qed.

Lemma avoids_cast_ids e l : e <> CastError -> avoids e (cast_ids l).
Proof.
  intros Hne w w'. rewrite cast_ids_eq. destruct (mapM castObjectId l); [done|].
  intros [= ? _]. done.
Qed.

Lemma create_unit_avoids product category variants :
  avoids TransactionError (atomic_unit product category variants).
Proof.
  unfold atomic_unit. apply avoids_bind.
  { destruct product; [|by apply avoids_throw].
    apply avoids_bind; [by apply avoids_write|]. intros []. apply avoids_ret. }
  intros p. apply avoids_bind.
  { unfold Category_inc. destruct (castObjectId category);
      [by apply avoids_write|by apply avoids_throw]. }
  intros []. apply avoids_bind.
  { intros w w' Hrun. destruct (variant_colors_pure _ _ _ _ Hrun) as [_ _].
    revert Hrun. unfold variant_colors. apply avoids_bind; [|intros; apply avoids_ret].
    clear. induction variants as [|v l IH]; [apply avoids_ret|].
    cbn [mapM]. apply avoids_bind.
    - unfold get_prop. destruct (nullish v); [by apply avoids_throw|apply avoids_ret].
    - intros c. apply avoids_bind; [apply IH|]. intros. apply avoids_ret. }
  intros colorIds. apply avoids_bind.
  { unfold adjust_colors, Color_inc_in. destruct (set_values colorIds); [apply avoids_ret|].
    apply avoids_bind; [by apply avoids_cast_ids|]. intros. by apply avoids_write. }
  intros []. apply avoids_bind.
  { apply avoids_bind; [by apply avoids_store_call|]. by intros [] w w'. }
  intros []. apply avoids_bind; [|intros; apply avoids_ret].
  unfold Product_findById. cbn [castObjectId].
  apply avoids_bind; [by apply avoids_read|]. intros. apply avoids_ret.
Qed.

Lemma in_session_create product category variants w res w' :
  in_session (atomic_unit product category variants) (fun error => throw error) w = (res, w') ->
  (db w' = db w /\ exists e, res = Throw e /\ e <> TransactionError)
  \/ (exists p c,
        product = Some p /\ castObjectId category = Some c
        /\ is_Some (mapM castObjectId (set_values (colours_named variants)))
        /\ create_committed p c variants (db w) (db w')
        /\ (res = Throw TransactionError
            \/ res = Ret {| statusCode := CREATED;
                            message := PRODUCT_MESSAGES "PRODUCT_CREATED";
                            data := products (db w') !! p_id p |})).
Proof.
  unfold in_session, startSession, startTransaction.
  rewrite bind_eq. unfold store_call at 1.
  destruct (faults w (clock w)); [intros [= <- <-]; left; eauto|].
  rewrite bind_eq. unfold modify at 1. unfold finally, try_catch.
  set (w3 := set_txn (Some []) (tick w)).
  destruct (atomic_unit product category variants w3) as [r w4] eqn:E.
  pose proof (create_unit_avoids product category variants w3 w4) as Havoid.
  destruct (create_unit _ _ _ _ _ _ E eq_refl)
    as [(e & -> & Hd & [l Hl])|(p & c & -> & Hc & Hos & Hcommitted & Ht & Hres)].
  - assert (forall T, (abortTransaction ;; (throw e : M (Response Product))) w4 = T ->
                      T = (Throw e, set_txn None w4)) as Habort.
    { intros T <-. rewrite bind_eq. unfold abortTransaction. by rewrite Hl. }
    destruct e; try rewrite (Habort _ eq_refl); intros [= <- <-]; left; simpl;
      (split; [done|]); eexists; (split; [done|]); congruence.
  - destruct Hres as [-> | ->].
    + assert ((abortTransaction ;; (throw StoreError : M (Response Product))) w4
              = (Throw TransactionError, w4)) as ->.
      { rewrite bind_eq. unfold abortTransaction. by rewrite Ht. }
      intros [= <- <-]. right. exists p, c. simpl. eauto 10.
    + intros [= <- <-]. right. exists p, c. simpl. eauto 10.
Qed.

Lemma castProduct_category o fields p :
  castProduct o fields = Some p ->
  castObjectId (f_category fields) = Some (p_category p) /\ p_id p = o.
Proof.
  unfold castProduct. intros Hc.
  repeat (apply bind_Some in Hc as (? & ? & Hc)).
  by injection Hc as <-.
Qed.

Lemma committed_products p c variants d d' :
  create_committed p c variants d d' -> products d' = <[p_id p := p]> (products d).
Proof.
  intros ->. rewrite apply_writes_app. by rewrite (proj1 (color_ops_frame _ _ _)).
Qed.

Abbreviation creation_failed e :=
  (respond SERVER_ERROR (WithCause (PRODUCT_MESSAGES "PRODUCT_CREATION_FAILED") e)
   : Response Product).

(** Every run of createProduct: nothing is committed and the answer is not
    CREATED, or the unit has committed and the answer is CREATED, or,
    when the read after the commit failed, the server error whose cause is
    the refused [abortTransaction]. *)
Lemma castProduct_references o fields p :
  castProduct o fields = Some p ->
  castString (f_slug fields) = Some (p_slug p)
  /\ castObjectId (f_brand fields) = Some (p_brand p).
Proof.
  unfold castProduct. intros Hc.
  repeat (apply bind_Some in Hc as (? & ? & Hc)).
  by injection Hc as <-.
Qed.

Lemma read_committed w res w' :
  read false w = (res, w') -> forall d, res = Ret d -> d = db w.
Proof.
  unfold read, store_call. rewrite bind_eq.
  destruct (faults w (clock w)); [by intros [= <- <-]|].
  cbn [gets]. by intros [= <- <-] d [= <-].
Qed.

Lemma Product_findOne_result f w x w' :
  Product_findOne f w = (Ret x, w') ->
  x = find f (snd <$> map_to_list (products (db w))).
Proof.
  unfold Product_findOne. rewrite bind_eq.
  destruct (read false w) as [[d|e] w1] eqn:E; [|done].
  intros [= <- <-]. by rewrite (read_committed _ _ _ E d eq_refl).
Qed.

Lemma Category_findById_result id w x w' :
  Category_findById id w = (Ret x, w') ->
  exists o, castObjectId id = Some o /\ x = categories (db w) !! o.
Proof.
  unfold Category_findById. destruct (castObjectId id) as [o|]; [|done].
  rewrite bind_eq. destruct (read false w) as [[d|e] w1] eqn:E; [|done].
  intros [= <- <-]. exists o. by rewrite (read_committed _ _ _ E d eq_refl).
Qed.

Lemma Brand_findById_result id w x w' :
  Brand_findById id w = (Ret x, w') ->
  exists o, castObjectId id = Some o /\ x = brands (db w) !! o.
Proof.
  unfold Brand_findById. destruct (castObjectId id) as [o|]; [|done].
  rewrite bind_eq. destruct (read false w) as [[d|e] w1] eqn:E; [|done].
  intros [= <- <-]. exists o. by rewrite (read_committed _ _ _ E d eq_refl).
Qed.

Lemma createProduct_inv req w res w' :
  createProduct req w = (res, w') ->
  (db w' = db w
   /\ (forall r, res = Ret r -> statusCode r <> CREATED)
   /\ res <> Ret (creation_failed TransactionError))
  \/ (exists p c,
        castObjectId (field (req_body req) "category") = Some c
        /\ p_category p = c
        /\ is_Some (mapM castObjectId
                         (set_values (colours_named (parsed_variants (req_body req)))))
        /\ create_committed p c (parsed_variants (req_body req)) (db w) (db w')
        /\ (res = Ret (creation_failed TransactionError)
            \/ res = Ret {| statusCode := CREATED;
                            message := PRODUCT_MESSAGES "PRODUCT_CREATED";
                            data := Some p |})
        /\ (exists name,
              field (req_body req) "name" = JString name
              /\ castString (JString (Slug.normalize name)) = Some (p_slug p)
              /\ find (fun q => bool_decide (p_slug q = Slug.normalize name))
                      (snd <$> map_to_list (products (db w))) = None)
        /\ is_Some (categories (db w) !! p_category p)
        /\ castObjectId (field (req_body req) "brand") = Some (p_brand p)
        /\ is_Some (brands (db w) !! p_brand p)).
Proof.
  intros Hrun. unfold createProduct in Hrun.
  assert (forall (s : Status) m d w0,
             s <> CREATED -> s <> SERVER_ERROR -> db w0 = d ->
             db w0 = d
             /\ (forall r, Ret (respond s m : Response Product) = Ret r -> statusCode r <> CREATED)
             /\ Ret (respond s m) <> Ret (creation_failed TransactionError)) as Hrej.
  { intros s m d w0 Hs Hs' Hd. split; [done|]. split; [by intros r [= <-]|].
    intros [= -> _]. done. }
  assert (forall e d w0,
             db w0 = d ->
             db w0 = d
             /\ (forall r, (Throw e : Result (Response Product)) = Ret r -> statusCode r <> CREATED)
             /\ Throw e <> Ret (creation_failed TransactionError)) as Hthrow.
  { intros e d w0 Hd. by repeat split. }
  destruct (nullish (req_body req)); [injection Hrun as <- <-; left; by apply Hthrow|].
  match type of Hrun with (if ?c then _ else _) _ = _ => destruct c end.
  { injection Hrun as <- <-. left. by apply Hrej. }
  rewrite bind_eq in Hrun.
  destruct (Category_findById _ w) as [[categoryDoc|e] w1] eqn:E1;
    destruct (quiet_Category_findById _ _ _ _ E1) as [Hd1 _];
    [|injection Hrun as <- <-; left; by apply Hthrow].
  destruct (bool_decide_reflect (is_Some categoryDoc)) as [HcategoryDoc|_]; cbn [negb] in Hrun.
  2:{ injection Hrun as <- <-. left. by apply Hrej. }
  rewrite bind_eq in Hrun.
  destruct (Brand_findById _ w1) as [[brandDoc|e] w2] eqn:E2;
    destruct (quiet_Brand_findById _ _ _ _ E2) as [Hd2 _];
    [|injection Hrun as <- <-; left; apply Hthrow; congruence].
  destruct (bool_decide_reflect (is_Some brandDoc)) as [HbrandDoc|_]; cbn [negb] in Hrun.
  2:{ injection Hrun as <- <-. left. apply Hrej; congruence. }
  rewrite bind_eq in Hrun.
  destruct (variant_colors _ w2) as [[colorIds|e] w3] eqn:E3;
    destruct (quiet_variant_colors _ _ _ _ E3) as [Hd3 _];
    [|injection Hrun as <- <-; left; apply Hthrow; congruence].
  rewrite bind_eq in Hrun.
  destruct (Color_find_in _ w3) as [[validColors|e] w4] eqn:E4;
    destruct (quiet_Color_find_in _ _ _ _ E4) as [Hd4 _];
    [|injection Hrun as <- <-; left; apply Hthrow; congruence].
  destruct (negb (Nat.eqb _ _)).
  { injection Hrun as <- <-. left. apply Hrej; congruence. }
  rewrite bind_eq in Hrun.
  destruct (field (req_body req) "name") as [| | | |name| | |] eqn:Hname;
    try (injection Hrun as <- <-; left; apply Hthrow; congruence).
  rewrite ret_eq, bind_eq in Hrun.
  destruct (Product_findOne _ w4) as [[existingProduct|e] w5] eqn:E5;
    destruct (quiet_Product_findOne _ _ _ _ E5) as [Hd5 _];
    [|injection Hrun as <- <-; left; apply Hthrow; congruence].
  destruct (bool_decide_reflect (is_Some existingProduct)) as [|Hfree].
  { injection Hrun as <- <-. left. apply Hrej; congruence. }
  apply Product_findOne_result in E5.
  destruct existingProduct as [existingProduct|]; [by destruct Hfree|]. symmetry in E5.
  replace (db w4) with (db w) in E5 by congruence.
  apply Category_findById_result in E1 as (oc & Hoc & ->).
  apply Brand_findById_result in E2 as (ob & Hob & ->). rewrite Hd1 in HbrandDoc.
  rewrite bind_eq in Hrun.
  assert ((exists variants w6,
             (if truthy (req_files req)
              then attach_images req (parsed_variants (req_body req))
              else mret (parsed_variants (req_body req))) w5 = (Ret variants, w6)
             /\ db w6 = db w5
             /\ colours_named variants = colours_named (parsed_variants (req_body req)))
          \/ exists e w6,
             (if truthy (req_files req)
              then attach_images req (parsed_variants (req_body req))
              else mret (parsed_variants (req_body req))) w5 = (Throw e, w6)
             /\ db w6 = db w5) as Hattach.
  { destruct (truthy (req_files req)).
    - destruct (attach_images req _ w5) as [[variants|e] w6] eqn:E6;
        destruct (quiet_attach_images _ _ _ _ _ E6) as [Hd6 _].
      + left. exists variants, w6. split; [done|]. split; [done|].
        by eapply attach_images_colours.
      + right. eauto.
    - left. exists (parsed_variants (req_body req)), w5. by rewrite ret_eq. }
  destruct Hattach as [(variants & w6 & E6 & Hd6 & Hcolours)|(e & w6 & E6 & Hd6)];
    rewrite E6 in Hrun; [|injection Hrun as <- <-; left; apply Hthrow; congruence].
  rewrite bind_eq in Hrun.
  destruct (some_has_images variants w6) as [[hasImages|e] w7] eqn:E7;
    destruct (quiet_some_has_images _ _ _ _ E7) as [Hd7 _];
    [|injection Hrun as <- <-; left; apply Hthrow; congruence].
  match type of Hrun with (if ?c then _ else _) _ = _ => destruct c end.
  { injection Hrun as <- <-. left. apply Hrej; congruence. }
  rewrite bind_eq in Hrun. unfold new_ObjectId at 1 in Hrun.
  set (w8 := set_next_oid _ w7) in Hrun.
  assert (db w8 = db w) as Hd8 by (simpl; congruence).
  unfold try_catch in Hrun.
  match type of Hrun with
  | context [in_session (atomic_unit ?product _ _)] =>
      destruct (in_session (atomic_unit product (field (req_body req) "category") variants)
                           (fun error => throw error) w8) as [r9 w9] eqn:E9;
      destruct (in_session_create _ _ _ _ _ _ E9)
        as [[Hd9 (e & -> & He)]|(p & c & Hp & Hc & Hos & Hcommitted & Hres)]
  end.
  - left. destruct e; try done; injection Hrun as <- <-.
    all: try (apply Hthrow; congruence).
    all: split; [congruence|]; split; [intros r [= <-]; discriminate|]; intros [=].
  - right. exists p, c. pose proof (castProduct_references _ _ _ Hp) as [Hslug Hbrand].
    apply castProduct_category in Hp as [Hpc Hid].
    cbn [f_category] in Hpc. cbn [f_slug f_brand] in Hslug, Hbrand.
    rewrite Hc in Hpc. injection Hpc as ->.
    rewrite Hc in Hoc. injection Hoc as <-. rewrite Hbrand in Hob. injection Hob as <-.
    rewrite Hd8 in Hcommitted. unfold create_committed in *. rewrite Hcolours in *.
    pose proof (committed_products p (p_category p) (parsed_variants (req_body req))
                  (db w) (db w9) Hcommitted) as Hproducts.
    destruct Hres as [-> | ->]; injection Hrun as <- <-;
      (split; [done|]; split; [done|]; split; [done|]; split; [done|]);
      (split; [|split; [by exists name|done]]); [by left|right].
    by rewrite Hproducts, lookup_insert_eq.
Qed.

(** *** The colour check counts, it does not compare *)

Lemma length_remove_dups_le {A} `{EqDecision A} (l : list A) :
  (length (remove_dups l) <= length l)%nat.
Proof.
  induction l as [|x l IH]; [done|].
  cbn [remove_dups]. destruct (decide_rel elem_of x l); simpl; lia.
Qed.

Lemma length_remove_dups_lt {A} `{EqDecision A} (l : list A) :
  ~ NoDup l -> (length (remove_dups l) < length l)%nat.
Proof.
  induction l as [|x l IH]; [by intros []; constructor|].
  intros Hdup. cbn [remove_dups]. destruct (decide_rel elem_of x l) as [Hin|Hout].
  - pose proof (length_remove_dups_le l). simpl. lia.
  - cbn [length]. apply -> Nat.succ_lt_mono. apply IH. intros Hl. apply Hdup. by constructor.
Qed.

(** [Color.find({ _id: { $in: ids } })] answers each colour once, however
    often the list names it. *)
Lemma Color_find_in_counts ids os w validColors w' :
  Color_find_in ids w = (Ret validColors, w') ->
  mapM castObjectId ids = Some os ->
  ~ NoDup os ->
  (length validColors < length ids)%nat.
Proof.
  unfold Color_find_in. rewrite bind_eq, cast_ids_eq. intros Hrun Hos Hdup. rewrite Hos in Hrun.
  rewrite bind_eq in Hrun. destruct (read false w) as [[d|e] w1]; [|done].
  injection Hrun as <- <-.
  rewrite (length_mapM _ _ _ Hos).
  eapply Nat.le_lt_trans; [|by apply length_remove_dups_lt].
  rewrite <- (length_fmap fst). apply submseteq_length, NoDup_submseteq.
  - apply (NoDup_fmap_2_strong fst).
    + intros [k1 c1] [k2 c2] [_ H1]%list_elem_of_filter [_ H2]%list_elem_of_filter Hk.
      simpl in Hk. subst k2. f_equal.
      apply elem_of_map_to_list in H1, H2. congruence.
    + apply NoDup_filter, NoDup_map_to_list.
  - intros k (kc & -> & [Hk _]%list_elem_of_filter)%list_elem_of_fmap.
    apply elem_of_remove_dups. by apply bool_decide_unpack in Hk.
Qed.

(** X3. createProduct counts the colours that exist against the colours
    the variants name.  A request in which two variants name the same
    colour is therefore never answered with CREATED, whether the colour
    exists or not: it is rejected with a client error or throws, and the
    documents stay as they were. *)
Theorem createProduct_rejects_repeated_colour req w res w' os :
  mapM castObjectId (colours_named (parsed_variants (req_body req))) = Some os ->
  ~ NoDup os ->
  createProduct req w = (res, w') ->
  db w' = db w /\ forall r, res = Ret r -> rejected_before_slug r.
Proof.
  intros Hos Hdup Hrun. unfold createProduct, rejected_before_slug in *.
  destruct (nullish (req_body req)); [by injection Hrun as <- <-|].
  match type of Hrun with (if ?c then _ else _) _ = _ => destruct c end.
  { injection Hrun as <- <-. split; [done|]. intros r [= <-].
    destruct (bool_decide _); auto. }
  rewrite bind_eq in Hrun.
  destruct (Category_findById _ w) as [[categoryDoc|e] w1] eqn:E1;
    destruct (quiet_Category_findById _ _ _ _ E1) as [Hd1 _];
    [|by injection Hrun as <- <-].
  destruct (negb (bool_decide (is_Some categoryDoc))).
  { injection Hrun as <- <-. split; [done|]. intros r [= <-]. auto. }
  rewrite bind_eq in Hrun.
  destruct (Brand_findById _ w1) as [[brandDoc|e] w2] eqn:E2;
    destruct (quiet_Brand_findById _ _ _ _ E2) as [Hd2 _];
    [|injection Hrun as <- <-; split; [congruence|done]].
  destruct (negb (bool_decide (is_Some brandDoc))).
  { injection Hrun as <- <-. split; [congruence|]. intros r [= <-]. auto 6. }
  rewrite bind_eq in Hrun.
  destruct (variant_colors _ w2) as [[colorIds|e] w3] eqn:E3;
    destruct (variant_colors_pure _ _ _ _ E3) as [-> Hcs];
    [|injection Hrun as <- <-; split; [congruence|done]].
  rewrite (Hcs _ eq_refl) in Hrun. rewrite bind_eq in Hrun.
  destruct (Color_find_in _ w2) as [[validColors|e] w4] eqn:E4;
    destruct (quiet_Color_find_in _ _ _ _ E4) as [Hd4 _];
    [|injection Hrun as <- <-; split; [congruence|done]].
  pose proof (Color_find_in_counts _ _ _ _ _ E4 Hos Hdup) as Hlt.
  rewrite (proj2 (Nat.eqb_neq _ _)) in Hrun by lia.
  injection Hrun as <- <-. split; [congruence|]. intros r [= <-]. auto 6.
Qed.

Lemma create_committed_documents p variants os d d' :
  create_committed p (p_category p) variants d d' ->
  mapM castObjectId (set_values (colours_named variants)) = Some os ->
  products d' = <[p_id p := p]> (products d)
  /\ (forall k, categories d' !! k
                = if bool_decide (k = p_category p)
                  then cat_inc 1 <$> categories d !! k
                  else categories d !! k)
  /\ (forall k, colors d' !! k
                = if bool_decide (k ∈ os)
                  then col_inc 1 <$> colors d !! k
                  else colors d !! k)
  /\ brands d' = brands d.
Proof.
  intros Hcommitted Hos.
  split; [by eapply committed_products|].
  rewrite Hcommitted, !apply_writes_app. split; [|split].
  - intros k. rewrite (proj2 (color_ops_frame _ _ _)). cbn. rewrite lookup_alter.
    destruct (decide (p_category p = k)) as [<-|Hne].
    + by rewrite bool_decide_true.
    + rewrite bool_decide_false; [done|congruence].
  - intros k. by rewrite (color_ops_lookup _ _ _ _ _ Hos).
  - unfold color_ops. destruct (set_values _); [done|]. by destruct (mapM _ _).
Qed.


(** X5. createProduct keeps the store sound.  When Mongoose's string
    cast keeps strings, a product that is created has the normalised name
    as its slug, its category and its brand exist, and the creation keeps
    two invariants of the store: no two products share a slug, and every
    product's category and brand exist. *)
Theorem createProduct_keeps_store_sound req w r w' :
  (forall s, castString (JString s) = Some s) ->
  createProduct req w = (Ret r, w') ->
  statusCode r = CREATED ->
  (exists name p,
      field (req_body req) "name" = JString name
      /\ data r = Some p /\ p_slug p = Slug.normalize name
      /\ is_Some (categories (db w) !! p_category p)
      /\ is_Some (brands (db w) !! p_brand p))
  /\ (unique_slugs (products (db w)) -> unique_slugs (products (db w')))
  /\ (references_resolve (db w) -> references_resolve (db w')).
Proof.
  intros Hstring Hrun Hcreated.
  destruct (createProduct_inv _ _ _ _ Hrun)
    as [(_ & Hnot & _)
       |(p & c & Hc & <- & [os Hos] & Hcommitted & Hres
         & (name & Hname & Hslug & Hfree) & Hcategory & _ & Hbrand)];
    [by destruct (Hnot _ eq_refl)|].
  destruct Hres as [[= ->]|[= ->]]; [done|].
  rewrite Hstring in Hslug. injection Hslug as Hslug.
  destruct (create_committed_documents _ _ _ _ _ Hcommitted Hos)
    as (Hproducts & Hcategories & _ & Hbrands).
  assert (forall o q, products (db w) !! o = Some q -> p_slug q <> p_slug p) as Hfresh.
  { intros o q Hq Heq.
    assert (bool_decide (p_slug q = Slug.normalize name) = false) as Hno.
    { apply (find_none _ _ Hfree q), list_elem_of_In, list_elem_of_fmap.
      exists (o, q). split; [done|]. by apply elem_of_map_to_list. }
    apply bool_decide_eq_false in Hno. congruence. }
  split; [by exists name, p|]. split.
  - intros Hunique o1 o2 p1 p2. rewrite Hproducts.
    destruct (decide (o1 = p_id p)) as [->|H1], (decide (o2 = p_id p)) as [->|H2];
      [done|..].
    + rewrite lookup_insert_eq, lookup_insert_ne by done.
      intros [= <-] H2' Heq. by destruct (Hfresh _ _ H2').
    + rewrite lookup_insert_eq, lookup_insert_ne by done.
      intros H1' [= <-] Heq. by destruct (Hfresh _ _ H1').
    + rewrite !lookup_insert_ne by done. apply Hunique.
  - intros Hresolve o q. rewrite Hproducts, Hbrands.
    assert (forall k, is_Some (categories (db w) !! k) -> is_Some (categories (db w') !! k))
      as Hkept.
    { intros k [x Hx]. rewrite Hcategories, Hx. destruct (bool_decide _); by eexists. }
    destruct (decide (o = p_id p)) as [->|Hne].
    + rewrite lookup_insert_eq. intros [= <-]. split; [by apply Hkept|done].
    + rewrite lookup_insert_ne by done. intros Hq.
      destruct (Hresolve _ _ Hq). split; [by apply Hkept|done].
Qed.

(** X6. createProduct that does not answer CREATED has left every document
    as it was, with one exception: the server error whose cause is the
    refused [abortTransaction].  That answer is given when the read that
    follows the commit fails, and then the product and the counters of a
    successful creation are in the store. *)
Theorem createProduct_failure req w res w' :
  createProduct req w = (res, w') ->
  (forall r, res = Ret r -> statusCode r <> CREATED) ->
  (res <> Ret (creation_failed TransactionError) -> db w' = db w)
  /\ (res = Ret (creation_failed TransactionError) ->
      exists p,
        products (db w') = <[p_id p := p]> (products (db w))
        /\ create_committed p (p_category p) (parsed_variants (req_body req)) (db w) (db w')).
Proof.
  intros Hrun Hnot.
  destruct (createProduct_inv _ _ _ _ Hrun)
    as [(Hd & _ & Hne)|(p & c & Hc & <- & _ & Hcommitted & Hres & _)].
  - by split.
  - destruct Hres as [-> | ->]; [|by destruct (Hnot _ eq_refl)].
    split; [done|]. intros _. exists p. split; [by eapply committed_products|done].
Qed.

End CreateMore.

(** Two variants of a new product that both name colour 10, which exists:
    rejected, nothing written. *)
Lemma createProduct_rejects_repeated_colour_witness :
  let req := Sample.request JUndefined
               (Sample.new_product "Blue Jeans"
                  (JArray [Sample.object [("color"%string, Sample.id_string 10)];
                           Sample.object [("color"%string, Sample.id_string 10)]])) in
  let w := Sample.world true ∅ Sample.no_faults in
  let out := @Create.createProduct Reference.platform req w in
  out.1 = Ret (respond BAD_REQUEST (Text "One or more colors are invalid"))
  /\ db out.2 = db w /\ forall r, out.1 = Ret r -> rejected_before_slug r.
Proof.
  intros req w out. split; [vm_compute; reflexivity|].
  apply (@createProduct_rejects_repeated_colour Reference.platform req w out.1 out.2
           [10%N; 10%N]); [vm_compute; reflexivity| |vm_compute; reflexivity].
  intros Hdup. apply NoDup_cons in Hdup as [Hin _]. apply Hin. left.
Defined.


(** The same request where the read after the commit fails: a server
    error, and the product is stored. *)
Lemma createProduct_failure_witness :
  let req := Sample.request JUndefined
               (Sample.new_product "Blue Jeans"
                  (JArray [Sample.object [("color"%string, Sample.id_string 12)];
                           Sample.object [("color"%string, Sample.id_string 10)]])) in
  let w := Sample.world true ∅ (fun n => Nat.eqb n 9) in
  let out := @Create.createProduct Reference.platform req w in
  out.1 = Ret (respond SERVER_ERROR
                 (WithCause (PRODUCT_MESSAGES "PRODUCT_CREATION_FAILED") TransactionError))
  /\ exists p, products (db out.2) = <[p_id p := p]> (products (db w))
     /\ @create_committed Reference.platform p (p_category p) (@Create.parsed_variants Reference.platform (req_body req))
          (db w) (db out.2).
Proof.
  intros req w out. split; [vm_compute; reflexivity|].
  apply (@createProduct_failure Reference.platform req w out.1 out.2);
    [vm_compute; reflexivity | vm_compute; intros r [= <-]; discriminate
     | vm_compute; reflexivity].
Defined.

(** The new product with variants of colours 12 and 10, under the
    reference platform. *)
Lemma createProduct_keeps_store_sound_witness :
  let req := Sample.request JUndefined
               (Sample.new_product "Blue Jeans"
                  (JArray [Sample.object [("color"%string, Sample.id_string 12)];
                           Sample.object [("color"%string, Sample.id_string 10)]])) in
  let w := Sample.world true ∅ Sample.no_faults in
  let out := @Create.createProduct Reference.platform req w in
  (exists name p,
      field (req_body req) "name" = JString name
      /\ data (Sample.answer out.1) = Some p
      /\ p_slug p = @Slug.normalize (@platform_case Reference.platform) name
      /\ is_Some (categories (db w) !! p_category p)
      /\ is_Some (brands (db w) !! p_brand p))
  /\ (unique_slugs (products (db w)) -> unique_slugs (products (db out.2)))
  /\ (references_resolve (db w) -> references_resolve (db out.2)).
Proof.
  intros req w out.
  apply (@createProduct_keeps_store_sound Reference.platform req w (Sample.answer out.1) out.2);
    [intros s; reflexivity | vm_compute; reflexivity | vm_compute; reflexivity].
Defined.
(* ===================================================================== *)
(** ** updateProduct: prices that parse to nothing *)
(* ===================================================================== *)

Section UpdateMore.
Context `{Platform}.
Import Update.

Lemma castProduct_prices o fields p' :
  castProduct o fields = Some p' ->
  castNumber (f_base_price fields) = Some (p_base_price p')
  /\ castNumber (f_discount fields) = Some (p_discount p').
Proof.
  unfold castProduct. intros Hc.
  repeat (apply bind_Some in Hc as (? & ? & Hc)).
  injection Hc as <-. done.
Qed.

Lemma updateData_prices product body tags specifications collections updatedVariants slug fields :
  pure_result (updateData product body tags specifications collections updatedVariants slug)
              (Ret fields) ->
  f_base_price fields = parsed_or (field body "base_price") (p_base_price (doc product))
  /\ f_discount fields = parsed_or (field body "discount") (p_discount (doc product)).
Proof.
  intros Hpure.
  specialize (Hpure {| db := {| products := ∅; categories := ∅; colors := ∅; brands := ∅ |};
                       txn := None; uploads := ∅; cloud := ∅; global_Image := false;
                       next_oid := 0%N; clock := O; faults := fun _ => false |}).
  unfold updateData, get_prop in Hpure.
  rewrite !bind_eq in Hpure.
  destruct (nullish (field body "category")), (nullish (field body "brand")),
    (nullish (pop_category product)), (nullish (pop_brand product));
    try done; by injection Hpure as <-.
Qed.

(** X7. [parseFloat(x) || product.x]: an update cannot set a price to
    nothing.  When Mongoose's number cast keeps finite numbers, an update
    that commits leaves the base price as it was whenever the request's
    [base_price] parses to 0 or to NaN (so also when it is absent), and
    likewise the discount: a discount cannot be taken back by an update. *)
Theorem updateProduct_keeps_price_on_zero req w r w' o p :
  (forall q, castNumber (JNumber (Fin q)) = Some q) ->
  updateProduct req w = (Ret r, w') -> statusCode r = OK ->
  castObjectId (req_id req) = Some o ->
  products (db w) !! o = Some p ->
  exists p', products (db w') !! o = Some p'
    /\ (truthy (JNumber (parseFloat (field (req_body req) "base_price"))) = false ->
        p_base_price p' = p_base_price p)
    /\ (truthy (JNumber (parseFloat (field (req_body req) "discount"))) = false ->
        p_discount p' = p_discount p).
Proof.
  intros Hnum Hrun Hok Ho Hp.
  destruct (updateProduct_inv _ _ _ _ Hrun)
    as [[_ Hnot]|(o' & p0 & prepared & r' & Ho' & Hp' & [= <-] & Hcommitted)];
    [by destruct (Hnot _ eq_refl)|].
  rewrite Ho in Ho'. injection Ho' as <-. rewrite Hp in Hp'. injection Hp' as <-.
  destruct (committed_product _ _ _ _ _ _ _ Hcommitted) as (fields & p' & Hpure & Hcast & Hp');
    [by rewrite Hp|].
  exists p'. split; [done|].
  destruct (castProduct_prices _ _ _ Hcast) as [Hb Hd].
  destruct (updateData_prices _ _ _ _ _ _ _ _ Hpure) as [Eb Ed].
  rewrite Eb in Hb. rewrite Ed in Hd. unfold parsed_or, js_or in Hb, Hd.
  cbn [populate doc] in Hb, Hd.
  split; intros Hfalsy; rewrite Hfalsy, Hnum in *; congruence.
Qed.

End UpdateMore.

(** The shirt, sent back with [discount: '0'] and [base_price: 0]. *)
Lemma updateProduct_keeps_price_on_zero_witness :
  let req := Sample.shirt_update [("discount"%string, JString (js "0"));
                                  ("base_price"%string, JNumber (Fin 0))] in
  let w := Sample.world false ∅ Sample.no_faults in
  let out := @Update.updateProduct Reference.platform req w in
  exists p', products (db out.2) !! 100%N = Some p'
    /\ p_base_price p' = p_base_price Sample.shirt
    /\ p_discount p' = p_discount Sample.shirt.
Proof.
  intros req w out.
  destruct (@updateProduct_keeps_price_on_zero Reference.platform req w
              (Sample.answer out.1) out.2 100%N Sample.shirt)
    as (p' & Hp' & Hb & Hd); [vm_compute; reflexivity..|].
  exists p'. split; [done|]. split; [apply Hb|apply Hd]; vm_compute; reflexivity.
Defined.
(* ===================================================================== *)
(** ** The variant merge never drops a stored variant *)
(* ===================================================================== *)

Section MergeMore.
Context `{Platform}.
Import Update.

Lemma patch_keeps_images existing variant :
  field (patch existing variant) "images" = field existing "images".
Proof.
  destruct existing; try done. unfold patch, field at 1, prop at 1.
  by rewrite assoc_set_same.
Qed.

Lemma map_alter_keeps {A B} (g : A -> B) (h : A -> A) i (l : list A) :
  (forall a, g (h a) = g a) -> map g (alter h i l) = map g l.
Proof.
  intros Hgh. revert i. induction l as [|e l IH]; intros [|i]; simpl; try done.
  - by rewrite Hgh.
  - f_equal. apply IH.
Qed.

Lemma merge_loop_keeps variants : forall updated fresh w updated' fresh' w',
  merge_loop variants updated fresh w = (Ret (updated', fresh'), w') ->
  map (fun v => field v "_id") updated' = map (fun v => field v "_id") updated
  /\ map (fun v => field v "images") updated' = map (fun v => field v "images") updated
  /\ exists more, fresh' = fresh ++ more.
Proof.
  induction variants as [|variant rest IH]; intros updated fresh w updated' fresh' w'.
  - intros [= <- <- <-]. repeat split; [done..|]. exists []. by rewrite app_nil_r.
  - cbn [merge_loop]. unfold get_prop. destruct (nullish variant); [done|].
    rewrite bind_eq, ret_eq.
    destruct (truthy (field variant "_id") && isValidObjectId (field variant "_id")).
    + destruct (findIndex (same_id (field variant "_id")) updated) as [i|]; [|apply IH].
      intros Hrun. destruct (IH _ _ _ _ _ _ Hrun) as (Hids & Himgs & Hmore).
      rewrite Hids, Himgs. split; [|split; [|done]].
      * apply map_alter_keeps. intros a. apply patch_keeps_id.
      * apply map_alter_keeps. intros a. apply patch_keeps_images.
    + destruct (truthy (field variant "color")); [|apply IH].
      rewrite bind_eq. destruct (new_ObjectId w) as [[oid|e] w1]; [|done].
      intros Hrun. destruct (IH _ _ _ _ _ _ Hrun) as (Hids & Himgs & more & ->).
      split; [done|]. split; [done|]. rewrite <- app_assoc. eauto.
Qed.

(** X8. The merge of updateProduct never drops, reorders or re-images a
    stored variant: whatever the request's variants are, the merged list
    begins with one variant for each variant of the product, in the
    product's order, with the same [_id] and the same images, and what
    follows them are the new variants.  So an update cannot delete a
    variant, and changes images through uploads only. *)
Theorem merge_variants_keeps_existing product variants w merged w' :
  merge_variants product variants w = (Ret merged, w') ->
  exists kept fresh,
    merged = kept ++ fresh
    /\ map (fun v => field v "_id") kept = map (fun v => field v "_id") (pop_variants product)
    /\ map (fun v => field v "images") kept
       = map (fun v => field v "images") (pop_variants product).
Proof.
  unfold merge_variants.
  destruct (truthy variants && isArray variants).
  - rewrite bind_eq.
    destruct (merge_loop _ _ _ w) as [[[updated fresh]|e] w1] eqn:E; [|done].
    intros [= <- <-]. destruct (merge_loop_keeps _ _ _ _ _ _ _ E) as (Hids & Himgs & _).
    by exists updated, fresh.
  - intros [= <- <-]. exists (pop_variants product), []. by rewrite app_nil_r.
Qed.

End MergeMore.

(** The shirt, asked to keep only its first variant at a new price and to
    add a variant of colour 12: all three stored variants are still there. *)
Lemma merge_variants_keeps_existing_witness :
  let product := Update.populate (db (Sample.world false ∅ Sample.no_faults))
                   Sample.shirt in
  let variants := JArray [Sample.object [("_id"%string, Sample.id_string 200);
                                         ("price"%string, JNumber (Fin (7 # 1)%Q))];
                          Sample.object [("color"%string, Sample.id_string 12)]] in
  let w := Sample.world false ∅ Sample.no_faults in
  let out := @Update.merge_variants Reference.platform product variants w in
  exists kept fresh,
    result_or [] out.1 = kept ++ fresh
    /\ map (fun v => field v "_id") kept
       = map (fun v => field v "_id") (Update.pop_variants product)
    /\ map (fun v => field v "images") kept
       = map (fun v => field v "images") (Update.pop_variants product).
Proof.
  intros product variants w out.
  apply (@merge_variants_keeps_existing Reference.platform product variants w (result_or [] out.1) out.2).
  vm_compute. reflexivity.
Defined.
(* ===================================================================== *)
(** ** What the customer listings can show *)
(* ===================================================================== *)

Section Listings.
Context `{Platform}.
Import Filter.

Lemma sees_ret {A} d (a : A) (Q : A -> Prop) : Q a -> sees d (mret a) Q.
Proof. intros HQ w res w' Hd [= <- <-]. split; [done|]. by intros a' [= <-]. Qed.

Lemma sees_throw {A} d e (Q : A -> Prop) : sees d (throw e) Q.
Proof. intros w res w' Hd [= <- <-]. by split. Qed.

Lemma sees_bind {A B} d (m : M A) (k : A -> M B) (Q1 : A -> Prop) (Q : B -> Prop) :
  sees d m Q1 -> (forall a, Q1 a -> sees d (k a) Q) -> sees d (m ≫= k) Q.
Proof.
  intros Hm Hk w res w' Hd. rewrite bind_eq.
  destruct (m w) as [[a|e] w1] eqn:E; destruct (Hm _ _ _ Hd E) as [Hd1 HQ1].
  - apply Hk; [by apply HQ1|done].
  - intros [= <- <-]. by split.
Qed.

Lemma sees_quiet {A} d (m : M A) : quiet m -> sees d m (fun _ => True).
Proof. intros Hm w res w' Hd E. destruct (Hm _ _ _ E) as [-> _]. by split. Qed.

Lemma sees_bind_any {A B} d (m : M A) (k : A -> M B) (Q : B -> Prop) :
  quiet m -> (forall a, sees d (k a) Q) -> sees d (m ≫= k) Q.
Proof. intros Hm Hk. eapply sees_bind; [by apply sees_quiet|]. intros a _. apply Hk. Qed.

Lemma sees_try_catch {A} d (m : M A) h (Q : A -> Prop) :
  sees d m Q -> (forall e, sees d (h e) Q) -> sees d (try_catch m h) Q.
Proof.
  intros Hm Hh w res w' Hd. unfold try_catch.
  destruct (m w) as [[a|e] w1] eqn:E; destruct (Hm _ _ _ Hd E) as [Hd1 HQ1].
  - intros [= <- <-]. split; [done|]. intros a' [= <-]. by apply HQ1.
  - destruct e; try (by apply Hh). intros [= <- <-]. by split.
Qed.

Lemma sees_countDocuments d q : sees d (countDocuments q) (fun n => n = length (selected q d)).
Proof.
  intros w res w' Hd. unfold countDocuments, read, store_call. rewrite !bind_eq.
  destruct (faults w (clock w)); [intros [= <- <-]; by split|].
  cbn [gets mret M_ret]. intros [= <- <-]. change (db (tick w)) with (db w).
  split; [done|]. intros a [= <-]. by rewrite Hd.
Qed.

Lemma quiet_opt_trim v : quiet (opt_trim v).
Proof. unfold opt_trim. destruct (nullish v); [auto with quiet|]. destruct v; auto with quiet. Qed.

Lemma quiet_category_filter category : quiet (category_filter category).
Proof.
  unfold category_filter. apply quiet_bind; [apply quiet_opt_trim|]. intros trimmed.
  destruct (truthy trimmed); [|auto with quiet].
  destruct (castObjectId category); [auto with quiet|].
  apply quiet_bind; [auto with quiet|]. intros d.
  destruct category; auto with quiet. destruct (find _ _); auto with quiet.
Qed.

Lemma quiet_id_filter what mk ids : quiet (id_filter what mk ids).
Proof.
  unfold id_filter. destruct (forallb _ _); [|auto with quiet].
  apply quiet_bind; auto with quiet.
Qed.

Lemma quiet_parseFilterArray value : quiet (parseFilterArray value).
Proof.
  unfold parseFilterArray. destruct (negb _); [auto with quiet|].
  destruct value; auto with quiet.
  apply quiet_bind; [|auto with quiet]. apply quiet_mapM. intros v.
  destruct (truthy v); [|auto with quiet]. destruct v; auto with quiet.
Qed.

Lemma quiet_sort_of allowed sortBy sortOrder : quiet (sort_of allowed sortBy sortOrder).
Proof.
  unfold sort_of. destruct (existsb _ _); [|auto with quiet].
  destruct sortBy; auto with quiet. destruct sortOrder; auto with quiet.
Qed.

Lemma quiet_find_page q skip : quiet (find_page q skip).
Proof. unfold find_page. destruct (skip <? 0); auto with quiet. Qed.

Lemma sees_of {A} d (m : M A) (Q : A -> Prop) : quiet m -> yields m Q -> sees d m Q.
Proof.
  intros Hq Hy w res w' Hd E. destruct (Hq _ _ _ E) as [-> _]. split; [done|].
  intros a ->. by eapply Hy.
Qed.

Lemma sees_category_filter d category : sees d (category_filter category) rejection.
Proof.
  apply sees_of; [apply quiet_category_filter|].
  eapply yields_weaken; [apply category_filter_clauses|]. by intros x [Hx _].
Qed.

(** The colour and brand blocks of filterCustomerProducts. *)
Lemma sees_id_block d what mk (value : JsVal) :
  sees d (if truthy value then
            ids ← parseFilterArray value;
            match ids with
            | [] => mret (inl (respond BAD_REQUEST (Text what)))
            | _ => id_filter what mk (map JString ids)
            end
          else mret (inr [])) rejection.
Proof.
  destruct (truthy value); [|by apply sees_ret].
  apply sees_bind_any; [apply quiet_parseFilterArray|]. intros [|i ids].
  - apply sees_ret. simpl. eauto.
  - apply sees_of; [apply quiet_id_filter|]. unfold id_filter.
    destruct (forallb _ _); [|apply yields_ret; simpl; eauto].
    apply yields_bind_any. intros os. by apply yields_ret.
Qed.



Lemma sees_find_page d q skip : sees d (find_page q skip) (fun _ => 0 <= skip).
Proof.
  unfold find_page. destruct (Z.ltb_spec skip 0); [apply sees_throw|].
  eapply sees_of; [auto with quiet|]. by intros w a w' _.
Qed.

(** What a page of getCustomerProducts is, on documents [d]. *)
Lemma getCustomerProducts_sees req d :
  sees d (getCustomerProducts req)
       (fun r => forall page, data r = Some page ->
          (exists rest, pg_query page = Q_isVisible true :: Q_isSoldOut false :: rest)
          /\ pg_totalItems page = length (selected (pg_query page) d)
          /\ 0 <= pg_skip page).
Proof.
  unfold getCustomerProducts.
  destruct (nullish _); [apply sees_throw|].
  apply sees_bind_any; [apply quiet_opt_trim|]. intros trimmed.
  eapply sees_bind; [apply sees_category_filter|].
  intros [response|categoryClauses] Hrej; [destruct Hrej as [m ->]; by apply sees_ret|].
  apply sees_bind_any; [apply quiet_opt_trim|]. intros tagsTrimmed.
  eapply sees_bind with (Q1 := rejection).
  { destruct (truthy _); [|by apply sees_ret].
    apply sees_of; [apply quiet_id_filter|].
    eapply yields_weaken; [by apply id_filter_clauses|]. by intros x [Hx _]. }
  intros [response|colorClauses] Hrej1; [destruct Hrej1 as [m ->]; by apply sees_ret|].
  eapply sees_bind with (Q1 := rejection).
  { destruct (truthy _); [|by apply sees_ret].
    apply sees_of; [apply quiet_id_filter|].
    eapply yields_weaken; [by apply id_filter_clauses|]. by intros x [Hx _]. }
  intros [response|brandClauses] Hrej2; [destruct Hrej2 as [m ->]; by apply sees_ret|].
  apply sees_bind_any.
  { destruct (truthy _); [|auto with quiet].
    destruct (field (req_query req) "collections"); auto with quiet. }
  intros collectionArray.
  apply sees_bind_any; [apply quiet_sort_of|]. intros sort.
  apply sees_try_catch; [|intros e; by apply sees_ret].
  eapply sees_bind; [apply sees_countDocuments|]. intros totalProducts ->.
  eapply sees_bind; [apply sees_find_page|]. intros [] Hskip.
  apply sees_ret. intros page [= <-]. cbn [pg_query pg_totalItems pg_limit pg_skip].
  split; [|by split].
  repeat match goal with
         | |- context [if ?b then _ else _] => destruct b
         | |- context [match ?l with [] => _ | _ :: _ => _ end] => destruct l
         end; cbn [app]; eauto.
Qed.

(** X10. getCustomerProducts never shows a hidden or a sold-out product.
    Whatever the parameters, a page it answers with selects only products
    that are visible and not sold out, the total it reports is the number
    of stored products its query selects, and it skips no negative number
    of products: a request whose page and limit give a negative skip gets
    no page. *)
Theorem getCustomerProducts_page req w r w' page :
  getCustomerProducts req w = (Ret r, w') -> data r = Some page ->
  Forall (fun p => p_isVisible p = true /\ p_isSoldOut p = false)
         (selected (pg_query page) (db w))
  /\ pg_totalItems page = length (selected (pg_query page) (db w))
  /\ 0 <= pg_skip page.
Proof.
  intros Hrun Hpage.
  destruct (getCustomerProducts_sees req (db w) _ _ _ eq_refl Hrun) as [_ Hr].
  destruct (Hr _ eq_refl _ Hpage) as ([rest Hq] & Htotal & Hskip).
  split; [|done].
  apply Forall_forall. intros p [Hp _]%list_elem_of_filter.
  rewrite Hq in Hp. cbn [matches forallb clause_matches] in Hp.
  destruct (p_isVisible p), (p_isSoldOut p); done.
Qed.

End Listings.


(** The first page of the shop. *)
Lemma getCustomerProducts_page_witness :
  let req := Sample.query [] in
  let w := Shop.world in
  let out := @Filter.getCustomerProducts Reference.platform req w in
  exists page, data (Sample.answer out.1) = Some page
    /\ Forall (fun p => p_isVisible p = true /\ p_isSoldOut p = false)
              (@selected Reference.platform (Filter.pg_query page) (db w))
    /\ Filter.pg_totalItems page
       = length (@selected Reference.platform (Filter.pg_query page) (db w))
    /\ 0 <= Filter.pg_skip page.
Proof.
  intros req w out. eexists. split; [vm_compute; reflexivity|].
  apply (@getCustomerProducts_page Reference.platform req w (Sample.answer out.1) out.2);
    vm_compute; reflexivity.
Defined.
(* ===================================================================== *)
(** ** What the slug keeps, and the escaped search text *)
(* ===================================================================== *)

Section SlugMore.
Import Slug.

Lemma alnums_replace_runs b s : alnums (replace_runs b s) = alnums s.
Proof.
  revert b. induction s as [|c t IH]; intros b; [done|].
  cbn [replace_runs]. unfold alnums in *. cbn [List.filter].
  destruct (is_alnum c) eqn:Hc.
  - cbn [List.filter]. by rewrite Hc, IH.
  - destruct b; [apply IH|]. cbn [List.filter].
    change (is_alnum hyphen) with false. apply IH.
Qed.

Lemma alnums_drop_hyphens s : alnums (drop_hyphens s) = alnums s.
Proof.
  induction s as [|c t IH]; [done|]. cbn [drop_hyphens].
  destruct (is_hyphen c) eqn:Hc; [|done].
  unfold alnums in *. cbn [List.filter]. by rewrite (hyphen_not_alnum _ Hc).
Qed.

Lemma alnums_drop_trailing s : alnums (drop_trailing_hyphens s) = alnums s.
Proof.
  induction s as [|c t IH]; [done|]. cbn [drop_trailing_hyphens].
  unfold alnums in *. cbn [List.filter]. rewrite <- IH.
  destruct (drop_trailing_hyphens t) as [|c' t'] eqn:Ht.
  - destruct (is_hyphen c) eqn:Hc; [by rewrite (hyphen_not_alnum _ Hc)|].
    cbn [List.filter]. by destruct (is_alnum c).
  - cbn [List.filter]. done.
Qed.

Lemma tidy_no_alnums s :
  tidy false s = true -> clean_start s = true -> alnums s = [] -> s = [].
Proof.
  destruct s as [|c t]; [done|]. cbn [tidy clean_start]. unfold alnums. cbn [List.filter].
  destruct (is_alnum c); [done|]. by destruct (is_hyphen c).
Qed.

(** X11. The slug keeps exactly the lower-case letters and digits of the
    lower-cased text, in their order: everything else only decides where
    the hyphens go.  So two texts get the same slug only if they have the
    same letters and digits, and the slug is empty exactly when the
    lower-cased text has no letter and no digit at all. *)
Theorem normalize_keeps_alnums `{CaseConversion} text :
  alnums (normalize text) = alnums (toLowerCase text)
  /\ (normalize text = [] <-> alnums (toLowerCase text) = []).
Proof.
  assert (alnums (normalize text) = alnums (toLowerCase text)) as Hkeep.
  { unfold normalize, strip_hyphens.
    by rewrite alnums_drop_trailing, alnums_drop_hyphens, alnums_replace_runs. }
  split; [done|]. rewrite <- Hkeep. split; [by intros ->|].
  destruct (normalize_tidy text) as (Ht & Hs & _). by apply tidy_no_alnums.
Qed.

End SlugMore.

Section EscapeMore.

(** X12. The escaped search text is a pattern without operators that
    denotes the search text itself: read back with every backslash taken
    as the escape of the metacharacter after it, it is the text, so no
    character of a search can act as a regular-expression operator. *)
Theorem escape_regex_literal s : literal_of (escape_regex s) = Some s.
Proof.
  unfold escape_regex. induction s as [|c t IH]; [done|].
  cbn [map concat]. destruct (is_meta c) eqn:Hc.
  - cbn [app literal_of N.eqb Pos.eqb]. cbn [app] in IH. by rewrite Hc, IH.
  - cbn [app literal_of]. destruct (N.eqb c 92) eqn:H92.
    + apply N.eqb_eq in H92. by subst c.
    + by rewrite Hc, IH.
Qed.

End EscapeMore.
(* ===================================================================== *)
(** ** updateProduct: the slug follows the name *)
(* ===================================================================== *)

Section UpdateSlug.
Context `{Platform}.
Import Update.

Lemma sees_Product_findOne d f :
  sees d (Product_findOne f) (fun x => x = find f (snd <$> map_to_list (products d))).
Proof.
  intros w res w' Hd E. destruct (quiet_Product_findOne _ _ _ _ E) as [-> _].
  split; [done|]. intros x ->. rewrite <- Hd. by eapply Product_findOne_result.
Qed.

Lemma differs_from_false a s : differs_from a s = false -> a = JString s.
Proof.
  destruct a; try done. simpl. intros Hs%negb_false_iff%bool_decide_eq_true. by subst.
Qed.

Lemma checks_slug req product d :
  sees d (checks req product)
       (fun x => forall prepared, x = inr prepared ->
                   slug_checked req (doc product) d (pr_slug prepared)).
Proof.
  unfold checks.
  destruct (nullish _); [apply sees_throw|].
  apply sees_bind_any.
  { destruct (_ && _); [apply quiet_validate_variants|auto with quiet]. }
  intros [response|]; [by apply sees_ret|].
  apply sees_bind_any.
  { apply quiet_try_catch; [|auto with quiet].
    repeat (apply quiet_bind; [apply quiet_parse_or_keep|]; intros ?). auto with quiet. }
  intros [error|[[[variants tags] specifications] collections]]; [by apply sees_ret|].
  apply sees_bind_any.
  { destruct (_ && _); [|auto with quiet].
    apply quiet_bind; [apply quiet_named_colors|]. intros colorIds.
    apply quiet_bind; [apply quiet_Color_find_in|]. intros validColors. apply quiet_ret. }
  intros [|]; [by apply sees_ret|].
  apply sees_bind_any; [apply quiet_merge_variants|]. intros updatedVariants.
  apply sees_bind_any.
  { destruct (_ && _); [apply quiet_replace_images|auto with quiet]. }
  intros updatedVariants'.
  apply sees_bind_any.
  { destruct (_ && _); [apply quiet_some_has_images|auto with quiet]. }
  intros hasImages. destruct (negb hasImages); [by apply sees_ret|].
  eapply sees_bind with
    (Q1 := fun x => forall slug, x = Some slug -> slug_checked req (doc product) d slug).
  - unfold slug_checked. cbv zeta.
    destruct (truthy _ && differs_from _ _); [|apply sees_ret; by intros slug [= <-]].
    destruct (field (req_body req) "name") as [| | | |s| | |];
      try apply sees_throw.
    eapply sees_bind with (Q1 := fun x => x = Slug.normalize s); [by apply sees_ret|].
    intros slug0 ->. eapply sees_bind; [apply sees_Product_findOne|].
    intros existingProduct ->.
    destruct (find _ _) as [e|] eqn:Hfind.
    + destruct (differs_from (req_id req) _) eqn:Hid; apply sees_ret; [done|].
      intros slug [= <-]. exists s. rewrite Hfind. repeat split.
      by apply differs_from_false.
    + apply sees_ret. intros slug [= <-]. exists s. by rewrite Hfind.
  - intros [slug|] Hslug; apply sees_ret; [|done].
    intros prepared [= <-]. by apply Hslug.
Qed.

Lemma updateProduct_prepared req w r w' :
  updateProduct req w = (Ret r, w') -> statusCode r = OK ->
  exists o p prepared,
    castObjectId (req_id req) = Some o
    /\ products (db w) !! o = Some p
    /\ slug_checked req p (db w) (pr_slug prepared)
    /\ update_committed req (populate (db w) p) prepared o r (db w) (db w').
Proof.
  unfold updateProduct. intros Hrun Hok.
  destruct (negb (isValidObjectId (req_id req))); [by injection Hrun as <- <-|].
  rewrite bind_eq in Hrun. unfold Product_findById in Hrun.
  destruct (castObjectId (req_id req)) as [o|] eqn:Ho; [|done].
  rewrite bind_eq in Hrun. unfold read in Hrun at 1. rewrite bind_eq in Hrun.
  unfold store_call in Hrun at 1.
  destruct (faults w (clock w)); [done|].
  cbn [gets mret M_ret] in Hrun. change (db (tick w)) with (db w) in Hrun.
  destruct (products (db w) !! o) as [p|] eqn:Hp; [|by injection Hrun as <- <-].
  rewrite bind_eq in Hrun. cbn [gets] in Hrun. change (db (tick w)) with (db w) in Hrun.
  rewrite bind_eq in Hrun.
  destruct (checks req (populate (db w) p) (tick w)) as [[checked|e] w1] eqn:E1; [|done].
  destruct (checks_slug req (populate (db w) p) (db w) (tick w) _ _ eq_refl E1) as [Hd1 Hslug].
  destruct checked as [response|prepared].
  { rewrite ret_eq in Hrun. injection Hrun as <- <-.
    by destruct (checks_reject _ _ _ _ _ E1). }
  specialize (Hslug _ eq_refl _ eq_refl). cbn [populate doc] in Hslug.
  unfold transaction in Hrun.
  destruct (in_session_all_or_nothing _ _ _ _
              (update_unit req (populate (db w) p) prepared o Ho)
              (fun e => quiet_ret _) _ _ _ Hrun)
    as [(a & w2 & [= <-] & _ & Hcommitted)|[Hd Hno]].
  - rewrite Hd1. eauto.
  - exists o, p, prepared. rewrite Hd1 in Hcommitted. done.
  - destruct (Hno _ eq_refl) as (e & w2 & w3 & [= Hr]).
    first [by rewrite <- Hr in Hok | by rewrite Hr in Hok].
Qed.

Lemma committed_products_map req product prepared o r d d' :
  update_committed req product prepared o r d d' ->
  exists fields p',
    pure_result (updateData product (req_body req) (pr_tags prepared)
                   (pr_specifications prepared) (pr_collections prepared)
                   (pr_updatedVariants prepared) (pr_slug prepared)) (Ret fields)
    /\ castProduct o fields = Some p'
    /\ products d' = alter (fun _ => p') o (products d).
Proof.
  intros (fields & p' & moves & Hpure & Hcast & _ & Hmoves & ->).
  exists fields, p'. split; [done|]. split; [done|].
  rewrite !app_assoc, apply_writes_app. cbn [apply_writes foldl apply_write products].
  change (foldl (fun acc op => apply_write op acc) ?d ?l) with (apply_writes l d).
  rewrite !apply_writes_app.
  rewrite (proj1 (color_ops_frame _ _ _)), (proj1 (color_ops_frame _ _ _)).
  by rewrite (category_ops_products _ _ _ _ Hmoves).
Qed.

Lemma updateData_slug product body tags specifications collections updatedVariants slug fields :
  pure_result (updateData product body tags specifications collections updatedVariants slug)
              (Ret fields) ->
  f_slug fields = JString slug.
Proof.
  intros Hpure.
  specialize (Hpure {| db := {| products := ∅; categories := ∅; colors := ∅; brands := ∅ |};
                       txn := None; uploads := ∅; cloud := ∅; global_Image := false;
                       next_oid := 0%N; clock := O; faults := fun _ => false |}).
  unfold updateData, get_prop in Hpure.
  rewrite !bind_eq in Hpure.
  destruct (nullish (field body "category")), (nullish (field body "brand")),
    (nullish (pop_category product)), (nullish (pop_brand product));
    try done; by injection Hpure as <-.
Qed.

(** X13. In updateProduct the slug follows the name and stays unique.
    When Mongoose's string cast keeps strings, an update that commits
    changes no product but the one it names; that product's slug is the
    normalised new name when the request renames it and is what it was
    otherwise; and in a store whose products sit under their own ids, no
    two of them sharing a slug, no two share a slug afterwards. *)
Theorem updateProduct_slug_follows_name req w r w' o p :
  (forall s, castString (JString s) = Some s) ->
  updateProduct req w = (Ret r, w') -> statusCode r = OK ->
  castObjectId (req_id req) = Some o ->
  products (db w) !! o = Some p ->
  exists p',
    products (db w') = <[o := p']> (products (db w))
    /\ p_slug p' = match field (req_body req) "name" with
                   | JString s => if nonempty s && negb (bool_decide (s = p_name p))
                                  then Slug.normalize s else p_slug p
                   | _ => p_slug p
                   end
    /\ (keyed_by_id (products (db w)) -> unique_slugs (products (db w)) ->
        unique_slugs (products (db w'))).
Proof.
  intros Hstring Hrun Hok Ho Hp.
  destruct (updateProduct_prepared _ _ _ _ Hrun Hok)
    as (o' & p0 & prepared & Ho' & Hp' & Hslug & Hcommitted).
  rewrite Ho in Ho'. injection Ho' as <-. rewrite Hp in Hp'. injection Hp' as <-.
  destruct (committed_products_map _ _ _ _ _ _ _ Hcommitted)
    as (fields & p' & Hpure & Hcast & Hproducts).
  destruct (castProduct_references _ _ _ Hcast) as [Hs _].
  rewrite (updateData_slug _ _ _ _ _ _ _ _ Hpure), Hstring in Hs. injection Hs as Hs.
  assert (products (db w') = <[o := p']> (products (db w))) as Hmap.
  { rewrite Hproducts. apply map_eq. intros k. destruct (decide (k = o)) as [->|Hne].
    - by rewrite lookup_alter_eq, lookup_insert_eq, Hp.
    - by rewrite lookup_alter_ne, lookup_insert_ne. }
  exists p'. split; [done|]. rewrite <- Hs. unfold slug_checked in Hslug. cbv zeta in Hslug.
  split.
  - destruct (field (req_body req) "name") as [| | | |s| | |].
    all: try (match type of Hslug with
              | (if ?b then _ else _) => destruct b
              end; [by destruct Hslug as (? & [=] & _)|done]).
    destruct s as [|c s]; [done|]. cbn [truthy differs_from nonempty andb] in *.
    match type of Hslug with
    | (if negb ?b then _ else _) => destruct b eqn:Hb1
    end;
      match goal with
      | |- _ = (if negb ?b then _ else _) => destruct b eqn:Hb2
      end; cbn [negb] in *; try done.
    all: try (apply bool_decide_eq_true in Hb1; by apply bool_decide_eq_false in Hb2).
    all: try (apply bool_decide_eq_true in Hb2; by apply bool_decide_eq_false in Hb1).
    by destruct Hslug as (s' & [= <-] & -> & _).
  - intros Hkeyed Hunique.
    assert (forall k q, k <> o -> products (db w) !! k = Some q ->
                        p_slug q <> pr_slug prepared) as Hfresh.
    { intros k q Hne Hq Heq.
      destruct (truthy _ && differs_from _ _);
        [|apply Hne; eapply Hunique; [done..|congruence]].
      destruct Hslug as (s & _ & Hnorm & Hfound).
      destruct (find _ _) as [e|] eqn:Hfind.
      - destruct (find_some _ _ Hfind) as [ke%list_elem_of_In Hes].
        apply list_elem_of_fmap in ke as ([k0 e0] & -> & Hin%elem_of_map_to_list).
        apply bool_decide_eq_true in Hes. cbn [snd] in *.
        destruct (Hkeyed _ _ Hin) as [Hid Hback].
        unfold reads_back in Hback. apply andb_true_iff in Hback as [_ Hback].
        apply bool_decide_eq_true in Hback.
        rewrite Hfound, Hid, Hback in Ho. injection Ho as ->.
        apply Hne. eapply Hunique; [done..|congruence].
      - assert (bool_decide (p_slug q = pr_slug prepared) = false) as Hno.
        { apply (find_none _ _ Hfind q), list_elem_of_In, list_elem_of_fmap.
          exists (k, q). split; [done|]. by apply elem_of_map_to_list. }
        by apply bool_decide_eq_false in Hno. }
    intros o1 o2 p1 p2. rewrite Hmap.
    destruct (decide (o1 = o)) as [->|H1], (decide (o2 = o)) as [->|H2]; [done|..].
    + rewrite lookup_insert_eq, lookup_insert_ne by done.
      intros [= <-] H2' Heq. destruct (Hfresh _ _ H2 H2'). congruence.
    + rewrite lookup_insert_eq, lookup_insert_ne by done.
      intros H1' [= <-] Heq. destruct (Hfresh _ _ H1 H1'). congruence.
    + rewrite !lookup_insert_ne by done. apply Hunique.
Qed.

End UpdateSlug.

(** The shirt, renamed. *)
Lemma updateProduct_slug_follows_name_witness :
  let req := Sample.shirt_update [("name"%string, JString (js "Green Shirt"))] in
  let w := Sample.world false ∅ Sample.no_faults in
  let out := @Update.updateProduct Reference.platform req w in
  exists p',
    products (db out.2) = <[100%N := p']> (products (db w))
    /\ p_slug p' = js "green-shirt"
    /\ (@keyed_by_id Reference.platform (products (db w)) ->
        unique_slugs (products (db w)) -> unique_slugs (products (db out.2))).
Proof.
  intros req w out.
  destruct (@updateProduct_slug_follows_name Reference.platform req w
              (Sample.answer out.1) out.2 100%N Sample.shirt)
    as (p' & Hmap & Hslug & Hunique);
    [intros s; reflexivity | vm_compute; reflexivity..|].
  exists p'. split; [done|]. split; [|done]. rewrite Hslug. vm_compute. reflexivity.
Defined.
(* ===================================================================== *)
(** ** The brand handlers *)
(* ===================================================================== *)

Section BrandFacts.
Context `{Platform}.
Import Brands.

(** What the handlers leave of the documents when they touch the brands. *)
Lemma set_brands_db bs w :
  products (db (set_brands bs w)) = products (db w)
  /\ categories (db (set_brands bs w)) = categories (db w)
  /\ colors (db (set_brands bs w)) = colors (db w)
  /\ brands (db (set_brands bs w)) = bs.
Proof. done. Qed.

Lemma set_brands_same w : db (set_brands (brands (db w)) w) = db w.
Proof. by destruct w as [[] ? ? ? ? ? ? ?]. Qed.

Lemma Brand_write_result isNew o b w res w' :
  Brand_write isNew o b w = (res, w') ->
  (exists e, res = Throw e /\ db w' = db w)
  \/ (res = Ret tt
      /\ db w' = db (set_brands (<[o := b]> (brands (db w))) w)
      /\ collides o b (brands (db w)) = false
      /\ (isNew = true -> brands (db w) !! o = None)).
Proof.
  unfold Brand_write, store_call. rewrite bind_eq.
  destruct (faults w (clock w)); [intros [= <- <-]; left; eauto|].
  rewrite bind_eq. cbn [gets]. change (db (tick w)) with (db w).
  destruct (collides o b (brands (db w))); cbn [orb]; [intros [= <- <-]; left; eauto|].
  destruct isNew.
  - destruct (bool_decide_reflect (is_Some (brands (db w) !! o))) as [|Hfree];
      [intros [= <- <-]; left; eauto|].
    intros [= <- <-]. right. repeat split.
    intros _. by apply eq_None_not_Some.
  - destruct (bool_decide (brands (db w) !! o = None));
      [intros [= <- <-]; left; eauto|].
    intros [= <- <-]. right. by repeat split.
Qed.

Lemma Brand_exists_result o w res w' :
  Brand_exists o w = (res, w') ->
  db w' = db w /\ (res = Ret tt -> is_Some (brands (db w) !! o)).
Proof.
  unfold Brand_exists, store_call. rewrite bind_eq.
  destruct (faults w (clock w)); [by intros [= <- <-]|].
  rewrite bind_eq. cbn [gets]. change (db (tick w)) with (db w).
  destruct (bool_decide_reflect (brands (db w) !! o = None)) as [|Hsome];
    [by intros [= <- <-]|].
  intros [= <- <-]. split; [done|]. intros _. by apply not_eq_None_Some.
Qed.

Lemma unmodified_eq b0 b : unmodified (Some b0) b = true -> b = b0.
Proof.
  destruct b0, b. cbn. intros [Hn%bool_decide_eq_true Hs%bool_decide_eq_true]%andb_true_iff.
  by subst.
Qed.

(** What [save()] has done when it returns, and that it has done nothing
    when it throws. *)
Lemma save_result loaded o name w res w' :
  save loaded o name w = (res, w') ->
  (exists e, res = Throw e /\ db w' = db w)
  \/ (exists n,
        let b := pre_save {| brand_name := n;
                             brand_slug := match loaded with
                                           | Some b0 => brand_slug b0
                                           | None => []
                                           end |} in
        name = inr (Some n) /\ valid_name n = true /\ res = Ret (o, b)
        /\ products (db w') = products (db w)
        /\ categories (db w') = categories (db w)
        /\ colors (db w') = colors (db w)
        /\ (if unmodified loaded b then db w' = db w
            else brands (db w') = <[o := b]> (brands (db w))
                 /\ collides o b (brands (db w)) = false
                 /\ (loaded = None -> brands (db w) !! o = None))).
Proof.
  unfold save. destruct name as [[]|[n|]]; try (intros [= <- <-]; left; eauto).
  destruct (valid_name n) eqn:Hvalid; [|intros [= <- <-]; left; eauto].
  cbv zeta. rewrite bind_eq.
  destruct (unmodified loaded _) eqn:Hsame.
  - destruct (Brand_exists o w) as [[[]|e] w1] eqn:E; destruct (Brand_exists_result _ _ _ _ E)
      as [Hd _]; intros [= <- <-]; [right|left; eauto].
    exists n. cbv zeta. rewrite Hsame, Hd. by repeat split.
  - destruct (Brand_write _ o _ w) as [[[]|e] w1] eqn:E;
      destruct (Brand_write_result _ _ _ _ _ _ E)
        as [(e' & He & Hd)|(He & Hd & Hfree & Hnew)]; try discriminate He;
      intros [= <- <-]; [right|left; eauto].
    exists n. cbv zeta. rewrite Hsame, Hd. repeat split; [done..|].
    intros ->. by apply Hnew.
Qed.

Lemma Brand_findById_quiet_result id w res w' :
  Brand_findById id w = (res, w') ->
  db w' = db w
  /\ forall x, res = Ret x -> exists o, castObjectId id = Some o /\ x = brands (db w) !! o.
Proof.
  intros E. destruct (quiet_Brand_findById _ _ _ _ E) as [Hd _]. split; [done|].
  intros x ->. by eapply Brand_findById_result.
Qed.

Lemma quiet_Brand_findOne_name name : quiet (Brand_findOne_name name).
Proof.
  unfold Brand_findOne_name. destruct (set_name name); [auto with quiet|].
  apply quiet_bind; auto with quiet.
Qed.

Lemma Brand_findOne_name_result name w x w' :
  Brand_findOne_name name w = (Ret x, w') ->
  exists wanted, set_name name = inr wanted
    /\ x = match wanted with
           | Some s => find (fun kb => bool_decide (brand_name kb.2 = s))
                            (map_to_list (brands (db w)))
           | None => None
           end.
Proof.
  unfold Brand_findOne_name. destruct (set_name name) as [|wanted]; [done|].
  rewrite bind_eq. destruct (read false w) as [[d|e] w1] eqn:E; [|done].
  intros [= <- <-]. exists wanted. by rewrite (read_committed _ _ _ E d eq_refl).
Qed.

(** X14. deleteBrand never leaves a product without its brand.  It changes
    no document unless it answers OK; then the brand the request names,
    which no product refers to, is gone and nothing else has changed.  So
    a product whose brand exists before the call has it afterwards. *)
Theorem deleteBrand_keeps_references req w res w' :
  deleteBrand req w = (res, w') ->
  ((forall r, res = Ret r -> statusCode r <> OK) -> db w' = db w)
  /\ (forall r, res = Ret r -> statusCode r = OK ->
        exists o, castObjectId (req_id req) = Some o
          /\ is_Some (brands (db w) !! o)
          /\ (forall k p, products (db w) !! k = Some p -> p_brand p <> o)
          /\ brands (db w') = delete o (brands (db w)))
  /\ products (db w') = products (db w)
  /\ categories (db w') = categories (db w)
  /\ colors (db w') = colors (db w)
  /\ (forall k p, products (db w) !! k = Some p ->
        is_Some (brands (db w) !! p_brand p) -> is_Some (brands (db w') !! p_brand p)).
Proof.
  unfold deleteBrand. rewrite bind_eq.
  destruct (Brand_findById _ w) as [[brand|e] w1] eqn:E1;
    destruct (Brand_findById_quiet_result _ _ _ _ E1) as [Hd1 Hfound];
    [|intros [= <- <-]; rewrite Hd1; by repeat split].
  destruct (Hfound _ eq_refl) as (o & Ho & ->).
  destruct (brands (db w) !! o) as [b|] eqn:Hb;
    [|intros [= <- <-]; rewrite Hd1; repeat split; try done; by intros r [= <-]].
  rewrite bind_eq. unfold Product_findOne_brand. rewrite Ho.
  destruct (Product_findOne _ w1) as [[productWithBrand|e] w2] eqn:E2;
    destruct (quiet_Product_findOne _ _ _ _ E2) as [Hd2 _];
    [|intros [= <- <-]; rewrite Hd2, Hd1; by repeat split].
  apply Product_findOne_result in E2. rewrite Hd1 in E2.
  destruct (bool_decide_reflect (is_Some productWithBrand)) as [|Hnone].
  { intros [= <- <-]. rewrite Hd2, Hd1. repeat split; try done. by intros r [= <-]. }
  destruct productWithBrand as [q|]; [destruct Hnone; eauto|].
  assert (forall k p, products (db w) !! k = Some p -> p_brand p <> o) as Hfree.
  { intros k p Hp Heq.
    assert (bool_decide (p_brand p = o) = false) as Hno.
    { symmetry in E2. apply (find_none _ _ E2 p), list_elem_of_In, list_elem_of_fmap.
      exists (k, p). split; [done|]. by apply elem_of_map_to_list. }
    by apply bool_decide_eq_false in Hno. }
  rewrite bind_eq. unfold Brand_deleteOne. rewrite Ho, bind_eq. unfold store_call.
  destruct (faults w2 (clock w2)); [intros [= <- <-]; simpl; rewrite Hd2, Hd1; by repeat split|].
  cbn [modify]. intros [= <- <-]. cbn [db set_brands set_db products categories colors brands tick].
  rewrite Hd2, Hd1.
  split; [intros Hnot; by destruct (Hnot _ eq_refl)|].
  split; [intros r _ _; exists o; by rewrite Hb; eauto|].
  repeat split. intros k p Hp [c Hc]. rewrite lookup_delete_ne; [by eexists|].
  intros Heq. by apply (Hfree k p Hp).
Qed.

(** X15. Renaming a brand does not change its slug.  An update that is
    answered with OK for a brand that has a slug leaves that slug as it
    is, whatever the new name; the name is the trimmed new name when the
    request gives one and is what it was otherwise, it is a valid name,
    and no other document has changed. *)
Theorem updateBrand_keeps_slug req w r w' o b :
  updateBrand req w = (Ret r, w') -> statusCode r = OK ->
  castObjectId (req_id req) = Some o ->
  brands (db w) !! o = Some b ->
  nonempty (brand_slug b) = true ->
  exists b',
    data r = Some (o, b')
    /\ brand_slug b' = brand_slug b
    /\ brand_name b' = (if truthy (field (req_body req) "name")
                        then match castString (field (req_body req) "name") with
                             | Some s => js_trim s
                             | None => brand_name b
                             end
                        else brand_name b)
    /\ valid_name (brand_name b') = true
    /\ brands (db w') = <[o := b']> (brands (db w))
    /\ products (db w') = products (db w)
    /\ categories (db w') = categories (db w)
    /\ colors (db w') = colors (db w).
Proof.
  unfold updateBrand. intros Hrun Hok Ho Hb Hslug. rewrite bind_eq in Hrun.
  unfold get_prop in Hrun. destruct (nullish (req_body req)); [done|].
  rewrite ret_eq, bind_eq in Hrun. set (name := field (req_body req) "name") in *.
  destruct (Brand_findById _ w) as [[brand|e] w1] eqn:E1;
    destruct (Brand_findById_quiet_result _ _ _ _ E1) as [Hd1 Hfound]; [|done].
  destruct (Hfound _ eq_refl) as (o' & Ho' & ->). rewrite Ho in Ho'. injection Ho' as <-.
  rewrite Hb, Ho in Hrun. rewrite bind_eq in Hrun.
  assert (exists w2 n,
             db w2 = db w
             /\ save (Some b) o (inr (Some n)) w2 = (Ret (o, snd (default (o, b) (data r))), w')
             /\ data r = Some (o, snd (default (o, b) (data r)))
             /\ n = (if truthy name
                     then match castString name with Some s => js_trim s | None => brand_name b end
                     else brand_name b)) as (w2 & n & Hd2 & Hsave & Hdata & Hn).
  { destruct (truthy name) eqn:Htruthy.
    - rewrite bind_eq in Hrun.
      destruct (Brand_findOne_name name w1) as [[existingBrand|e] w2] eqn:E2;
        destruct (quiet_Brand_findOne_name _ _ _ _ E2) as [Hd2 _]; [|done].
      apply Brand_findOne_name_result in E2 as (wanted & Hset & _).
      assert (exists s, castString name = Some s /\ set_name name = inr (Some (js_trim s)))
        as (s & Hcast & Hset').
      { unfold set_name in *. destruct (nullish name) eqn:Hnull; [by destruct name|].
        destruct (castString name) as [s|]; [eauto|done]. }
      rewrite Hcast.
      assert ((mret (inr (set_name name)) ≫= (fun renamed : Response BrandDoc + _ =>
                 match renamed with
                 | inl response => mret response
                 | inr name0 =>
                     updatedBrand ← save (Some b) o name0;
                     mret {| statusCode := OK; message := Text "Brand updated successfully";
                             data := Some updatedBrand |}
                 end)) w2 = (Ret r, w') ->
              exists b', save (Some b) o (inr (Some (js_trim s))) w2 = (Ret (o, b'), w')
                         /\ data r = Some (o, b')) as Hstep.
      { rewrite bind_eq, ret_eq, Hset', bind_eq.
        destruct (save _ _ _ w2) as [[[o1 b1]|e] w3] eqn:E3; [|done].
        intros [= <- <-]. destruct (save_result _ _ _ _ _ _ E3)
          as [(e & [=] & _)|(n & _ & _ & [= <- _] & _)]. eauto. }
      assert (exists b', save (Some b) o (inr (Some (js_trim s))) w2 = (Ret (o, b'), w')
                         /\ data r = Some (o, b')) as (b' & Hsave & Hdata).
      { destruct existingBrand as [e|]; [|by apply Hstep].
        destruct (Update.differs_from _ _); [|by apply Hstep].
        rewrite !ret_eq in Hrun. injection Hrun as <- <-. done. }
      exists w2, (js_trim s). rewrite Hdata. cbn. split; [congruence|done].
    - rewrite ret_eq, bind_eq in Hrun.
      destruct (save _ _ _ w1) as [[[o1 b1]|e] w3] eqn:E3; [|done].
      injection Hrun as <- <-. destruct (save_result _ _ _ _ _ _ E3)
        as [(e & [=] & _)|(n & _ & _ & [= <- _] & _)].
      exists w1, (brand_name b). cbn. by repeat split. }
  destruct (save_result _ _ _ _ _ _ Hsave)
    as [(e & [=] & _)|(n' & [= <-] & Hvalid & [= Hb'] & Hp & Hc & Hcol & Hwritten)].
  cbv zeta in *. unfold pre_save in Hb', Hwritten.
  cbn [brand_slug brand_name] in Hb', Hwritten. rewrite Hslug in Hb', Hwritten.
  cbn [negb andb] in Hb', Hwritten.
  rewrite Hb' in Hdata.
  exists {| brand_name := n; brand_slug := brand_slug b |}.
  cbn [brand_name brand_slug]. rewrite Hp, Hc, Hcol, Hd2, <- Hn.
  repeat split; try done.
  destruct (unmodified _ _) eqn:Hsame.
  - apply unmodified_eq in Hsame. rewrite Hwritten, Hd2, Hsame.
    symmetry. by apply insert_id.
  - destruct Hwritten as (-> & _). by rewrite Hd2.
Qed.

Lemma collides_none o b bs k c :
  collides o b bs = false -> bs !! k = Some c -> k <> o ->
  brand_name c <> brand_name b /\ brand_slug c <> brand_slug b.
Proof.
  unfold collides. intros Hnone Hc Hne.
  assert (In (k, c) (map_to_list bs)) as Hin
    by (by apply list_elem_of_In, elem_of_map_to_list).
  destruct (bool_decide (brand_name c = brand_name b)
            || bool_decide (brand_slug c = brand_slug b)) eqn:Hkc.
  - assert (existsb (fun kb => negb (bool_decide (kb.1 = o))
                               && (bool_decide (brand_name kb.2 = brand_name b)
                                   || bool_decide (brand_slug kb.2 = brand_slug b)))
                    (map_to_list bs) = true) as Hsome; [|congruence].
    apply existsb_exists. exists (k, c). split; [done|]. cbn [fst snd].
    by rewrite bool_decide_false, Hkc.
  - by apply orb_false_elim in Hkc as [Hn%bool_decide_eq_false Hs%bool_decide_eq_false].
Qed.

(** X16. A brand that createBrand reports as created is stored under a
    fresh id with the trimmed name, which is not empty and at most 100
    code units long, and with the normalised name as its slug; no brand
    had that name or that slug before, and no other document has
    changed. *)
Theorem createBrand_created req w r w' :
  createBrand req w = (Ret r, w') -> statusCode r = CREATED ->
  exists o s,
    let b := {| brand_name := js_trim s; brand_slug := Slug.normalize (js_trim s) |} in
    castString (field (req_body req) "name") = Some s
    /\ valid_name (js_trim s) = true
    /\ data r = Some (o, b)
    /\ brands (db w) !! o = None
    /\ brands (db w') = <[o := b]> (brands (db w))
    /\ (forall k c, brands (db w) !! k = Some c ->
          brand_name c <> brand_name b /\ brand_slug c <> brand_slug b)
    /\ products (db w') = products (db w)
    /\ categories (db w') = categories (db w)
    /\ colors (db w') = colors (db w).
Proof.
  unfold createBrand. intros Hrun Hcreated. rewrite bind_eq in Hrun.
  unfold get_prop in Hrun. destruct (nullish (req_body req)); [done|].
  rewrite ret_eq, bind_eq in Hrun. set (name := field (req_body req) "name") in *.
  destruct (Brand_findOne_name name w) as [[existingBrand|e] w1] eqn:E1;
    destruct (quiet_Brand_findOne_name _ _ _ _ E1) as [Hd1 _]; [|done].
  destruct (bool_decide (is_Some existingBrand)); [by injection Hrun as <- <-|].
  rewrite bind_eq in Hrun. unfold new_ObjectId at 1 in Hrun.
  set (w2 := set_next_oid _ w1) in Hrun. rewrite bind_eq in Hrun.
  destruct (save None (next_oid w1) (set_name name) w2) as [[createdBrand|e] w3] eqn:E3;
    [|done].
  injection Hrun as <- <-.
  destruct (save_result _ _ _ _ _ _ E3)
    as [(e & [=] & _)|(n & Hset & Hvalid & [= ->] & Hp & Hc & Hcol & Hb & Hfree & Hnew)].
  assert (db w2 = db w) as Hd2 by done.
  unfold set_name in Hset. destruct (nullish name); [done|].
  destruct (castString name) as [s|]; [|done]. injection Hset as <-.
  pose proof Hvalid as [Hne _]%andb_true_iff.
  unfold pre_save in *. cbn [brand_slug brand_name nonempty negb andb] in *.
  rewrite Hne in *. rewrite Hd2 in *.
  exists (next_oid w1), s. cbv zeta. cbn [data].
  split; [done|]. split; [done|]. split; [done|]. split; [by apply Hnew|].
  split; [done|]. split; [|done].
  intros k c Hkc. apply (collides_none _ _ _ k c Hfree Hkc).
  intros ->. rewrite Hnew in Hkc; done.
Qed.

End BrandFacts.

(** The spare brand of the sample shop is deleted; the brand of the shirt
    stays. *)
Lemma deleteBrand_keeps_references_witness :
  let req := Sample.request (Sample.id_string 21) JUndefined in
  let w := BrandSample.world in
  let out := @Brands.deleteBrand Reference.platform req w in
  out.1 = Ret (respond OK (Text "Brand deleted successfully"))
  /\ brands (db out.2) = delete 21%N (brands (db w))
  /\ forall k p, products (db w) !! k = Some p ->
       is_Some (brands (db w) !! p_brand p) -> is_Some (brands (db out.2) !! p_brand p).
Proof.
  intros req w out. split; [vm_compute; reflexivity|]. split; [vm_compute; reflexivity|].
  apply (@deleteBrand_keeps_references Reference.platform req w out.1 out.2).
  vm_compute. reflexivity.
Defined.

(** The brand of the shirt, renamed with blanks around the new name. *)
Lemma updateBrand_keeps_slug_witness :
  let req := Sample.request (Sample.id_string 20) (BrandSample.named "  Apex  ") in
  let w := BrandSample.world in
  let out := @Brands.updateBrand Reference.platform req w in
  exists b',
    data (Sample.answer out.1) = Some (20%N, b')
    /\ brand_slug b' = js "acme" /\ brand_name b' = js "Apex"
    /\ brands (db out.2) = <[20%N := b']> (brands (db w)).
Proof.
  intros req w out.
  destruct (@updateBrand_keeps_slug Reference.platform req w (Sample.answer out.1) out.2
              20%N {| brand_name := js "acme"; brand_slug := js "acme" |})
    as (b' & Hdata & Hslug & Hname & _ & Hbrands & _); [vm_compute; reflexivity..|].
  exists b'. split; [done|]. split; [done|]. split; [|done].
  rewrite Hname. vm_compute. reflexivity.
Defined.

(** A third brand for the sample shop. *)
Lemma createBrand_created_witness :
  let req := Sample.request JUndefined (BrandSample.named " Nova Line ") in
  let w := BrandSample.world in
  let out := @Brands.createBrand Reference.platform req w in
  exists o s,
    let b := {| brand_name := @js_trim Reference.platform s;
                brand_slug := @Slug.normalize (@platform_case Reference.platform)
                                (@js_trim Reference.platform s) |} in
    s = js " Nova Line " /\ brand_slug b = js "nova-line"
    /\ data (Sample.answer out.1) = Some (o, b)
    /\ brands (db out.2) = <[o := b]> (brands (db w)).
Proof.
  intros req w out.
  destruct (@createBrand_created Reference.platform req w (Sample.answer out.1) out.2)
    as (o & s & Hcast & _ & Hdata & _ & Hbrands & _); [vm_compute; reflexivity..|].
  exists o, s. cbv zeta in *.
  assert (s = js " Nova Line ") as ->.
  { vm_compute in Hcast. injection Hcast as <-. vm_compute. reflexivity. }
  split; [done|]. split; [vm_compute; reflexivity|]. by split.
Defined.
(* ===================================================================== *)
(** ** The other customer handlers *)
(* ===================================================================== *)

Section CustomerFacts.
Context `{Platform}.
Import Filter Customer.

(** X17. getCustomerProductById shows a product only if it is visible and
    not sold out.  An OK answer carries the stored product of the id the
    request names, and that product is visible and not sold out; any other
    answer carries no product; and a product that is hidden or sold out is
    answered exactly like one that does not exist, after a single store
    call, so its view is not counted. *)
Theorem getCustomerProductById_shown_only req w r w' :
  getCustomerProductById req w = (Ret r, w') ->
  (statusCode r = OK ->
     exists o p, castObjectId (req_id req) = Some o
       /\ products (db w) !! o = Some p /\ data r = Some p
       /\ p_isVisible p = true /\ p_isSoldOut p = false)
  /\ (statusCode r <> OK -> data r = None)
  /\ (forall o p, castObjectId (req_id req) = Some o ->
        products (db w) !! o = Some p ->
        p_isVisible p = false \/ p_isSoldOut p = true ->
        r = respond NOT_FOUND (PRODUCT_MESSAGES "PRODUCT_ID_NOT_FOUND")
        /\ clock w' = S (clock w)).
Proof.
  unfold getCustomerProductById.
  destruct (negb (isValidObjectId (req_id req))) eqn:Hvalid.
  { intros [= <- <-]. split; [done|]. split; [done|].
    intros o p Ho. apply negb_true_iff, bool_decide_eq_false in Hvalid.
    destruct Hvalid. by rewrite Ho. }
  rewrite bind_eq. unfold Product_findOne_shown.
  destruct (castObjectId (req_id req)) as [o|] eqn:Ho; [|done].
  rewrite bind_eq. unfold read. rewrite bind_eq. unfold store_call at 1.
  destruct (faults w (clock w)); [done|].
  cbn [gets mret M_ret]. change (db (tick w)) with (db w).
  destruct (products (db w) !! o) as [p|] eqn:Hp.
  2:{ intros [= <- <-]. split; [done|]. split; [done|].
      intros o' p' [= <-] Hp'. by rewrite Hp in Hp'. }
  destruct (p_isVisible p && negb (p_isSoldOut p)) eqn:Hshown.
  - rewrite bind_eq. unfold store_call.
    destruct (faults (tick w) (clock (tick w))); [done|].
    intros [= <- <-]. apply andb_true_iff in Hshown as [Hv Hs%negb_true_iff].
    split; [intros _; by exists o, p|]. split; [done|].
    intros o' p' [= <-] Hp' [Hv'|Hs']; rewrite Hp in Hp'; injection Hp' as <-; congruence.
  - intros [= <- <-]. split; [done|]. split; [done|]. by intros o' p' _ _ _.
Qed.

Lemma opt_trim_result v w res w' :
  opt_trim v w = (res, w') ->
  w' = w
  /\ forall trimmed, res = Ret trimmed -> truthy trimmed = true ->
       exists s, v = JString s /\ nonempty (js_trim s) = true.
Proof.
  unfold opt_trim. destruct (nullish v); [intros [= <- <-]; split; [done|]; by intros ? [= <-]|].
  destruct v; intros [= <- <-]; (split; [done|]); try done.
  intros trimmed [= <-]. cbn [truthy]. destruct (js_trim s) eqn:Hs; [done|]. intros _.
  exists s. by rewrite Hs.
Qed.

(** X18. searchCustomerProducts needs a search text and shows only what
    may be shown.  A page it answers with is for a search that is a string
    with something left after trimming; its query selects products that
    are visible and not sold out and that the escaped text matches in the
    name, the description or a tag; the total is the number of stored
    products the query selects, and no negative number of products is
    skipped.  A search that is absent or a string that trims to nothing is
    refused with BAD_REQUEST before the store is asked anything. *)
Theorem searchCustomerProducts_page req w res w' :
  searchCustomerProducts req w = (res, w') ->
  (forall r page, res = Ret r -> data r = Some page ->
     exists s,
       field (req_query req) "search" = JString s /\ nonempty (js_trim s) = true
       /\ pg_query page = [Q_isVisible true; Q_isSoldOut false; Q_search (escape_regex s)]
       /\ Forall (fun p => p_isVisible p = true /\ p_isSoldOut p = false
                           /\ clause_matches (Q_search (escape_regex s)) p = true)
                 (selected (pg_query page) (db w))
       /\ pg_totalItems page = length (selected (pg_query page) (db w))
       /\ 0 <= pg_skip page)
  /\ (nullish (req_query req) = false ->
      (nullish (field (req_query req) "search") = true
       \/ exists s, field (req_query req) "search" = JString s /\ js_trim s = []) ->
      res = Ret (respond BAD_REQUEST (Text "Search term is required")) /\ w' = w).
Proof.
  unfold searchCustomerProducts. intros Hrun. split.
  - intros r page -> Hpage. revert Hrun.
    destruct (nullish (req_query req)); [done|]. rewrite bind_eq.
    destruct (opt_trim _ w) as [[trimmed|e] w1] eqn:E1; [|done].
    destruct (opt_trim_result _ _ _ _ E1) as [-> Htrim].
    destruct (truthy trimmed) eqn:Htruthy; cbn [negb]; [|by intros [= <- <-]].
    destruct (Htrim _ eq_refl Htruthy) as (s & Hs & Hne). rewrite Hs. cbn [js_toString].
    intros Hrun. exists s. split; [done|]. split; [done|].
    assert (sees (db w)
              (try_catch
                 (totalProducts ← countDocuments
                    [Q_isVisible true; Q_isSoldOut false; Q_search (escape_regex s)];
                  find_page [Q_isVisible true; Q_isSoldOut false; Q_search (escape_regex s)]
                    ((int_or (default_to (field (req_query req) "page") (JNumber (num_of_Z 1))) 1
                      - 1)
                     * int_or (default_to (field (req_query req) "limit")
                                 (JNumber (num_of_Z 12))) 12) ;;
                  mret {| statusCode := OK;
                          message := WithValue (PRODUCT_MESSAGES "PRODUCTS_FETCHED") (JString s);
                          data := Some
                            {| pg_query := [Q_isVisible true; Q_isSoldOut false;
                                            Q_search (escape_regex s)];
                               pg_sort := (js "createdAt", false);
                               pg_skip :=
                                 (int_or (default_to (field (req_query req) "page")
                                            (JNumber (num_of_Z 1))) 1 - 1)
                                 * int_or (default_to (field (req_query req) "limit")
                                             (JNumber (num_of_Z 12))) 12;
                               pg_limit := int_or (default_to (field (req_query req) "limit")
                                                     (JNumber (num_of_Z 12))) 12;
                               pg_totalItems := totalProducts |} |})
                 (fun error =>
                    mret (respond SERVER_ERROR
                            (WithCause (PRODUCT_MESSAGES "SEARCH_FAILED") error))))
              (fun r => forall page, data r = Some page ->
                 pg_query page = [Q_isVisible true; Q_isSoldOut false; Q_search (escape_regex s)]
                 /\ pg_totalItems page = length (selected (pg_query page) (db w))
                 /\ 0 <= pg_skip page)) as Hsees.
    { apply sees_try_catch; [|intros e; by apply sees_ret].
      eapply sees_bind; [apply sees_countDocuments|]. intros totalProducts ->.
      eapply sees_bind; [apply sees_find_page|]. intros [] Hskip.
      apply sees_ret. by intros page' [= <-]. }
    destruct (Hsees _ _ _ eq_refl Hrun) as [_ Hr].
    destruct (Hr _ eq_refl _ Hpage) as (Hq & Htotal & Hskip).
    split; [done|]. split; [|done].
    apply Forall_forall. intros p [Hp _]%list_elem_of_filter.
    rewrite Hq in Hp. cbn [matches forallb] in Hp.
    destruct (clause_matches (Q_search _) p); cbn [clause_matches] in *;
      destruct (p_isVisible p), (p_isSoldOut p); done.
  - intros Hq Hblank. revert Hrun. rewrite Hq, bind_eq. unfold opt_trim.
    destruct Hblank as [Hnull|(s & Hs & Htrim)].
    + rewrite Hnull, ret_eq. cbn. by intros [= <- <-].
    + rewrite Hs. cbn [nullish]. rewrite ret_eq, Htrim. cbn. by intros [= <- <-].
Qed.

(** *** The tags getNewArrivals looks for *)

Lemma elem_of_with_variations x acc tag :
  x ∈ with_variations acc tag
  <-> nonempty x = true /\ (x ∈ acc \/ x ∈ [tag; hyphenated tag; spaced tag]).
Proof.
  unfold with_variations. rewrite list_elem_of_filter, elem_of_app.
  split; intros [Hx Hin]; (split; [|done]); by destruct (nonempty x).
Qed.

Lemma elem_of_variations x tags : forall acc,
  Forall (fun t => nonempty t = true) acc ->
  x ∈ foldl with_variations acc tags
  <-> nonempty x = true
      /\ (x ∈ acc \/ exists tag, tag ∈ tags /\ x ∈ [tag; hyphenated tag; spaced tag]).
Proof.
  induction tags as [|tag tags IH]; intros acc Hacc.
  - cbn [foldl]. split.
    + intros Hx. split; [|by left]. by apply (proj1 (Forall_forall _ _) Hacc).
    + intros [_ [Hx|(tag & Htag & _)]]; [done|]. by apply elem_of_nil in Htag.
  - cbn [foldl]. rewrite IH.
    2:{ apply Forall_forall. by intros t [Ht _]%elem_of_with_variations. }
    rewrite elem_of_with_variations. split.
    + intros [Hx [[_ [Hin|Hin]]|(t & Ht & Hin)]]; (split; [done|]); [by left|right..].
      * exists tag. split; [left|done].
      * exists t. split; [by right|done].
    + intros [Hx [Hin|(t & Ht & Hin)]]; (split; [done|]); [by left; split; [|left]|].
      apply elem_of_cons in Ht as [->|Ht]; [left; split; [done|by right]|].
      right. by exists t.
Qed.

Lemma quiet_tag_array tags : quiet (tag_array tags).
Proof.
  unfold tag_array. destruct (truthy tags); [|auto with quiet].
  apply quiet_bind; [|auto with quiet].
  destruct tags; auto with quiet. apply quiet_mapM. intros tag.
  unfold clean_tag. destruct tag; auto with quiet.
Qed.

(** What [tag_array] answers with. *)
Lemma tag_array_result tags :
  yields (tag_array tags)
         (fun tagArray =>
            Forall (fun t => nonempty t = true) tagArray
            /\ (truthy tags = false -> tagArray = [js "new"])
            /\ forall s piece x,
                 tags = JString s -> nonempty s = true -> piece ∈ split_on 44%N [] s ->
                 nonempty (Slug.toLowerCase (js_trim piece)) = true ->
                 x ∈ [Slug.toLowerCase (js_trim piece); Slug.normalize (js_trim piece);
                      spaced (Slug.toLowerCase (js_trim piece))] ->
                 nonempty x = true -> x ∈ tagArray).
Proof.
  unfold tag_array. destruct (truthy tags) eqn:Htruthy.
  2:{ apply yields_ret. split; [by repeat constructor|]. split; [done|].
      intros s piece x ->. by destruct s. }
  eapply yields_bind with
    (Q1 := fun l => forall s, tags = JString s ->
             l = filter (fun tag => nonempty tag)
                        (map (fun tag => Slug.toLowerCase (js_trim tag)) (split_on 44%N [] s))).
  { destruct tags; try apply yields_throw.
    - apply yields_ret. by intros s0 [= <-].
    - intros w a w' _ s0 [=]. }
  intros tagArray Hl. apply yields_ret. split; [|split; [done|]].
  - apply Forall_forall. intros x Hx.
    by apply (elem_of_variations x tagArray [] (Forall_nil_2 _)) in Hx as [Hx _].
  - intros s piece x -> _ Hpiece Htag Hx Hne. rewrite (Hl _ eq_refl).
    apply (elem_of_variations _ _ [] (Forall_nil_2 _)). split; [done|]. right.
    exists (Slug.toLowerCase (js_trim piece)). split; [|done].
    apply list_elem_of_filter. split; [by destruct (nonempty _)|].
    by apply (list_elem_of_fmap_2 (fun tag => Slug.toLowerCase (js_trim tag))).
Qed.

(** X19. What getNewArrivals looks for and shows.  An answer with data
    asks for at least one and at most 100 products; it looks for tags none
    of which is empty, for the single tag new when the request's tags are
    an empty string, and, for tags given as a string, for every
    comma-separated piece that is not blank in three forms: lower-cased,
    as the slug under which createProduct stores tags, and with blanks for
    the runs of other characters; and some stored product that is visible
    and not sold out carries one of the tags looked for. *)
Theorem getNewArrivals_answer (parseInt_auto : JsVal -> option Z) req w r w' a :
  getNewArrivals parseInt_auto req w = (Ret r, w') -> data r = Some a ->
  let tags := default_to (field (req_query req) "tags") (JString (js "new")) in
  1 <= na_limit a <= 100
  /\ exists tagArray,
       na_query a = arrivals_query tagArray
       /\ Forall (fun t => nonempty t = true) tagArray
       /\ (truthy tags = false -> tagArray = [js "new"])
       /\ (forall s piece x,
             tags = JString s -> nonempty s = true -> piece ∈ split_on 44%N [] s ->
             nonempty (Slug.toLowerCase (js_trim piece)) = true ->
             x ∈ [Slug.toLowerCase (js_trim piece); Slug.normalize (js_trim piece);
                  spaced (Slug.toLowerCase (js_trim piece))] ->
             nonempty x = true -> x ∈ tagArray)
       /\ exists o p,
            products (db w) !! o = Some p
            /\ p_isVisible p = true /\ p_isSoldOut p = false
            /\ existsb (has_string (map JString tagArray)) (p_tags p) = true.
Proof.
  intros Hrun Ha tags. revert Hrun. unfold getNewArrivals.
  destruct (nullish (req_query req)); [done|].
  destruct (Z.ltb_spec
              (Z.min match parseInt_auto (default_to (field (req_query req) "limit")
                                            (JNumber (num_of_Z 8))) with
                     | Some z => if z =? 0 then 8 else z
                     | None => 8
                     end 100) 1) as [|Hlimit]; [intros [= <- <-]; done|].
  rewrite bind_eq. fold tags.
  destruct (tag_array tags w) as [[tagArray|e] w1] eqn:E1; [|done].
  destruct (quiet_tag_array _ _ _ _ E1) as [Hd1 _].
  destruct (tag_array_result _ _ _ _ E1) as (Hne & Hnew & Hforms).
  destruct tagArray as [|t0 tagArray0] eqn:Htags; [intros [= <- <-]; done|].
  rewrite <- Htags in *. clear Htags t0 tagArray0.
  unfold try_catch. rewrite bind_eq.
  destruct (read false w1) as [[d|e] w2] eqn:E2.
  2:{ destruct e; intros [= <- <-]; done. }
  rewrite (read_committed _ _ _ E2 d eq_refl), Hd1.
  destruct (filter _ _) as [|p shown] eqn:Hshown; [intros [= <- <-]; done|].
  intros [= <- <-]. injection Ha as <-. cbn [na_limit na_query].
  split; [split; [done|apply Z.le_min_r]|].
  exists tagArray. split; [done|]. split; [done|]. split; [done|]. split; [done|].
  assert (p ∈ filter (fun p => matches (arrivals_query tagArray) p)
                     (snd <$> map_to_list (products (db w)))) as Hp
    by (rewrite Hshown; left).
  apply list_elem_of_filter in Hp as [Hmatch Hp].
  apply list_elem_of_fmap in Hp as ([o p'] & -> & Hin%elem_of_map_to_list).
  exists o, p'. split; [done|]. cbn [snd] in Hmatch.
  cbn [arrivals_query matches forallb clause_matches] in Hmatch.
  destruct (p_isVisible p'), (p_isSoldOut p'), (existsb _ (p_tags p')); done.
Qed.

(** *** The deals of the month *)

Lemma insert_by_discount_perm p l : insert_by_discount p l ≡ₚ p :: l.
Proof.
  induction l as [|q t IH]; [done|]. cbn [insert_by_discount].
  destruct (Qle_bool _ _); [done|]. rewrite IH. apply Permutation_swap.
Qed.

Lemma sort_by_discount_perm l : sort_by_discount l ≡ₚ l.
Proof.
  induction l as [|p t IH]; [done|]. cbn [sort_by_discount foldr].
  rewrite insert_by_discount_perm. by f_equiv.
Qed.

Lemma insert_by_discount_falling p l : falling l -> falling (insert_by_discount p l).
Proof.
  induction l as [|q t IH]; [by repeat constructor|].
  intros [Hq Ht]. cbn [insert_by_discount].
  destruct (Qle_bool (p_discount q) (p_discount p)) eqn:Hle.
  - apply Qle_bool_iff in Hle. split; [|by split].
    constructor; [done|]. eapply Forall_impl; [exact Hq|].
    intros x Hx. cbn beta in *. by eapply Qle_trans.
  - assert (p_discount p <= p_discount q)%Q as Hpq.
    { apply Qlt_le_weak, Qnot_le_lt. intros Hc. apply Qle_bool_iff in Hc. congruence. }
    split; [|by apply IH].
    rewrite insert_by_discount_perm. by constructor.
Qed.

Lemma sort_by_discount_falling l : falling (sort_by_discount l).
Proof.
  induction l as [|p t IH]; [done|]. by apply insert_by_discount_falling.
Qed.

Lemma falling_take n l : falling l -> falling (take n l).
Proof.
  revert n. induction l as [|p t IH]; intros [|n]; try done.
  intros [Hp Ht]. split; [|by apply IH].
  apply Forall_forall. intros q Hq%elem_of_take. destruct Hq as (i & Hq & _).
  apply (proj1 (Forall_forall _ _) Hp). by eapply list_elem_of_lookup_2.
Qed.

Lemma falling_drop n l p q :
  falling l -> p ∈ take n l -> q ∈ drop n l -> (p_discount q <= p_discount p)%Q.
Proof.
  revert n. induction l as [|x t IH]; intros [|n]; cbn [take drop];
    try (by intros _ Hp%elem_of_nil).
  intros [Hx Ht] [->|Hp]%elem_of_cons Hq.
  - apply (proj1 (Forall_forall _ _) Hx).
    apply list_elem_of_lookup in Hq as [i Hi]. rewrite lookup_drop in Hi.
    by eapply list_elem_of_lookup_2.
  - by eapply IH.
Qed.

Lemma is_deal_spec p :
  is_deal p = true
  <-> p_isFeatured p = true /\ p_isSoldOut p = false /\ p_isVisible p = true
      /\ p_isActive p = true /\ (0 < p_discount p)%Q.
Proof.
  unfold is_deal. rewrite !andb_true_iff, !negb_true_iff. split.
  - intros [[[[? ?] ?] ?] Hd]. repeat split; try done.
    apply Qnot_le_lt. intros Hc. apply Qle_bool_iff in Hc. congruence.
  - intros (? & ? & ? & ? & Hd). repeat split; try done.
    destruct (Qle_bool (p_discount p) 0) eqn:Hc; [|done].
    apply Qle_bool_iff in Hc. by apply Qle_not_lt in Hc.
Qed.

(** X20. getDealsOfTheMonth lists the highest discounts.  The deals it
    answers with are between one and five stored products, each featured,
    active, visible, not sold out and with a discount above zero, each
    with the first image of its first variant; they come by falling
    discount, and every other stored product that qualifies has a discount
    no higher than any of them.  It answers NOT_FOUND only when no stored
    product qualifies. *)
Theorem getDealsOfTheMonth_top w r w' :
  getDealsOfTheMonth w = (Ret r, w') ->
  (forall deals, data r = Some deals ->
     (1 <= length deals <= 5)%nat
     /\ Forall (fun dl =>
                  let p := deal_product dl in
                  (exists o, products (db w) !! o = Some p)
                  /\ p_isFeatured p = true /\ p_isSoldOut p = false
                  /\ p_isVisible p = true /\ p_isActive p = true
                  /\ (0 < p_discount p)%Q
                  /\ deal_images dl = first_image p) deals
     /\ falling (map deal_product deals)
     /\ forall o p, products (db w) !! o = Some p -> is_deal p = true ->
          p ∈ map deal_product deals
          \/ Forall (fun dl => (p_discount p <= p_discount (deal_product dl))%Q) deals)
  /\ (statusCode r = NOT_FOUND ->
      forall o p, products (db w) !! o = Some p -> is_deal p = false).
Proof.
  unfold getDealsOfTheMonth, try_catch. rewrite bind_eq.
  destruct (read false w) as [[d|e] w1] eqn:E1.
  2:{ destruct e; intros [= <- <-]; done. }
  rewrite (read_committed _ _ _ E1 d eq_refl).
  set (deals := filter (fun p => is_deal p) (snd <$> map_to_list (products (db w)))).
  set (sorted := sort_by_discount deals).
  assert (forall o p, products (db w) !! o = Some p -> is_deal p = true -> p ∈ sorted)
    as Hall.
  { intros o p Hp Hdeal. unfold sorted. rewrite sort_by_discount_perm.
    apply list_elem_of_filter. split; [by rewrite Hdeal|].
    apply list_elem_of_fmap. exists (o, p). split; [done|]. by apply elem_of_map_to_list. }
  assert (forall p, p ∈ sorted ->
                    is_deal p = true /\ exists o, products (db w) !! o = Some p) as Hin.
  { intros p. unfold sorted. rewrite sort_by_discount_perm.
    intros [Hdeal Hp]%list_elem_of_filter. split; [by destruct (is_deal p)|].
    apply list_elem_of_fmap in Hp as ([o p'] & -> & Hp%elem_of_map_to_list). by exists o. }
  pose proof (sort_by_discount_falling deals) as Hfalling. fold sorted in Hfalling.
  destruct (take 5 sorted) as [|p0 listed0] eqn:Hlisted.
  - intros [= <- <-]. split; [done|]. intros _ o p Hp.
    destruct (is_deal p) eqn:Hdeal; [|done].
    specialize (Hall _ _ Hp Hdeal). destruct sorted; [by apply elem_of_nil in Hall|done].
  - rewrite <- Hlisted. intros [= <- <-]. split; [|done].
    intros answer [= <-]. rewrite length_map.
    assert (map deal_product
              (map (fun p => {| deal_product := p; deal_images := first_image p |})
                   (take 5 sorted)) = take 5 sorted) as Hproducts.
    { rewrite map_map. apply map_id. }
    rewrite Hproducts. split; [|split; [|split]].
    + rewrite Hlisted at 1. split; [simpl; lia|]. rewrite length_take. lia.
    + apply Forall_forall. intros dl Hdl.
      apply list_elem_of_In, in_map_iff in Hdl as (p & <- & Hp%list_elem_of_In).
      cbn [deal_product deal_images]. apply elem_of_take in Hp as (i & Hp & _).
      apply list_elem_of_lookup_2 in Hp. destruct (Hin _ Hp) as [Hdeal Hstored].
      apply is_deal_spec in Hdeal as (? & ? & ? & ? & ?). split; [done|]. by repeat split.
    + by apply falling_take.
    + intros o p Hp Hdeal. specialize (Hall _ _ Hp Hdeal).
      rewrite <- (take_drop 5 sorted) in Hall. apply elem_of_app in Hall as [Hl|Hr];
        [by left|right].
      apply Forall_forall. intros dl Hdl.
      apply list_elem_of_In, in_map_iff in Hdl as (q & <- & Hq%list_elem_of_In).
      cbn [deal_product]. by eapply falling_drop.
Qed.

End CustomerFacts.

(** The hidden hat of the shop is answered like a product that does not
    exist. *)
Lemma getCustomerProductById_shown_only_witness :
  let req := Sample.request (Sample.id_string 112) JUndefined in
  let w := Shop.world in
  let out := @Customer.getCustomerProductById Reference.platform req w in
  Sample.answer out.1 = respond NOT_FOUND (PRODUCT_MESSAGES "PRODUCT_ID_NOT_FOUND")
  /\ clock out.2 = S (clock w).
Proof.
  intros req w out.
  destruct (@getCustomerProductById_shown_only Reference.platform req w
              (Sample.answer out.1) out.2) as (_ & _ & Hhidden);
    [vm_compute; reflexivity|].
  apply (Hhidden 112%N (Shop.item 112 "hat" [] true false (70 # 1)));
    [vm_compute; reflexivity..|by left].
Defined.

(** A search for coat in the shop. *)
Lemma searchCustomerProducts_page_witness :
  let req := Sample.query [("search"%string, JString (js "coat"))] in
  let w := Shop.world in
  let out := @Customer.searchCustomerProducts Reference.platform req w in
  exists page, data (Sample.answer out.1) = Some page
    /\ Filter.pg_totalItems page = 1%nat
    /\ Forall (fun p => p_isVisible p = true /\ p_isSoldOut p = false
                        /\ @Filter.clause_matches Reference.platform
                             (Filter.Q_search (escape_regex (js "coat"))) p = true)
              (@selected Reference.platform (Filter.pg_query page) (db w)).
Proof.
  intros req w out. eexists. split; [vm_compute; reflexivity|].
  split; [vm_compute; reflexivity|].
  destruct (@searchCustomerProducts_page Reference.platform req w out.1 out.2) as [Hpage _];
    [apply surjective_pairing|].
  destruct (Hpage (Sample.answer out.1) _ ltac:(vm_compute; reflexivity)
              ltac:(vm_compute; reflexivity)) as (s & Hs & _ & _ & Hshown & _).
  vm_compute in Hs. injection Hs as <-. exact Hshown.
Defined.

(** New arrivals asked for by the tag as a customer writes it. *)
Lemma getNewArrivals_answer_witness :
  let req := Sample.query [("tags"%string, JString (js "New Arrival, sale"))] in
  let w := Shop.world in
  let out := @Customer.getNewArrivals Reference.platform (@parseInt Reference.platform) req w in
  exists a tagArray,
    data (Sample.answer out.1) = Some a
    /\ Customer.na_limit a = 8
    /\ Customer.na_query a = Customer.arrivals_query tagArray
    /\ js "new-arrival" ∈ tagArray.
Proof.
  intros req w out. eexists.
  destruct (@getNewArrivals_answer Reference.platform (@parseInt Reference.platform) req w
              (Sample.answer out.1) out.2 _ ltac:(vm_compute; reflexivity)
              ltac:(vm_compute; reflexivity))
    as (_ & tagArray & Hquery & _ & _ & Hforms & _).
  exists tagArray. split; [vm_compute; reflexivity|]. split; [vm_compute; reflexivity|].
  split; [exact Hquery|].
  apply (Hforms (js "New Arrival, sale") (js "New Arrival") (js "new-arrival")).
  - vm_compute. reflexivity.
  - reflexivity.
  - vm_compute. left.
  - vm_compute. reflexivity.
  - vm_compute. right. left.
  - reflexivity.
Defined.

(** The five highest of the six deals of the shop. *)
Lemma getDealsOfTheMonth_top_witness :
  let out := Customer.getDealsOfTheMonth Shop.world in
  exists deals,
    data (Sample.answer out.1) = Some deals
    /\ map (fun dl => p_name (Customer.deal_product dl)) deals
       = [js "cape"; js "coat"; js "vest"; js "dress"; js "sock"]
    /\ falling (map Customer.deal_product deals).
Proof.
  intros out. eexists. split; [vm_compute; reflexivity|]. split; [vm_compute; reflexivity|].
  destruct (getDealsOfTheMonth_top Shop.world (Sample.answer out.1) out.2) as [Hdeals _];
    [vm_compute; reflexivity|].
  by destruct (Hdeals _ eq_refl) as (_ & _ & Hfalling & _).
Defined.
(* ===================================================================== *)
(** ** The category and the order of a listing *)
(* ===================================================================== *)

Section ListingOrder.
Context `{Platform}.
Import Filter.

Lemma sees_category_chosen d category :
  sees d (category_filter category)
       (fun x => rejection x
                 /\ forall clauses s, x = inr clauses -> category = JString s ->
                      nonempty (js_trim s) = true -> category_chosen s d clauses).
Proof.
  unfold category_filter.
  eapply sees_bind with
    (Q1 := fun trimmed => forall s, category = JString s -> nonempty (js_trim s) = true ->
                                    truthy trimmed = true).
  { unfold opt_trim. destruct (nullish category) eqn:Hn; [apply sees_ret; by intros s ->|].
    destruct category; try apply sees_throw. apply sees_ret.
    intros s0 [= <-]. cbn [truthy]. by destruct (js_trim s). }
  intros trimmed Htrimmed.
  destruct (truthy trimmed) eqn:Htruthy.
  2:{ apply sees_ret. split; [done|]. intros clauses s _ -> Hs.
      specialize (Htrimmed _ eq_refl Hs). congruence. }
  destruct (castObjectId category) as [o|] eqn:Ho.
  { apply sees_ret. split; [done|]. intros clauses s [= <-] -> _.
    exists o. by rewrite Ho. }
  eapply sees_bind with (Q1 := fun d' => d' = d).
  { intros w res w' Hd E. destruct (quiet_read _ _ _ _ E) as [Hd' _].
    split; [congruence|]. intros d' ->. rewrite <- Hd. by eapply read_committed. }
  intros d' ->.
  destruct category as [| | | |s| | |]; try (apply sees_ret; split; [simpl; eauto|done]).
  destruct (find _ _) as [[k c]|] eqn:Hfind; apply sees_ret; [|split; [simpl; eauto|done]].
  split; [done|]. intros clauses s0 [= <-] [= <-] _.
  exists k. split; [done|]. rewrite Ho.
  destruct (find_some _ _ Hfind) as [Hin%list_elem_of_In%elem_of_map_to_list Hkc].
  cbn [snd] in Hkc. apply andb_true_iff in Hkc as [Hslug%bool_decide_eq_true Hactive].
  by exists c.
Qed.

Lemma sees_sort_of d allowed sortBy sortOrder :
  sees d (sort_of allowed sortBy sortOrder) (sort_allowed allowed).
Proof.
  apply sees_of; [apply quiet_sort_of|]. unfold sort_of.
  destruct (existsb _ _) eqn:Hallowed; [|apply yields_ret; by left].
  apply existsb_exists in Hallowed as (f & Hf & Hstr).
  destruct sortBy; try apply yields_throw. destruct sortOrder; try apply yields_throw.
  apply yields_ret. right. exists f. split; [done|].
  cbn in Hstr. by apply bool_decide_eq_true in Hstr.
Qed.

Local Abbreviation listed_under req d allowed :=
  (fun r : Response Page => forall page, data r = Some page ->
     (forall s, field (req_query req) "category" = JString s ->
                nonempty (js_trim s) = true ->
                exists clauses, category_chosen s d clauses
                  /\ forall c, In c clauses -> In c (pg_query page))
     /\ sort_allowed allowed (pg_sort page)).

Lemma filterCustomerProducts_order req d :
  sees d (filterCustomerProducts req)
       (listed_under req d ["createdAt"; "base_price"; "rating"; "viewCount"; "name"]%string).
Proof.
  unfold filterCustomerProducts.
  destruct (nullish _); [apply sees_throw|].
  destruct (_ || _); [by apply sees_ret|].
  eapply sees_bind; [apply sees_category_chosen|].
  intros [response|categoryClauses] [Hrej Hcat]; [destruct Hrej as [m ->]; by apply sees_ret|].
  apply sees_bind_any; [destruct (truthy _); [apply quiet_parseFilterArray|auto with quiet]|].
  intros sizeArray.
  eapply sees_bind; [apply sees_id_block|].
  intros [response|colorClauses] Hrej1; [destruct Hrej1 as [m ->]; by apply sees_ret|].
  eapply sees_bind; [apply sees_id_block|].
  intros [response|brandClauses] Hrej2; [destruct Hrej2 as [m ->]; by apply sees_ret|].
  apply sees_bind_any; [destruct (truthy _); [apply quiet_parseFilterArray|auto with quiet]|].
  intros collectionsArray.
  apply sees_bind_any; [destruct (truthy _); [apply quiet_parseFilterArray|auto with quiet]|].
  intros tagsArray.
  destruct (price_filter _ _) as [response|priceFilter] eqn:Hprice.
  { unfold price_filter in Hprice.
    repeat match type of Hprice with
           | (if ?b then _ else _) = _ => destruct b
           end; try done; injection Hprice as <-; by apply sees_ret. }
  eapply sees_bind; [apply sees_sort_of|]. intros sort Hsort.
  apply sees_try_catch; [|intros e; by apply sees_ret].
  apply sees_bind_any; [unfold countDocuments; apply quiet_bind; auto with quiet|].
  intros totalProducts.
  apply sees_bind_any; [auto with quiet|]. intros [].
  apply sees_bind_any; [apply quiet_find_page|]. intros [].
  apply sees_bind_any; [destruct (_ || _); auto with quiet|]. intros [].
  apply sees_ret. intros page [= <-]. cbn [pg_query pg_sort]. split; [|done].
  intros s Hs Hne. exists categoryClauses. split; [by eapply Hcat|].
  intros c Hc.
  destruct sizeArray, collectionsArray, tagsArray, priceFilter,
    (field (req_query req) "soldOut"); repeat (first [rewrite in_app_iff | progress cbn [app In]]); tauto.
Qed.

Lemma getCustomerProducts_order req d :
  sees d (getCustomerProducts req)
       (listed_under req d ["createdAt"; "base_price"; "rating"; "viewCount"]%string).
Proof.
  unfold getCustomerProducts.
  destruct (nullish _); [apply sees_throw|].
  apply sees_bind_any; [apply quiet_opt_trim|]. intros trimmed.
  eapply sees_bind; [apply sees_category_chosen|].
  intros [response|categoryClauses] [Hrej Hcat]; [destruct Hrej as [m ->]; by apply sees_ret|].
  apply sees_bind_any; [apply quiet_opt_trim|]. intros tagsTrimmed.
  eapply sees_bind with (Q1 := rejection).
  { destruct (truthy _); [|by apply sees_ret].
    apply sees_of; [apply quiet_id_filter|].
    eapply yields_weaken; [by apply id_filter_clauses|]. by intros x [Hx _]. }
  intros [response|colorClauses] Hrej1; [destruct Hrej1 as [m ->]; by apply sees_ret|].
  eapply sees_bind with (Q1 := rejection).
  { destruct (truthy _); [|by apply sees_ret].
    apply sees_of; [apply quiet_id_filter|].
    eapply yields_weaken; [by apply id_filter_clauses|]. by intros x [Hx _]. }
  intros [response|brandClauses] Hrej2; [destruct Hrej2 as [m ->]; by apply sees_ret|].
  apply sees_bind_any.
  { destruct (truthy _); [|auto with quiet].
    destruct (field (req_query req) "collections"); auto with quiet. }
  intros collectionArray.
  eapply sees_bind; [apply sees_sort_of|]. intros sort Hsort.
  apply sees_try_catch; [|intros e; by apply sees_ret].
  apply sees_bind_any; [unfold countDocuments; apply quiet_bind; auto with quiet|].
  intros totalProducts.
  apply sees_bind_any; [apply quiet_find_page|]. intros [].
  apply sees_ret. intros page [= <-]. cbn [pg_query pg_sort]. split; [|done].
  intros s Hs Hne. exists categoryClauses. split; [by eapply Hcat|].
  intros c Hc.
  repeat match goal with
         | |- context [if ?b then _ else _] => destruct b
         | |- context [match ?l with [] => _ | _ :: _ => _ end] => destruct l
         end; repeat (first [rewrite in_app_iff | progress cbn [app In]]); tauto.
Qed.

(** X21. A listing by category.  When getCustomerProducts or
    filterCustomerProducts answers with a page for a request whose
    category is a string that does not trim to nothing, the page is
    restricted to one category: the one with that id, or, when the string
    is no id, a category that is active and has the string as its slug.
    So the slug of an inactive category gets no page. *)
Theorem listing_category (handler : Request -> M (Response Page)) req w r w' page s :
  handler = getCustomerProducts \/ handler = filterCustomerProducts ->
  handler req w = (Ret r, w') -> data r = Some page ->
  field (req_query req) "category" = JString s ->
  nonempty (js_trim s) = true ->
  exists k,
    In (Q_category k) (pg_query page)
    /\ Forall (fun p => p_category p = k) (selected (pg_query page) (db w))
    /\ match castObjectId (JString s) with
       | Some o => k = o
       | None => exists c, categories (db w) !! k = Some c
                   /\ cat_slug c = s /\ cat_isActive c = true
       end.
Proof.
  intros Hhandler Hrun Hpage Hs Hne.
  assert (exists allowed, listed_under req (db w) allowed r) as [allowed Hr].
  { destruct Hhandler as [-> | ->]; eexists.
    - by destruct (getCustomerProducts_order req (db w) _ _ _ eq_refl Hrun) as [_ Hr]; eauto.
    - by destruct (filterCustomerProducts_order req (db w) _ _ _ eq_refl Hrun) as [_ Hr];
        eauto. }
  destruct (Hr _ Hpage) as [Hcat _].
  destruct (Hcat _ Hs Hne) as (clauses & (k & -> & Hk) & Hin).
  exists k. split; [apply Hin; by left|]. split; [|done].
  apply Forall_forall. intros p [Hp _]%list_elem_of_filter.
  assert (matches (pg_query page) p = true) as Hmatch by (by destruct (matches _ p)).
  unfold matches in Hmatch.
  pose proof (proj1 (forallb_forall _ _) Hmatch _ (Hin _ (or_introl eq_refl))) as Hc.
  by apply bool_decide_eq_true in Hc.
Qed.


End ListingOrder.

(** The shop listed under the slug of its one category with products, by
    name. *)
Lemma listing_category_witness :
  let req := Sample.query [("category"%string, JString (js "shirts"));
                           ("sortBy"%string, JString (js "name"))] in
  let w := Shop.world in
  let out := @Filter.filterCustomerProducts Reference.platform req w in
  exists page k,
    data (Sample.answer out.1) = Some page
    /\ In (Filter.Q_category k) (Filter.pg_query page)
    /\ Forall (fun p => p_category p = k)
              (@selected Reference.platform (Filter.pg_query page) (db w))
    /\ exists c, categories (db w) !! k = Some c
         /\ cat_slug c = js "shirts" /\ cat_isActive c = true.
Proof.
  intros req w out. eexists.
  destruct (@listing_category Reference.platform (@Filter.filterCustomerProducts Reference.platform)
              req w (Sample.answer out.1) out.2 _ (js "shirts")
              (or_intror eq_refl) ltac:(vm_compute; reflexivity)
              ltac:(vm_compute; reflexivity) ltac:(vm_compute; reflexivity)
              ltac:(vm_compute; reflexivity))
    as (k & Hin & Hall & Hk).
  exists k. split; [vm_compute; reflexivity|]. split; [exact Hin|]. split; [exact Hall|].
  exact Hk.
Defined.

(* ===================================================================== *)
(** ** A brand that was created can be fetched *)
(* ===================================================================== *)

Section BrandRoundTrip.
Context `{Platform}.
Import Brands.

Lemma createBrand_data req w r w' o b :
  createBrand req w = (Ret r, w') -> data r = Some (o, b) ->
  brands (db w') !! o = Some b.
Proof.
  unfold createBrand. intros Hrun Hdata. rewrite bind_eq in Hrun.
  destruct (get_prop (req_body req) "name" w) as [[name|e] w0] eqn:E0; [|done].
  rewrite bind_eq in Hrun.
  destruct (Brand_findOne_name name w0) as [[existingBrand|e] w1] eqn:E1; [|done].
  destruct (bool_decide (is_Some existingBrand));
    [injection Hrun as <- <-; done|].
  rewrite bind_eq in Hrun. unfold new_ObjectId at 1 in Hrun.
  set (w2 := set_next_oid _ w1) in Hrun. rewrite bind_eq in Hrun.
  destruct (save None (next_oid w1) (set_name name) w2) as [[createdBrand|e] w3] eqn:E3;
    [|done].
  injection Hrun as <- <-. injection Hdata as ->.
  destruct (save_result _ _ _ _ _ _ E3)
    as [(e & [=] & _)|(n & _ & _ & [= <- <-] & _ & _ & _ & Hwritten)].
  cbv zeta in Hwritten. cbn [unmodified] in Hwritten. destruct Hwritten as (-> & _).
  apply lookup_insert_eq.
Qed.

(** X23. A brand that createBrand has answered with is there to be fetched:
    when its id reads back from its string and the store answers the next
    call, getBrandById for that id answers OK with the very document
    createBrand returned, and changes nothing. *)
Theorem createBrand_then_getBrandById req w r w' o b req' :
  createBrand req w = (Ret r, w') -> data r = Some (o, b) ->
  reads_back o = true ->
  req_id req' = JString (ObjectId_toString o) ->
  faults w' (clock w') = false ->
  exists w'',
    getBrandById req' w'
    = (Ret {| statusCode := OK; message := Text "Brand fetched successfully";
              data := Some (o, b) |}, w'')
    /\ db w'' = db w'.
Proof.
  intros Hrun Hdata Hback Hid Hok.
  pose proof (createBrand_data _ _ _ _ _ _ Hrun Hdata) as Hb.
  apply andb_true_iff in Hback as [_ Hcast%bool_decide_eq_true].
  unfold getBrandById. rewrite bind_eq, Hid. unfold Brand_findById. rewrite Hcast.
  rewrite bind_eq. unfold read. rewrite bind_eq. unfold store_call. rewrite Hok.
  cbn [gets mret M_ret]. change (db (tick w')) with (db w'). rewrite Hb.
  by exists (tick w').
Qed.

End BrandRoundTrip.

Section ProductRoundTrip.
Context `{Platform}.
Import Create Customer.

(** X24. What the admin creates, the customer can fetch, if it may be
    shown.  After createProduct has answered CREATED with a product whose
    id reads back from its string, and with a store that answers the next
    two calls, getCustomerProductById for that id answers OK with that
    very product when it is visible and not sold out, and NOT_FOUND
    otherwise. *)
Theorem createProduct_then_getCustomerProductById req w r w' p req' :
  createProduct req w = (Ret r, w') -> statusCode r = CREATED -> data r = Some p ->
  reads_back (p_id p) = true ->
  req_id req' = JString (ObjectId_toString (p_id p)) ->
  faults w' (clock w') = false -> faults w' (S (clock w')) = false ->
  exists w'',
    getCustomerProductById req' w'
    = (Ret (if p_isVisible p && negb (p_isSoldOut p)
            then {| statusCode := OK; message := PRODUCT_MESSAGES "PRODUCT_ID_FETCHED";
                    data := Some p |}
            else respond NOT_FOUND (PRODUCT_MESSAGES "PRODUCT_ID_NOT_FOUND")), w'')
    /\ db w'' = db w'.
Proof.
  intros Hrun Hcreated Hdata Hback Hid Hok1 Hok2.
  assert (products (db w') !! p_id p = Some p) as Hp.
  { destruct (createProduct_inv _ _ _ _ Hrun)
      as [(_ & Hnot & _)|(p0 & c & _ & _ & _ & Hcommitted & Hres & _)];
      [by destruct (Hnot _ eq_refl)|].
    destruct Hres as [[= ->]|[= ->]]; [done|]. cbn [data] in Hdata. injection Hdata as ->.
    rewrite (committed_products _ _ _ _ _ Hcommitted). apply lookup_insert_eq. }
  apply andb_true_iff in Hback as [_ Hcast%bool_decide_eq_true].
  unfold getCustomerProductById, isValidObjectId. rewrite Hid, Hcast.
  rewrite bool_decide_true by eauto. cbn [negb].
  rewrite bind_eq. unfold Product_findOne_shown. rewrite Hcast.
  rewrite bind_eq. unfold read. rewrite bind_eq. unfold store_call at 1. rewrite Hok1.
  cbn [gets mret M_ret]. change (db (tick w')) with (db w'). rewrite Hp.
  destruct (p_isVisible p && negb (p_isSoldOut p)).
  - rewrite bind_eq. unfold store_call.
    change (faults (tick w') (clock (tick w'))) with (faults w' (S (clock w'))).
    rewrite Hok2. by exists (tick (tick w')).
  - by exists (tick w').
Qed.

End ProductRoundTrip.

(** A third brand for the sample shop, created and fetched. *)
Lemma createBrand_then_getBrandById_witness :
  let req := Sample.request JUndefined (BrandSample.named " Nova Line ") in
  let w := BrandSample.world in
  let out := @Brands.createBrand Reference.platform req w in
  let b := {| brand_name := js "Nova Line"; brand_slug := js "nova-line" |} in
  let req' := Sample.request (Sample.id_string 1000) JUndefined in
  exists w'',
    @Brands.getBrandById Reference.platform req' out.2
    = (Ret {| statusCode := OK; message := Text "Brand fetched successfully";
              data := Some (1000%N, b) |}, w'')
    /\ db w'' = db out.2.
Proof.
  intros req w out b req'.
  apply (@createBrand_then_getBrandById Reference.platform req w (Sample.answer out.1) out.2
           1000%N b req'); vm_compute; reflexivity.
Defined.

(** The new product with variants of colours 12 and 10, created and
    fetched. *)
Lemma createProduct_then_getCustomerProductById_witness :
  let req := Sample.request JUndefined
               (Sample.new_product "Blue Jeans"
                  (JArray [Sample.object [("color"%string, Sample.id_string 12)];
                           Sample.object [("color"%string, Sample.id_string 10)]])) in
  let w := Sample.world true ∅ Sample.no_faults in
  let out := @Create.createProduct Reference.platform req w in
  let req' := Sample.request (Sample.id_string 1000) JUndefined in
  exists p w'',
    data (Sample.answer out.1) = Some p
    /\ @Customer.getCustomerProductById Reference.platform req' out.2
       = (Ret {| statusCode := OK; message := PRODUCT_MESSAGES "PRODUCT_ID_FETCHED";
                 data := Some p |}, w'')
    /\ db w'' = db out.2.
Proof.
  intros req w out req'. eexists.
  destruct (@createProduct_then_getCustomerProductById Reference.platform req w
              (Sample.answer out.1) out.2 _ req'
              ltac:(vm_compute; reflexivity) ltac:(vm_compute; reflexivity)
              ltac:(vm_compute; reflexivity) ltac:(vm_compute; reflexivity)
              ltac:(vm_compute; reflexivity) ltac:(vm_compute; reflexivity)
              ltac:(vm_compute; reflexivity))
    as (w'' & Hget & Hdb).
  exists w''. split; [vm_compute; reflexivity|]. split; [exact Hget|exact Hdb].
Defined.
